(** * Chequeo Devoluciones: the validation engine of [lista.py]

    A shallow embedding of the classification-and-validation core of
    [src/Chequeo Devoluciones/lista.py]: text normalisation, the business
    calendar, date extraction, document classification, filename inference,
    page extraction and aggregation, checklist evaluation and the run over a
    folder, followed by the properties established about them.

    Conventions of the embedding.
    - Text.  A Python [str] is a [list ascii]; each [ascii] is read as the
      Unicode code point of the same number (U+0000 .. U+00FF, the Latin-1
      repertoire, which holds every accented letter of the keyword tables).
      Character classes ([\w], [\s], [\d]), [str.lower] and the NFKD
      decomposition are the restrictions of Python's to that repertoire.
    - Dates.  A [datetime.date] is its proleptic Gregorian ordinal
      ([date.toordinal()], 1 = 0001-01-01) as a [Z]; the representable range
      is [1 .. MAXORD] and arithmetic leaving it raises [OverflowError].
    - Exceptions.  Fallible operations return [option] or [outcome].
    - Regular expressions.  [re] patterns are terms of [Re.t], executed by a
      backtracking matcher with Python's priorities (leftmost, alternatives
      left to right, greedy or lazy repetition). *)

From Stdlib Require Import ZArith List Bool Ascii String Lia Arith Floats.
From Stdlib Require Import Sorted Permutation.
Import ListNotations.

Local Open Scope Z_scope.
Local Open Scope list_scope.

(* ================================================================== *)
(** * Python text over Latin-1 *)
(* ================================================================== *)

Module Py.

Definition str := list ascii.

Definition code (c : ascii) : N := N_of_ascii c.
Definition chr (n : N) : ascii := ascii_of_N n.

Definition between (lo hi : N) (c : ascii) : bool :=
  (N.leb lo (code c) && N.leb (code c) hi)%bool.

Definition ch_eqb (a b : ascii) : bool := Ascii.eqb a b.

(** A string literal of this file is UTF-8; [L1] decodes it to Latin-1 code
    points (two-byte sequences C2 xx and C3 xx become one character). *)
Fixpoint L1 (s : string) : str :=
  match s with
  | EmptyString => []
  | String c s' =>
      match s' with
      | String d s'' =>
          if N.eqb (code c) 194 then d :: L1 s''
          else if N.eqb (code c) 195 then chr (code d + 64) :: L1 s''
          else c :: L1 s'
      | EmptyString => [c]
      end
  end.

(** [str.isdecimal], and [\d] of a str pattern: on Latin-1 only 0-9. *)
Definition is_digit (c : ascii) : bool := between 48 57 c.

(** [str.isspace], and [\s]: TAB LF VT FF CR, FS GS RS US, SPACE, NEL, NBSP. *)
Definition is_space (c : ascii) : bool :=
  (between 9 13 c || between 28 32 c || N.eqb (code c) 133
   || N.eqb (code c) 160)%bool.

(** [\w]: [str.isalnum] or underscore.  On Latin-1 the alphanumerics are
    0-9 A-Z a-z, U+00AA, U+00B2, U+00B3, U+00B5, U+00B9, U+00BA,
    U+00BC..U+00BE, U+00C0..U+00D6, U+00D8..U+00F6, U+00F8..U+00FF. *)
Definition is_word (c : ascii) : bool :=
  (between 48 57 c || between 65 90 c || between 97 122 c
   || N.eqb (code c) 95
   || N.eqb (code c) 170 || between 178 179 c || N.eqb (code c) 181
   || between 185 186 c || between 188 190 c
   || between 192 214 c || between 216 246 c || between 248 255 c)%bool.

(** [str.lower] on one character: A-Z and U+00C0..U+00DE (but U+00D7). *)
Definition lower_ch (c : ascii) : ascii :=
  if (between 65 90 c
      || (between 192 222 c && negb (N.eqb (code c) 215)))%bool
  then chr (code c + 32) else c.

Definition lower (s : str) : str := map lower_ch s.

(** [s.replace(a, b)] for one-character [a] and [b]. *)
Definition replace_ch (a b : ascii) (s : str) : str :=
  map (fun c => if ch_eqb c a then b else c) s.

Fixpoint str_eqb (a b : str) : bool :=
  match a, b with
  | [], [] => true
  | x :: a', y :: b' => (ch_eqb x y && str_eqb a' b')%bool
  | _, _ => false
  end.

Fixpoint startswith (s p : str) : bool :=
  match p with
  | [] => true
  | x :: p' =>
      match s with
      | [] => false
      | y :: s' => (ch_eqb x y && startswith s' p')%bool
      end
  end.

(** [needle in hay]. *)
Fixpoint contains (hay needle : str) : bool :=
  (startswith hay needle
   || match hay with
      | [] => false
      | _ :: hay' => contains hay' needle
      end)%bool.

Fixpoint lstrip (s : str) : str :=
  match s with
  | c :: s' => if is_space c then lstrip s' else s
  | [] => []
  end.

Definition rstrip (s : str) : str := rev (lstrip (rev s)).

(** [s.strip()]. *)
Definition strip (s : str) : str := rstrip (lstrip s).

(** [s.split()]: the maximal runs of non-whitespace characters. *)
Fixpoint split_ws_aux (cur : str) (s : str) : list str :=
  match s with
  | [] => match cur with [] => [] | _ => [rev cur] end
  | c :: s' =>
      if is_space c
      then match cur with
           | [] => split_ws_aux [] s'
           | _ => rev cur :: split_ws_aux [] s'
           end
      else split_ws_aux (c :: cur) s'
  end.

Definition split_ws (s : str) : list str := split_ws_aux [] s.

(** [int(s)] for [s] a non-empty run of decimal digits. *)
Definition int_of_digits (s : str) : Z :=
  fold_left (fun acc c => 10 * acc + (Z.of_N (code c) - 48)) s 0.

(** Truthiness of a str. *)
Definition truthy (s : str) : bool :=
  match s with [] => false | _ => true end.

(** NFKD followed by the removal of combining marks, one character at a
    time ([quitar_acentos] of the source).  The decompositions of U+00B5 and
    U+00BC..U+00BE leave Latin-1; these four are kept as they are, and no
    caller in this file passes them. *)
Definition unaccent_ch (c : ascii) : ascii :=
  let n := code c in
  if N.eqb n 160 then " "%char
  else if (N.eqb n 168 || N.eqb n 175 || N.eqb n 180 || N.eqb n 184)%bool
       then " "%char
  else if N.eqb n 170 then "a"%char
  else if N.eqb n 178 then "2"%char
  else if N.eqb n 179 then "3"%char
  else if N.eqb n 185 then "1"%char
  else if N.eqb n 186 then "o"%char
  else if between 192 197 c then "A"%char
  else if N.eqb n 199 then "C"%char
  else if between 200 203 c then "E"%char
  else if between 204 207 c then "I"%char
  else if N.eqb n 209 then "N"%char
  else if between 210 214 c then "O"%char
  else if between 217 220 c then "U"%char
  else if N.eqb n 221 then "Y"%char
  else if between 224 229 c then "a"%char
  else if N.eqb n 231 then "c"%char
  else if between 232 235 c then "e"%char
  else if between 236 239 c then "i"%char
  else if N.eqb n 241 then "n"%char
  else if between 242 246 c then "o"%char
  else if between 249 252 c then "u"%char
  else if (N.eqb n 253 || N.eqb n 255)%bool then "y"%char
  else c.

End Py.

(* ================================================================== *)
(** * Regular expressions *)
(* ================================================================== *)

Module Re.
Import Py.

(** The fragment of Python's [re] syntax used by the source.  Repetition
    only ever applies to a character class there. *)
Inductive t : Type :=
| Eps
| Cls (p : ascii -> bool)
| Cat (a b : t)
| Alt (a b : t)
| Rep (lo : nat) (hi : option nat) (greedy : bool) (p : ascii -> bool)
| Grp (i : nat) (a : t)
| WordB
| Behind (p : ascii -> bool)
| Ahead (p : ascii -> bool).

Definition caps := list (nat * str).

Fixpoint group (i : nat) (cs : caps) : option str :=
  match cs with
  | [] => None
  | (j, s) :: cs' => if Nat.eqb i j then Some s else group i cs'
  end.

Definition word_opt (c : option ascii) : bool :=
  match c with Some x => is_word x | None => false end.

Definition hi_allows (hi : option nat) : bool :=
  match hi with Some O => false | _ => true end.

Definition hi_pred (hi : option nat) : option nat :=
  match hi with Some n => Some (pred n) | None => None end.

Section Matcher.
Context {A : Type}.

(** [p{lo,hi}], greedy: take as many as allowed, give back one at a time. *)
Fixpoint rep_greedy (p : ascii -> bool) (lo : nat) (hi : option nat)
    (prev : option ascii) (s : str)
    (k : option ascii -> str -> option A) : option A :=
  let stop := match lo with O => k prev s | S _ => None end in
  match s with
  | c :: s' =>
      if (p c && hi_allows hi)%bool
      then match rep_greedy p (pred lo) (hi_pred hi) (Some c) s' k with
           | Some r => Some r
           | None => stop
           end
      else stop
  | [] => stop
  end.

(** [p{lo,hi}?], lazy: take as few as allowed, extend on failure. *)
Fixpoint rep_lazy (p : ascii -> bool) (lo : nat) (hi : option nat)
    (prev : option ascii) (s : str)
    (k : option ascii -> str -> option A) : option A :=
  let more :=
    match s with
    | c :: s' =>
        if (p c && hi_allows hi)%bool
        then rep_lazy p (pred lo) (hi_pred hi) (Some c) s' k
        else None
    | [] => None
    end in
  match lo with
  | O => match k prev s with Some r => Some r | None => more end
  | S _ => more
  end.

(** The matcher, in continuation-passing style: [k] receives the character
    before the current position, the rest of the text and the groups. *)
Fixpoint run (r : t) (prev : option ascii) (s : str) (cs : caps)
    (k : option ascii -> str -> caps -> option A) : option A :=
  match r with
  | Eps => k prev s cs
  | Cls p =>
      match s with
      | c :: s' => if p c then k (Some c) s' cs else None
      | [] => None
      end
  | Cat a b => run a prev s cs (fun prev' s' cs' => run b prev' s' cs' k)
  | Alt a b =>
      match run a prev s cs k with
      | Some x => Some x
      | None => run b prev s cs k
      end
  | Rep lo hi true p =>
      rep_greedy p lo hi prev s (fun prev' s' => k prev' s' cs)
  | Rep lo hi false p =>
      rep_lazy p lo hi prev s (fun prev' s' => k prev' s' cs)
  | Grp i a =>
      run a prev s cs
        (fun prev' s' cs' =>
           k prev' s' ((i, firstn (List.length s - List.length s') s) :: cs'))
  | WordB =>
      if xorb (word_opt prev) (word_opt (hd_error s))
      then k prev s cs else None
  | Behind p =>
      match prev with
      | Some c => if p c then k prev s cs else None
      | None => None
      end
  | Ahead p =>
      match s with
      | c :: _ => if p c then k prev s cs else None
      | [] => None
      end
  end.

End Matcher.

(** [pattern.match] at the current position: length of the match and its
    groups. *)
Definition match_at (r : t) (prev : option ascii) (s : str)
  : option (nat * caps) :=
  run r prev s [] (fun _ s' cs => Some ((List.length s - List.length s')%nat, cs)).

(** [re.sub(r, repl, s)] for a literal replacement.  [skip] counts the
    characters of the current match still to be dropped.  None of the
    patterns of the source can match the empty string. *)
Fixpoint sub_loop (r : t) (repl : str) (prev : option ascii) (s : str)
    (skip : nat) : str :=
  match skip with
  | S n =>
      match s with
      | [] => []
      | c :: s' => sub_loop r repl (Some c) s' n
      end
  | O =>
      match match_at r prev s with
      | Some (S n, _) =>
          repl ++ match s with
                  | [] => []
                  | c :: s' => sub_loop r repl (Some c) s' n
                  end
      | Some (O, _) =>
          repl ++ match s with
                  | [] => []
                  | c :: s' => c :: sub_loop r repl (Some c) s' 0
                  end
      | None =>
          match s with
          | [] => []
          | c :: s' => c :: sub_loop r repl (Some c) s' 0
          end
      end
  end.

Definition sub (r : t) (repl : str) (s : str) : str :=
  sub_loop r repl None s 0.

(** [pattern.finditer(s)]: for every match, left to right and without
    overlap, the matched text and the groups. *)
Fixpoint finditer_loop (r : t) (prev : option ascii) (s : str) (skip : nat)
  : list (str * caps) :=
  match skip with
  | S n =>
      match s with
      | [] => []
      | c :: s' => finditer_loop r (Some c) s' n
      end
  | O =>
      match match_at r prev s with
      | Some (S n, cs) =>
          (firstn (S n) s, cs)
          :: match s with
             | [] => []
             | c :: s' => finditer_loop r (Some c) s' n
             end
      | Some (O, cs) =>
          ([], cs)
          :: match s with
             | [] => []
             | c :: s' => finditer_loop r (Some c) s' 0
             end
      | None =>
          match s with
          | [] => []
          | c :: s' => finditer_loop r (Some c) s' 0
          end
      end
  end.

Definition finditer (r : t) (s : str) : list (str * caps) :=
  finditer_loop r None s 0.

(** [pattern.search(s)]: the first match. *)
Definition search (r : t) (s : str) : option (str * caps) :=
  hd_error (finditer r s).

(** [re.split(r, s)] for a pattern without groups. *)
Fixpoint split_loop (r : t) (cur : str) (prev : option ascii) (s : str)
    (skip : nat) : list str :=
  match skip with
  | S n =>
      match s with
      | [] => [rev cur]
      | c :: s' => split_loop r cur (Some c) s' n
      end
  | O =>
      match match_at r prev s with
      | Some (S n, _) =>
          rev cur :: match s with
                     | [] => [[]]
                     | c :: s' => split_loop r [] (Some c) s' n
                     end
      | _ =>
          match s with
          | [] => [rev cur]
          | c :: s' => split_loop r (c :: cur) (Some c) s' 0
          end
      end
  end.

Definition split (r : t) (s : str) : list str := split_loop r [] None s 0.

(** ** Pattern builders *)

Definition any_of (cs : str) (c : ascii) : bool :=
  existsb (ch_eqb c) cs.

(** [.] without DOTALL. *)
Definition dot (c : ascii) : bool := negb (N.eqb (code c) 10).

(** A literal character; with IGNORECASE, compared after lowering. *)
Definition lit1 (x : ascii) : t := Cls (ch_eqb x).
Definition lit1_i (x : ascii) : t :=
  Cls (fun c => ch_eqb (lower_ch c) (lower_ch x)).

Fixpoint lit (s : str) : t :=
  match s with
  | [] => Eps
  | [x] => lit1 x
  | x :: s' => Cat (lit1 x) (lit s')
  end.

Fixpoint lit_i (s : str) : t :=
  match s with
  | [] => Eps
  | [x] => lit1_i x
  | x :: s' => Cat (lit1_i x) (lit_i s')
  end.

(** A class under IGNORECASE: the character or its lower case is in it. *)
Definition cls_i (p : ascii -> bool) (c : ascii) : bool :=
  (p c || p (lower_ch c))%bool.

Fixpoint cat (rs : list t) : t :=
  match rs with
  | [] => Eps
  | [r] => r
  | r :: rs' => Cat r (cat rs')
  end.

Fixpoint alt (rs : list t) : t :=
  match rs with
  | [] => Eps
  | [r] => r
  | r :: rs' => Alt r (alt rs')
  end.

Definition opt (r : t) : t := Alt r Eps.
Definition star (p : ascii -> bool) : t := Rep 0 None true p.
Definition plus (p : ascii -> bool) : t := Rep 1 None true p.
Definition star_lazy (p : ascii -> bool) : t := Rep 0 None false p.
Definition rep (lo hi : nat) (p : ascii -> bool) : t :=
  Rep lo (Some hi) true p.

End Re.

Import Py.

(* ================================================================== *)
(** * TextNormalizer *)
(* ================================================================== *)

(** [limpiar_texto_fecha], step by step as in the source. *)

(** [\bl\b] *)
Definition RE_L_AISLADA : Re.t :=
  Re.cat [Re.WordB; Re.lit1 "l"; Re.WordB].

(** [(?<=\d)O(?=\d)] and [(?<=\d)o(?=\d)] *)
Definition RE_O_ENTRE_DIGITOS (o : ascii) : Re.t :=
  Re.cat [Re.Behind is_digit; Re.lit1 o; Re.Ahead is_digit].

(** [[\[\]\{\}\(\)]] *)
Definition RE_BRACKETS : Re.t := Re.Cls (Re.any_of (L1 "[]{}()")).

Definition limpiar_texto_fecha (texto : str) : str :=
  if negb (truthy texto) then []
  else
    let texto := replace_ch "|" "/" texto in
    let texto := Re.sub RE_L_AISLADA (L1 "1") texto in
    let texto := Re.sub (RE_O_ENTRE_DIGITOS "O") (L1 "0") texto in
    let texto := Re.sub (RE_O_ENTRE_DIGITOS "o") (L1 "0") texto in
    let texto := Re.sub RE_BRACKETS [] texto in
    texto.

(** [quitar_acentos] *)
Definition quitar_acentos (text : str) : str :=
  if negb (truthy text) then [] else map unaccent_ch text.

(** The patterns of [normalizar_texto], in the order of the source. *)

(** [\.pdf] with IGNORECASE *)
Definition RE_PDF : Re.t := Re.lit_i (L1 ".pdf").

(** [(?i)\b\d{1,2}\-mail\b.*] *)
Definition RE_MAIL : Re.t :=
  Re.cat [Re.WordB; Re.rep 1 2 is_digit; Re.lit_i (L1 "-mail"); Re.WordB;
          Re.star Re.dot].

(** [(?i)\s*[-\|–]\s*no\..*]; the en dash of the class is not a Latin-1
    character and no character of the model equals it. *)
Definition RE_NO : Re.t :=
  Re.cat [Re.star is_space; Re.Cls (Re.any_of (L1 "-|")); Re.star is_space;
          Re.lit_i (L1 "no."); Re.star Re.dot].

(** [(?i)\s*\bnis\b.*] *)
Definition RE_NIS : Re.t :=
  Re.cat [Re.star is_space; Re.WordB; Re.lit_i (L1 "nis"); Re.WordB;
          Re.star Re.dot].

(** [(?i)\s*\bradicad[oa]?\b.*] *)
Definition RE_RADICADO : Re.t :=
  Re.cat [Re.star is_space; Re.WordB; Re.lit_i (L1 "radicad");
          Re.rep 0 1 (Re.cls_i (Re.any_of (L1 "oa"))); Re.WordB;
          Re.star Re.dot].

(** [(?i)\b(anexos|respuestas|internas)\b.*] *)
Definition RE_ANEXOS : Re.t :=
  Re.cat [Re.WordB;
          Re.Grp 1 (Re.alt [Re.lit_i (L1 "anexos");
                            Re.lit_i (L1 "respuestas");
                            Re.lit_i (L1 "internas")]);
          Re.WordB; Re.star Re.dot].

(** [[\(\[\{].*?[\)\]\}]] *)
Definition RE_ENTRE_PARENTESIS : Re.t :=
  Re.cat [Re.Cls (Re.any_of (L1 "([{")); Re.star_lazy Re.dot;
          Re.Cls (Re.any_of (L1 ")]}"))].

(** [ticketid[_\-]?\d+] with IGNORECASE *)
Definition RE_TICKETID : Re.t :=
  Re.cat [Re.lit_i (L1 "ticketid"); Re.rep 0 1 (Re.any_of (L1 "_-"));
          Re.plus is_digit].

(** [\b\d{5,}\b] *)
Definition RE_NUM_LARGO : Re.t :=
  Re.cat [Re.WordB; Re.Rep 5 None true is_digit; Re.WordB].

(** [[_\-\.\,;:\/\\]+] *)
Definition RE_SEPARADORES : Re.t := Re.plus (Re.any_of (L1 "_-.,;:/\")).

(** [[^a-z0-9ñáéíóú\s]] *)
Definition letra_permitida (c : ascii) : bool :=
  (between 97 122 c || between 48 57 c || Re.any_of (L1 "ñáéíóú") c
   || is_space c)%bool.

Definition RE_NO_PERMITIDO : Re.t := Re.Cls (fun c => negb (letra_permitida c)).

(** [\s+] *)
Definition RE_ESPACIOS : Re.t := Re.plus is_space.

Definition normalizar_texto (s : str) : str :=
  if negb (truthy s) then []
  else
    let s := lower s in
    let s := Re.sub RE_PDF [] s in
    let s := Re.sub RE_MAIL [] s in
    let s := Re.sub RE_NO [] s in
    let s := Re.sub RE_NIS [] s in
    let s := Re.sub RE_RADICADO [] s in
    let s := Re.sub RE_ANEXOS [] s in
    let s := Re.sub RE_ENTRE_PARENTESIS (L1 " ") s in
    let s := Re.sub RE_TICKETID (L1 " ") s in
    let s := Re.sub RE_NUM_LARGO (L1 " ") s in
    let s := Re.sub RE_SEPARADORES (L1 " ") s in
    let s := Re.sub RE_NO_PERMITIDO (L1 " ") s in
    let s := quitar_acentos s in
    let s := strip (Re.sub RE_ESPACIOS (L1 " ") s) in
    s.

(** ** The tokens of a file name *)

Definition STOPWORDS : list str :=
  map L1 ["de"; "del"; "la"; "el"; "los"; "las"; "y"; "s"; "sa"; "sas";
          "s.a.s"; "sas."; "sa."; "empresa"; "empresa."]%string.

(** [tokens_utiles] *)
Definition tokens_utiles (s : str) : list str :=
  let s := normalizar_texto s in
  filter (fun t => (truthy t && negb (existsb (str_eqb t) STOPWORDS))%bool)
    (split_ws s).

(* ================================================================== *)
(** * BusinessCalendar *)
(* ================================================================== *)

(** ** [datetime.date] by ordinal (the arithmetic of CPython's datetime) *)

Definition MINORD : Z := 1.
Definition MAXORD : Z := 3652059.   (* date(9999, 12, 31).toordinal() *)

Definition is_leap (y : Z) : bool :=
  (Z.eqb (y mod 4) 0
   && (negb (Z.eqb (y mod 100) 0) || Z.eqb (y mod 400) 0))%bool.

Definition days_before_year (year : Z) : Z :=
  let y := year - 1 in
  y * 365 + y / 4 - y / 100 + y / 400.

Definition DAYS_IN_MONTH : list Z :=
  [31; 28; 31; 30; 31; 30; 31; 31; 30; 31; 30; 31].

Definition DAYS_BEFORE_MONTH : list Z :=
  [0; 31; 59; 90; 120; 151; 181; 212; 243; 273; 304; 334].

Definition days_in_month (year month : Z) : Z :=
  if (Z.eqb month 2 && is_leap year)%bool then 29
  else nth (Z.to_nat (month - 1)) DAYS_IN_MONTH 0.

Definition days_before_month (year month : Z) : Z :=
  nth (Z.to_nat (month - 1)) DAYS_BEFORE_MONTH 0
  + (if (Z.ltb 2 month && is_leap year)%bool then 1 else 0).

Definition ymd2ord (year month day : Z) : Z :=
  days_before_year year + days_before_month year month + day.

Definition DI400Y : Z := 146097.
Definition DI100Y : Z := 36524.
Definition DI4Y : Z := 1461.

(** [_ord2ymd]: the (year, month, day) of an ordinal. *)
Definition ord2ymd (n : Z) : Z * Z * Z :=
  let n := n - 1 in
  let n400 := n / DI400Y in
  let n := n mod DI400Y in
  let year := n400 * 400 + 1 in
  let n100 := n / DI100Y in
  let n := n mod DI100Y in
  let n4 := n / DI4Y in
  let n := n mod DI4Y in
  let n1 := n / 365 in
  let n := n mod 365 in
  let year := year + n100 * 100 + n4 * 4 + n1 in
  if (Z.eqb n1 4 || Z.eqb n100 4)%bool then (year - 1, 12, 31)
  else
    let leapyear :=
      (Z.eqb n1 3 && (negb (Z.eqb n4 24) || Z.eqb n100 3))%bool in
    let month := Z.shiftr (n + 50) 5 in
    let preceding :=
      nth (Z.to_nat (month - 1)) DAYS_BEFORE_MONTH 0
      + (if (Z.ltb 2 month && leapyear)%bool then 1 else 0) in
    if Z.ltb n preceding
    then
      let month := month - 1 in
      let preceding :=
        preceding
        - (nth (Z.to_nat (month - 1)) DAYS_IN_MONTH 0
           + (if (Z.eqb month 2 && leapyear)%bool then 1 else 0)) in
      (year, month, n - preceding + 1)
    else (year, month, n - preceding + 1).

(** [date(year, month, day)]; [None] is the ValueError of an impossible
    date. *)
Definition mk_date (year month day : Z) : option Z :=
  if ((1 <=? year) && (year <=? 9999) && (1 <=? month) && (month <=? 12)
      && (1 <=? day) && (day <=? days_in_month year month))%bool
  then Some (ymd2ord year month day) else None.

(** [d + timedelta(days=k)]; [None] is the OverflowError. *)
Definition add_days (d k : Z) : option Z :=
  if ((MINORD <=? d + k) && (d + k <=? MAXORD))%bool
  then Some (d + k) else None.

(** [date.weekday()]: Monday is 0. *)
Definition weekday (d : Z) : Z := (d + 6) mod 7.

Definition digit (n : Z) : ascii := chr (Z.to_N (48 + n mod 10)).

(** [date.strftime("%Y-%m-%d")], the year zero-padded to four digits. *)
Definition strftime_Ymd (d : Z) : str :=
  let '(y, m, dd) := ord2ymd d in
  [digit (y / 1000); digit (y / 100); digit (y / 10); digit y; "-"%char;
   digit (m / 10); digit m; "-"%char; digit (dd / 10); digit dd].

(** A [datetime.datetime]: its date and the microseconds since midnight. *)
Record datetime : Type := mk_datetime { dt_date : Z; dt_time : Z }.

(** [datetime.combine(d, datetime.min.time())] *)
Definition combine_min (d : Z) : datetime := mk_datetime d 0.

(** [dt + timedelta(days=k)] *)
Definition dt_add_days (dt : datetime) (k : Z) : option datetime :=
  match add_days (dt_date dt) k with
  | Some d => Some (mk_datetime d (dt_time dt))
  | None => None
  end.

(** ** Outcomes of calls that may raise *)

Inductive exn : Type := OverflowError | ValueError | TypeError.

Inductive outcome (A : Type) : Type :=
| Done (a : A)
| Raise (e : exn)
| Timeout.           (* the fuel of the model ran out; see below *)

Arguments Done {A} a.
Arguments Raise {A} e.
Arguments Timeout {A}.

(** ** The calendar of the source *)

Definition COLOMBIA_FESTIVOS : list str :=
  map L1 ["2025-01-01"; "2025-05-01"; "2025-07-20"; "2025-08-07";
          "2025-12-08"; "2025-12-25"]%string.

Definition es_dia_habil (fecha : Z) : bool :=
  if 5 <=? weekday fecha then false
  else negb (existsb (str_eqb (strftime_Ymd fecha)) COLOMBIA_FESTIVOS).

(** The [while] loop of [fecha_limite_habiles]; one unit of fuel per
    iteration. *)
Fixpoint fecha_limite_loop (fuel : nat) (fecha : datetime)
    (contador dias_habiles : Z) : outcome datetime :=
  if contador <? dias_habiles then
    match fuel with
    | O => Timeout
    | S fuel' =>
        match dt_add_days fecha 1 with
        | None => Raise OverflowError
        | Some fecha' =>
            if es_dia_habil (dt_date fecha')
            then fecha_limite_loop fuel' fecha' (contador + 1) dias_habiles
            else fecha_limite_loop fuel' fecha' contador dias_habiles
        end
    end
  else Done fecha.

(** [fecha_limite_habiles].  Four iterations per requested business day are
    always enough ([fecha_limite_habiles_total] below), so [Timeout] is
    never returned. *)
Definition fecha_limite_habiles (fecha_expedicion : datetime)
    (dias_habiles : Z) : outcome datetime :=
  fecha_limite_loop (Z.to_nat (4 * dias_habiles)) fecha_expedicion 0
    dias_habiles.

(** The days [a+1, ..., a+k]. *)
Fixpoint dias_siguientes (a : Z) (k : nat) : list Z :=
  match k with
  | O => []
  | S k' => (a + 1) :: dias_siguientes (a + 1) k'
  end.

(** Number of business days strictly after [a] up to and including [b]. *)
Definition habiles_entre (a b : Z) : Z :=
  Z.of_nat (List.length (filter es_dia_habil
                           (dias_siguientes a (Z.to_nat (b - a))))).

(* ================================================================== *)
(** * DateExtractor *)
(* ================================================================== *)

(** [[/\-\.\s\\]] *)
Definition sep_fecha (c : ascii) : bool :=
  (Re.any_of (L1 "/-.\") c || is_space c)%bool.

(** [RE_DATE_NUMERIC]:
    [\b(\d{1,2})[/\-\.\s\\]+(\d{1,2})[/\-\.\s\\]+(\d{2,4})\b]
    [|\b(\d{2,4})[/\-\.\s\\]+(\d{1,2})[/\-\.\s\\]+(\d{1,2})\b] *)
Definition RE_DATE_NUMERIC : Re.t :=
  Re.Alt
    (Re.cat [Re.WordB; Re.Grp 1 (Re.rep 1 2 is_digit); Re.plus sep_fecha;
             Re.Grp 2 (Re.rep 1 2 is_digit); Re.plus sep_fecha;
             Re.Grp 3 (Re.rep 2 4 is_digit); Re.WordB])
    (Re.cat [Re.WordB; Re.Grp 4 (Re.rep 2 4 is_digit); Re.plus sep_fecha;
             Re.Grp 5 (Re.rep 1 2 is_digit); Re.plus sep_fecha;
             Re.Grp 6 (Re.rep 1 2 is_digit); Re.WordB]).

(** [[A-Za-zÁÉÍÓÚáéíóúñÑ]] *)
Definition letra_mes (c : ascii) : bool :=
  (between 65 90 c || between 97 122 c
   || Re.any_of (L1 "ÁÉÍÓÚáéíóúñÑ") c)%bool.

(** [(?:de\s+)?] and [(?:de\s+|del?\s+)?] under IGNORECASE *)
Definition RE_DE : Re.t :=
  Re.opt (Re.cat [Re.lit_i (L1 "de"); Re.plus is_space]).

Definition RE_DE_DEL : Re.t :=
  Re.opt (Re.Alt
            (Re.cat [Re.lit_i (L1 "de"); Re.plus is_space])
            (Re.cat [Re.lit_i (L1 "de"); Re.rep 0 1 (Re.cls_i (ch_eqb "l"));
                     Re.plus is_space])).

(** [RE_DATE_TEXTO]:
    [\b(\d{1,2})\s*(?:de\s+)?([A-Za-zÁÉÍÓÚáéíóúñÑ]+)\s*(?:de\s+|del?\s+)?(\d{2,4})\b]
    with IGNORECASE *)
Definition RE_DATE_TEXTO : Re.t :=
  Re.cat [Re.WordB; Re.Grp 1 (Re.rep 1 2 is_digit); Re.star is_space; RE_DE;
          Re.Grp 2 (Re.plus (Re.cls_i letra_mes)); Re.star is_space;
          RE_DE_DEL; Re.Grp 3 (Re.rep 2 4 is_digit); Re.WordB].

(** [RE_DATE_BANCARIA_CONTEXTO], with IGNORECASE:
    [(?:fecha|expedici[oó]n|expide|emitid[ao]|generad[ao]|cread[ao]|realizad[ao]|elabor[aó]|elaboraci[oó]n)]
    [[\s\:\-\.\,]*]
    [(\d{1,2}[/\-\.\s\\]+\d{1,2}[/\-\.\s\\]+\d{2,4}|\d{1,2}\s+(?:de\s+)?[A-Za-zÁÉÍÓÚáéíóúñÑ]+\s+(?:de\s+|del?\s+)?\d{2,4})] *)
Definition RE_DATE_BANCARIA_CONTEXTO : Re.t :=
  let una (s : str) := Re.Cls (Re.cls_i (Re.any_of s)) in
  Re.cat
    [Re.alt
       [Re.lit_i (L1 "fecha");
        Re.cat [Re.lit_i (L1 "expedici"); una (L1 "oó"); Re.lit_i (L1 "n")];
        Re.lit_i (L1 "expide");
        Re.cat [Re.lit_i (L1 "emitid"); una (L1 "ao")];
        Re.cat [Re.lit_i (L1 "generad"); una (L1 "ao")];
        Re.cat [Re.lit_i (L1 "cread"); una (L1 "ao")];
        Re.cat [Re.lit_i (L1 "realizad"); una (L1 "ao")];
        Re.cat [Re.lit_i (L1 "elabor"); una (L1 "aó")];
        Re.cat [Re.lit_i (L1 "elaboraci"); una (L1 "oó"); Re.lit_i (L1 "n")]];
     Re.star (fun c => (is_space c || Re.any_of (L1 ":-.,") c)%bool);
     Re.Grp 1
       (Re.Alt
          (Re.cat [Re.rep 1 2 is_digit; Re.plus sep_fecha;
                   Re.rep 1 2 is_digit; Re.plus sep_fecha;
                   Re.rep 2 4 is_digit])
          (Re.cat [Re.rep 1 2 is_digit; Re.plus is_space; RE_DE;
                   Re.plus (Re.cls_i letra_mes); Re.plus is_space;
                   RE_DE_DEL; Re.rep 2 4 is_digit]))].

(** [\b\d{1,2}[/\-\.]\d{1,2}[/\-\.]\d{2,4}\b] of the last strategy *)
Definition RE_PALABRA_FECHA : Re.t :=
  let s := Re.Cls (Re.any_of (L1 "/-.")) in
  Re.cat [Re.WordB; Re.rep 1 2 is_digit; s; Re.rep 1 2 is_digit; s;
          Re.rep 2 4 is_digit; Re.WordB].

(** [[/\-\.\s\\]+] of [re.split] *)
Definition RE_SEP_FECHA : Re.t := Re.plus sep_fecha.

Definition MESES_ESPANOL : list (str * Z) :=
  map (fun kv : string * Z => (L1 (fst kv), snd kv))
    [("enero", 1); ("ene", 1); ("ener", 1);
     ("febrero", 2); ("feb", 2); ("febr", 2);
     ("marzo", 3); ("mar", 3); ("mzo", 3);
     ("abril", 4); ("abr", 4); ("abrl", 4);
     ("mayo", 5); ("may", 5);
     ("junio", 6); ("jun", 6);
     ("julio", 7); ("jul", 7);
     ("agosto", 8); ("ago", 8); ("agos", 8); ("agto", 8);
     ("septiembre", 9); ("sep", 9); ("sept", 9); ("setiembre", 9);
     ("set", 9);
     ("octubre", 10); ("oct", 10);
     ("noviembre", 11); ("nov", 11);
     ("diciembre", 12); ("dic", 12); ("dbre", 12)]%string.

(** The month search shared by the named-month strategies: the first key
    with [mes_nombre.startswith(key[:3]) or key.startswith(mes_nombre[:3])]. *)
Fixpoint buscar_mes (tabla : list (str * Z)) (mes_nombre : str) : option Z :=
  match tabla with
  | [] => None
  | (key, value) :: tabla' =>
      if (startswith mes_nombre (firstn 3 key)
          || startswith key (firstn 3 mes_nombre))%bool
      then Some value else buscar_mes tabla' mes_nombre
  end.

(** [if año < 100: año += 2000 if año < 50 else 1900] *)
Definition ajustar_anio (a : Z) : Z :=
  if a <? 100 then a + (if a <? 50 then 2000 else 1900) else a.

Definition year_of (d : Z) : Z := fst (fst (ord2ymd d)).

(** [int(s)]; the texts that reach it here are runs of digits or contain a
    letter, for which [int] raises ValueError ([None]). *)
Definition int_opt (s : str) : option Z :=
  if (truthy s && forallb is_digit s)%bool
  then Some (int_of_digits s) else None.

(** The body of the [try] of the named-month strategy for one match. *)
Definition fecha_de_texto (cs : Re.caps) : list Z :=
  match Re.group 1 cs, Re.group 2 cs, Re.group 3 cs with
  | Some g1, Some g2, Some g3 =>
      let dia := int_of_digits g1 in
      let mes_nombre := strip (lower g2) in
      let anio := ajustar_anio (int_of_digits g3) in
      match buscar_mes MESES_ESPANOL mes_nombre with
      | Some mes =>
          if ((1 <=? dia) && (dia <=? 31) && (1900 <=? anio)
              && (anio <=? 2100))%bool
          then match mk_date anio mes dia with
               | Some f => [f]
               | None => []          (* ValueError: continue *)
               end
          else []
      | None => []
      end
  | _, _, _ => []
  end.

(** The body of the [try] of the numeric strategy; [None] is the
    ValueError of [datetime(...)], which makes the loop [continue]. *)
Definition intentar_numerica (g1 g2 g3 : str) : option (list Z) :=
  let num1 := int_of_digits g1 in
  let num2 := int_of_digits g2 in
  let num3 := ajustar_anio (int_of_digits g3) in
  if ((1 <=? num1) && (num1 <=? 31) && (1 <=? num2) && (num2 <=? 12)
      && (1900 <=? num3) && (num3 <=? 2100))%bool
  then option_map (fun f => [f]) (mk_date num3 num2 num1)
  else if ((1900 <=? num1) && (num1 <=? 2100) && (1 <=? num2)
           && (num2 <=? 12) && (1 <=? num3) && (num3 <=? 31))%bool
  then option_map (fun f => [f]) (mk_date num1 num2 num3)
  else Some [].

(** [for i in range(1, 7, 3)] over the groups of one match. *)
Fixpoint fecha_numerica (cs : Re.caps) (indices : list nat) : list Z :=
  match indices with
  | [] => []
  | i :: indices' =>
      match Re.group i cs, Re.group (i + 1) cs, Re.group (i + 2) cs with
      | Some g1, Some g2, Some g3 =>
          if (truthy g1 && truthy g2 && truthy g3)%bool
          then match intentar_numerica g1 g2 g3 with
               | Some fs => fs                          (* break *)
               | None => fecha_numerica cs indices'     (* continue *)
               end
          else fecha_numerica cs indices'
      | _, _, _ => fecha_numerica cs indices'
      end
  end.

(** The pure numeric pass (ESTRATEGIA 3) on the cleaned text. *)
Definition estrategia_numerica (texto_limpio : str) : list Z :=
  flat_map (fun m => fecha_numerica (snd m) [1%nat; 4%nat])
    (Re.finditer RE_DATE_NUMERIC texto_limpio).

(** The named-month pass (ESTRATEGIA 2). *)
Definition estrategia_texto (texto_limpio : str) : list Z :=
  flat_map (fun m => fecha_de_texto (snd m))
    (Re.finditer RE_DATE_TEXTO texto_limpio).

(** [sorted(list(set(xs)))] *)
Fixpoint insertar (x : Z) (l : list Z) : list Z :=
  match l with
  | [] => [x]
  | y :: l' =>
      if x <? y then x :: l
      else if x =? y then l
      else y :: insertar x l'
  end.

Definition sorted_set (xs : list Z) : list Z :=
  fold_right insertar [] xs.

(** [max(xs)] of a non-empty list: the first of the greatest elements. *)
Fixpoint py_max (x : Z) (xs : list Z) : Z :=
  match xs with
  | [] => x
  | y :: xs' => py_max (if x <? y then y else x) xs'
  end.

Section Extraccion.

(** [dateutil.parser.parse(s, dayfirst=True)], an external library: [None]
    when it raises. *)
Variable parse_date : str -> option datetime.

(** [datetime.now().date()], the reading of the system clock.  The bounds
    [hoy - timedelta(days=365*5)] and [hoy + timedelta(days=365)] are
    compared by ordinal; they are dates for every clock reading from
    0006-01-01 to 9998-12-31. *)
Variable hoy : Z.

(** The first attempt of [parsear_fecha_flexible] and the last strategy. *)
Definition fecha_dateutil (s : str) : option Z :=
  match parse_date s with
  | Some dt =>
      let fecha := dt_date dt in
      if ((1900 <=? year_of fecha) && (year_of fecha <=? 2100))%bool
      then Some fecha else None
  | None => None
  end.

(** The second attempt: [re.split] into day, month, year. *)
Definition fecha_partes (fecha_texto : str) : option Z :=
  match Re.split RE_SEP_FECHA fecha_texto with
  | [p1; p2; p3] =>
      match int_opt p1, int_opt p2, int_opt p3 with
      | Some dia, Some mes, Some a =>
          let anio := ajustar_anio a in
          if ((1 <=? dia) && (dia <=? 31) && (1 <=? mes) && (mes <=? 12)
              && (1900 <=? anio) && (anio <=? 2100))%bool
          then mk_date anio mes dia else None
      | _, _, _ => None
      end
  | _ => None
  end.

(** The third attempt: the named month, without a check of the year. *)
Definition fecha_mes_nombre (fecha_texto : str) : option Z :=
  match Re.search RE_DATE_TEXTO fecha_texto with
  | Some (_, cs) =>
      match Re.group 1 cs, Re.group 2 cs, Re.group 3 cs with
      | Some g1, Some g2, Some g3 =>
          let dia := int_of_digits g1 in
          let mes_nombre := strip (lower g2) in
          let anio := ajustar_anio (int_of_digits g3) in
          match buscar_mes MESES_ESPANOL mes_nombre with
          | Some mes => mk_date anio mes dia
          | None => None
          end
      | _, _, _ => None
      end
  | None => None
  end.

Definition parsear_fecha_flexible (fecha_texto : str) : option Z :=
  if negb (truthy fecha_texto) then None
  else
    let fecha_texto := limpiar_texto_fecha (strip fecha_texto) in
    match fecha_dateutil fecha_texto with
    | Some f => Some f
    | None =>
        match fecha_partes fecha_texto with
        | Some f => Some f
        | None => fecha_mes_nombre fecha_texto
        end
    end.

Definition opt_list {A : Type} (o : option A) : list A :=
  match o with Some a => [a] | None => [] end.

(** The four strategies, in the order in which they append. *)
Definition fechas_encontradas (texto : str) (contexto_bancario : bool)
  : list Z :=
  let texto_limpio := limpiar_texto_fecha texto in
  (if contexto_bancario
   then flat_map
          (fun m => match Re.group 1 (snd m) with
                    | Some g => opt_list (parsear_fecha_flexible g)
                    | None => []
                    end)
          (Re.finditer RE_DATE_BANCARIA_CONTEXTO texto_limpio)
   else [])
  ++ estrategia_texto texto_limpio
  ++ estrategia_numerica texto_limpio
  ++ flat_map (fun m => opt_list (fecha_dateutil (fst m)))
       (Re.finditer RE_PALABRA_FECHA texto_limpio).

Definition extraer_todas_fechas_texto (texto : str)
    (contexto_bancario : bool) : list Z :=
  sorted_set (fechas_encontradas texto contexto_bancario).

(** The selection of [extraer_fecha_mejorada] on the sorted candidates. *)
Definition en_ventana (f : Z) : bool :=
  ((hoy - 365 * 5 <=? f) && (f <=? hoy + 365))%bool.

Definition seleccionar_fecha (fechas : list Z) : option Z :=
  match fechas with
  | [] => None
  | [f] => Some f
  | f :: _ =>
      let fechas_validas := filter en_ventana fechas in
      match fechas_validas with
      | [] => Some (py_max f (tl fechas))
      | g :: resto => Some (py_max g resto)
      end
  end.

Definition extraer_fecha_mejorada (texto : str) (contexto_bancario : bool)
  : option Z :=
  seleccionar_fecha (extraer_todas_fechas_texto texto contexto_bancario).

End Extraccion.

(* ================================================================== *)
(** * DocumentClassifier *)
(* ================================================================== *)

Definition DOC_KEYWORDS : list (str * list str) :=
  map (fun kv : string * list string => (L1 (fst kv), map L1 (snd kv)))
    [("carta",
      ["solicitud"; "carta"; "solicita devolución";
       "motivo de la solicitud"; "carta de solicitud"; "carta de peticion";
       "representante legal"; "atentamente"; "cordiales saludos";
       "respetados señores"]);
     ("rut",
      ["rut"; "registro único tributario"; "registro unico tributario";
       "numero de identificacion tributaria";
       "número de identificación tributaria"]);
     ("camara_comercio",
      ["cámara de comercio"; "camara de comercio";
       "certificado de existencia";
       "certificado de existencia y representacion";
       "certificado de representacion legal"; "matricula mercantil"]);
     ("cert_bancaria",
      ["certificación bancaria"; "certificacion bancaria";
       "certificado bancario"; "certificación de cuenta";
       "certificacion de cuenta"; "saldo bancario"; "certificado de saldo";
       "entidad financiera"; "numero de cuenta"; "cuenta corriente";
       "cuenta de ahorros"; "banco"; "bancaria"; "bancario"]);
     ("recibo_pago",
      ["recibo"; "recibos de pago"; "planilla"; "comprobante de pago";
       "comprobante de transaccion"; "voucher de pago"; "pago de planilla";
       "transaccion financiera"; "numero de recibo"]);
     ("resolucion",
      ["resolución"; "resolucion"; "revocó"; "revoco"; "revocado";
       "multado"; "resolucion administrativa"; "acto administrativo";
       "ejecutoriada"]);
     ("tarjeta_profesional",
      ["tarjeta profesional"; "tarjeta prof"; "tarjeta del contador";
       "tarjeta del revisor fiscal"; "matricula profesional"]);
     ("acta_consorcial",
      ["acta consorcial"; "consorcio"; "unión temporal"; "union temporal";
       "acta de consorcio"; "contrato de union temporal"; "joint venture"]);
     ("contrato",
      ["contrato"; "salario integral"; "contrato firmado";
       "contrato de trabajo"; "contrato laboral";
       "clausulas contractuales"])]%string.

(** [.replace('á','a').replace('é','e').replace('í','i').replace('ó','o').replace('ú','u')] *)
Definition sin_tildes (s : str) : str :=
  replace_ch (chr 250) "u"
    (replace_ch (chr 243) "o"
       (replace_ch (chr 237) "i"
          (replace_ch (chr 233) "e" (replace_ch (chr 225) "a" s)))).

(** [[^\w\s]] *)
Definition RE_PUNTUACION : Re.t :=
  Re.Cls (fun c => negb (is_word c || is_space c)).

(** The normalised text of filename and OCR text together. *)
Definition texto_completo_de (nombre_archivo texto_ocr : str) : str :=
  let t := lower (nombre_archivo ++ L1 " " ++ texto_ocr) in
  let t := sin_tildes t in
  let t := Re.sub RE_PUNTUACION (L1 " ") t in
  strip (Re.sub RE_ESPACIOS (L1 " ") t).

(** One turn of the [for keyword in keywords] loop on the running score. *)
Definition paso_keyword (nombre_archivo texto_completo : str) (score : Z)
    (keyword : str) : Z :=
  let keyword_normalized := sin_tildes (lower keyword) in
  let score :=
    if contains (lower nombre_archivo) keyword_normalized
    then score + 3 else score in
  let score :=
    if contains texto_completo keyword_normalized
    then score + 1 else score in
  let palabras_keyword := split_ws keyword_normalized in
  if (1 <? List.length palabras_keyword)%nat
  then
    if forallb (contains texto_completo) palabras_keyword
    then score + 2 else score
  else score.

Definition score_tipo (nombre_archivo texto_completo : str)
    (keywords : list str) : Z :=
  fold_left (paso_keyword nombre_archivo texto_completo) keywords 0.

(** The [scores] dict, in insertion order. *)
Definition scores_de (tabla : list (str * list str))
    (nombre_archivo texto_ocr : str) : list (str * Z) :=
  let texto_completo := texto_completo_de nombre_archivo texto_ocr in
  map (fun kv => (fst kv, score_tipo nombre_archivo texto_completo (snd kv)))
    tabla.

(** [max(scores, key=scores.get)]: the first key whose value is greatest. *)
Fixpoint max_key (best : str * Z) (rest : list (str * Z)) : str :=
  match rest with
  | [] => fst best
  | kv :: rest' =>
      max_key (if snd best <? snd kv then kv else best) rest'
  end.

Definition clasificar_con (tabla : list (str * list str))
    (nombre_archivo texto_ocr : str) : str :=
  let scores := scores_de tabla nombre_archivo texto_ocr in
  match scores with
  | [] => L1 "otro"
  | kv :: rest =>
      if py_max (snd kv) (map snd rest) =? 0 then L1 "otro"
      else max_key kv rest
  end.

Definition clasificar_documento_robusto (nombre_archivo texto_ocr : str)
  : str :=
  clasificar_con DOC_KEYWORDS nombre_archivo texto_ocr.

Definition clasificar_pagina (nombre_archivo texto : str) : str :=
  clasificar_documento_robusto nombre_archivo texto.

(** [clasificar_texto_keywords]: no filename. *)
Definition clasificar_texto_keywords (texto : str) : str :=
  clasificar_documento_robusto [] texto.

(* ================================================================== *)
(** * Checklist catalogs *)
(* ================================================================== *)

Record item : Type := Build_item {
  item_id : str;
  titulo : str;
  keywords : list str;
  requerido : bool;
  vigencia_dias : option Z
}.

Definition mk_item (id tit : string) (kws : list string) (req : bool)
    (vig : option Z) : item :=
  Build_item (L1 id) (L1 tit) (map L1 kws) req vig.

Definition CHECKLIST_MISIONAL : list item :=
  [mk_item "carta_representante"
      "Carta firmada por el Representate Legal o quien haga sus veces, indicando de forma clara el motivo de la solicitud, relacionando el numero de planillas o tickets, período o fecha de pago, valor pagado y valor a devolver. En casos de apoderados se debe anexar poder debidamente autenticado ante notaría."
      ["carta"; "solicitud"; "motivo de la solicitud"; "planilla"; "ticket"; "valor a devolver"; "apoderado"; "poder autenticado"]%string
      true (None);
   mk_item "rut"
      "Copia de Rut vigente."
      ["rut"; "registro único tributario"; "registro unico tributario"; "copia rut"]%string
      true (None);
   mk_item "camara_comercio"
      "Certificado de Existencia y Representación Legal expedido por la Cámara de Comercio no mayor a 90 días hábiles. Para otro tipo de empleadores no obligados a registrarse en Cámara de Comercio, documento idóneo que acredite la existencia y representación legal."
      ["cámara de comercio"; "camara de comercio"; "certificado de existencia"; "certificado de existencia y representación"; "certificado existencia representacion"]%string
      true (Some 90);
   mk_item "cedula_persona_natural"
      "Para empleadores personas naturales copia de la Cédula de Ciudadanía."
      ["cédula"; "cedula"; "cédula de ciudadanía"; "cedula de ciudadania"; "cc"]%string
      false (None);
   mk_item "acta_consorcial"
      "Para Consorcios y Uniones Temporales se deberá anexar copia del Acta Consorcial firmada por las partes, copia del Rut vigente y copia del Certificado de existencia y Representación Legal de cada uno de los Consorciados o Asociados para personas jurídicas y para personas naturales copia de la cédula de ciudadanía."
      ["acta consorcial"; "consorcio"; "unión temporal"; "union temporal"; "acta consorcio"; "acta consorcial firmada"]%string
      false (None);
   mk_item "cert_bancaria"
      "Certificación Bancaria no mayor a 30 días hábiles de expedición a nombre del peticionario."
      ["certificación bancaria"; "certificacion bancaria"; "certificado bancario"; "certificacion bancaria 30 dias"]%string
      true (Some 30);
   mk_item "cert_contador"
      "Certificación firmada por el Contador o Revisor Fiscal avalando el motivo de la devolución."
      ["certificación firmada"; "certificacion firmada"; "contador"; "revisor fiscal"; "certificacion contador"]%string
      true (None);
   mk_item "tarjeta_profesional"
      "Copia de la tarjeta profesional del Contador o Revisor Fiscal que firma la certificación."
      ["tarjeta profesional"; "tarjeta prof"; "tarjeta profesional contador"; "tarjeta profesional revisor"]%string
      true (None);
   mk_item "contrato_salario_integral"
      "Para devoluciones por error en IBC por Salario Integral anexar copia de contrato firmado por las partes."
      ["contrato"; "salario integral"; "contrato firmado"; "error en IBC"]%string
      false (None);
   mk_item "recibo_pago_fic"
      "Recibo de pagos de FIC o Monetización para Contrato de Aprendizaje."
      ["recibo"; "fic"; "monetizacion"; "recibo de pagos"; "recibo fic"]%string
      false (None);
   mk_item "resoluciones_multas"
      "Copias de las Resoluciones con la cual multaron y revocaron el pago de la Multa debidamente ejecutoriadas a 31 de diciembre de 2019."
      ["resolución"; "resolucion"; "multado"; "revocó"; "revoco"; "revocaron"; "resoluciones multa"; "ejecutoriada"]%string
      false (None)
].

Definition CHECKLIST_NO_MISIONAL : list item :=
  [mk_item "carta_peticionario"
      "Carta de solicitud firmada por el peticionario. En el caso de personas jurídicas deberá ser firmada por el representante legal."
      ["carta"; "solicitud"; "carta de solicitud"; "firmada por el peticionario"; "representante legal"]%string
      true (None);
   mk_item "cedula_persona_natural_nm"
      "Para personas naturales copia de la cédula de ciudadanía del peticionario."
      ["cédula"; "cedula"; "cedula de ciudadania"; "cédula de ciudadanía"; "cc"]%string
      true (None);
   mk_item "camara_comercio_nm"
      "Para personas jurídicas, Certificado de Existencia y Representación Legal expedido por la Cámara de Comercio no mayor a 90 días hábiles. Para otro tipo de empleadores no obligados a registrarse en Cámara de Comercio, documento idóneo que acredite la existencia y representación legal."
      ["cámara de comercio"; "camara de comercio"; "certificado de existencia"; "certificado existencia representacion"]%string
      true (Some 90);
   mk_item "rut_nm"
      "Para personas jurídicas, copia de Rut vigente."
      ["rut"; "copia rut"; "registro único tributario"]%string
      true (None);
   mk_item "cert_bancaria_nm"
      "Certificación Bancaria no mayor a 30 días hábiles de expedición a nombre del peticionario."
      ["certificación bancaria"; "certificacion bancaria"; "certificado bancario"]%string
      true (Some 30);
   mk_item "recibos_pago_nm"
      "Copia del recibo o recibos de pago legibles."
      ["recibo"; "recibos de pago"; "planilla"; "comprobante"]%string
      true (None);
   mk_item "acta_terminacion_convenio"
      "Acta de terminación de liquidación del convenio."
      ["acta de terminación"; "acta terminacion"; "liquidación del convenio"; "liquidacion convenio"; "terminacion convenio"]%string
      false (None);
   mk_item "factura_produccion_nm"
      "Copia de la Factura Electrónica de venta generada por el SENA."
      ["factura"; "factura electrónica"; "factura electronica"; "factura sena"; "factura electrónica venta"]%string
      false (None);
   mk_item "cert_autorizacion_coordinador_nm"
      "Certificación de autorización de devolución del cupón de pago firmada por el Coordinador del Grupo de Recaudo y Cartera."
      ["autorización de devolución"; "autorizacion de devolucion"; "coordinador del grupo de recaudo"; "coordinador"; "certificación de autorización"]%string
      false (None)
].

(** [CHECKLIST["misional"] if tipo_devolucion == "misional" else CHECKLIST["no_misional"]] *)
Definition checklist_de (tipo_devolucion : str) : list item :=
  if str_eqb tipo_devolucion (L1 "misional")
  then CHECKLIST_MISIONAL else CHECKLIST_NO_MISIONAL.

(* ================================================================== *)
(** * FilenameInferencer *)
(* ================================================================== *)

(** [list(dict.fromkeys(xs))]: first occurrences, in order. *)
Fixpoint dedup_aux (seen : list str) (xs : list str) : list str :=
  match xs with
  | [] => []
  | x :: xs' =>
      if existsb (str_eqb x) seen then dedup_aux seen xs'
      else x :: dedup_aux (x :: seen) xs'
  end.

Definition dedup (xs : list str) : list str := dedup_aux [] xs.

(** [sorted(xs, key=...)], stable, for a strict order [lt] on the keys. *)
Fixpoint insert_sorted {A : Type} (lt : A -> A -> bool) (x : A)
    (l : list A) : list A :=
  match l with
  | [] => [x]
  | y :: l' => if lt y x then y :: insert_sorted lt x l' else x :: l
  end.

Definition sorted_by {A : Type} (lt : A -> A -> bool) (xs : list A)
  : list A :=
  fold_right (insert_sorted lt) [] xs.

(** [a < b] on str: lexicographic by code point. *)
Fixpoint str_ltb (a b : str) : bool :=
  match a, b with
  | _, [] => false
  | [], _ :: _ => true
  | x :: a', y :: b' =>
      if N.ltb (code x) (code y) then true
      else if N.ltb (code y) (code x) then false
      else str_ltb a' b'
  end.

Definition todo_markers : list str :=
  map L1 ["todo"; "completo"; "completa"; "documentos"; "documento";
          "anexo"; "anexos"; "adjuntos"; "adjunto"; "todos"]%string.

(** The phrases tested for one item: normalised title and keywords, the
    empty ones left out, without duplicates, longest first. *)
Definition frases_de (it : item) : list str :=
  let frases :=
    filter truthy
      (normalizar_texto (titulo it) :: map normalizar_texto (keywords it)) in
  sorted_by (fun a b => (List.length b <? List.length a)%nat)
    (dedup frases).

Definition item_detectado (nm : str) (it : item) : bool :=
  existsb (fun frase => (truthy frase && contains nm frase)%bool)
    (frases_de it).

Definition inferir_items_desde_nombre (nombre_archivo tipo_devolucion : str)
  : list str :=
  if negb (truthy nombre_archivo) then []
  else
    let nm := normalizar_texto nombre_archivo in
    if negb (truthy nm) then []
    else if existsb (contains nm) todo_markers then []
    else
      let checklist_items := checklist_de tipo_devolucion in
      let detected :=
        map item_id (filter (item_detectado nm) checklist_items) in
      match detected with
      | [] => []
      | _ => sorted_by str_ltb (dedup detected)
      end.

(* ================================================================== *)
(** * PageAggregator *)
(* ================================================================== *)

(** OCR confidences are Python floats: IEEE 754 binary64. *)
Definition float := PrimFloat.float.

(** A page, as built by [extraer_info_por_pagina]; [None] is a missing or
    [None] entry of the dict. *)
Record pagina_info : Type := Build_pagina {
  p_archivo : str;
  p_ruta_archivo : str;
  p_pagina : Z;
  p_texto : option str;
  p_ocr_conf : option float;
  p_tipo_detectado : option str;
  p_nit_o_cedula : option str;
  p_fecha_documento : option str;
  p_firma_manuscrita : bool
}.

(** A logical document, as emitted by [agrupar_paginas_en_documentos]. *)
Record documento : Type := Build_documento {
  archivo : str;
  ruta_archivo : str;
  paginas : list Z;
  texto : str;
  ocr_conf : float;
  tipo_detectado : str;
  nit_o_cedula : option str;
  fecha_documento : option str;
  firma_manuscrita : bool
}.

(** The dict [current] of the loop. *)
Record actual : Type := Build_actual {
  a_archivo : str;
  a_ruta_archivo : str;
  a_paginas : list Z;
  a_texto : str;
  a_ocr_confs : list float;
  a_tipo_detectado : str;
  a_nit_o_cedula : option str;
  a_fecha_documento : option str;
  a_firma_manuscrita : bool
}.

(** [x or ""], [x or "otro"], [x or 0.0] and the truthiness of an optional
    str. *)
Definition or_str (x : option str) (d : str) : str :=
  match x with
  | Some s => if truthy s then s else d
  | None => d
  end.

Definition or_cero (x : option float) : float :=
  match x with
  | Some f => if PrimFloat.eqb f 0%float then 0%float else f
  | None => 0%float
  end.

Definition truthy_opt (x : option str) : bool :=
  match x with Some s => truthy s | None => false end.

(** The type under which a page is grouped: [p.get("tipo_detectado") or "otro"]. *)
Definition tipo_de (p : pagina_info) : str :=
  or_str (p_tipo_detectado p) (L1 "otro").

Definition conf_de (p : pagina_info) : float := or_cero (p_ocr_conf p).

Definition abrir (p : pagina_info) : actual :=
  Build_actual (p_archivo p) (p_ruta_archivo p) [p_pagina p]
    (or_str (p_texto p) []) [conf_de p] (tipo_de p)
    (p_nit_o_cedula p) (p_fecha_documento p) (p_firma_manuscrita p).

Definition extender (current : actual) (p : pagina_info) : actual :=
  Build_actual (a_archivo current) (a_ruta_archivo current)
    (a_paginas current ++ [p_pagina p])
    (a_texto current ++ [chr 10; chr 10] ++ or_str (p_texto p) [])
    (a_ocr_confs current ++ [conf_de p])
    (a_tipo_detectado current)
    (if (negb (truthy_opt (a_nit_o_cedula current))
         && truthy_opt (p_nit_o_cedula p))%bool
     then p_nit_o_cedula p else a_nit_o_cedula current)
    (if (negb (truthy_opt (a_fecha_documento current))
         && truthy_opt (p_fecha_documento p))%bool
     then p_fecha_documento p else a_fecha_documento current)
    (a_firma_manuscrita current || p_firma_manuscrita p)%bool.

Section Agrupar.

(** [float(np.mean(xs))] of numpy, an external library. *)
Variable np_mean : list float -> float.

Definition avg_conf (confs : list float) : float :=
  match confs with
  | [] => 0%float
  | _ => np_mean confs
  end.

Definition cerrar (current : actual) : documento :=
  Build_documento (a_archivo current) (a_ruta_archivo current)
    (a_paginas current) (a_texto current) (avg_conf (a_ocr_confs current))
    (a_tipo_detectado current) (a_nit_o_cedula current)
    (a_fecha_documento current) (a_firma_manuscrita current).

(** The [for p in paginas_info] loop on ([documentos], [current]). *)
Fixpoint agrupar_loop (documentos : list documento) (current : option actual)
    (ps : list pagina_info) : list documento * option actual :=
  match ps with
  | [] => (documentos, current)
  | p :: ps' =>
      let tipo := tipo_de p in
      match current with
      | None => agrupar_loop documentos (Some (abrir p)) ps'
      | Some cur =>
          if str_eqb tipo (a_tipo_detectado cur)
          then agrupar_loop documentos (Some (extender cur p)) ps'
          else agrupar_loop (documentos ++ [cerrar cur]) (Some (abrir p)) ps'
      end
  end.

Definition agrupar_paginas_en_documentos (paginas_info : list pagina_info)
  : list documento :=
  match paginas_info with
  | [] => []
  | _ =>
      let '(documentos, current) := agrupar_loop [] None paginas_info in
      match current with
      | Some cur => documentos ++ [cerrar cur]
      | None => documentos
      end
  end.

End Agrupar.

(* ================================================================== *)
(** * PageExtractor *)
(* ================================================================== *)

(** [[:\s\-]] *)
Definition sep_nit (c : ascii) : bool :=
  (Re.any_of (L1 ":-") c || is_space c)%bool.

(** [RE_NIT]: a word boundary, optionally one of [NIT[:\s\-]*],
    [NIT\.?[:\s\-]*], [NIT\s*], then the group [(\d{6,12})] and a word
    boundary. *)
Definition RE_NIT : Re.t :=
  Re.cat
    [Re.WordB;
     Re.opt
       (Re.alt
          [Re.cat [Re.lit (L1 "NIT"); Re.star sep_nit];
           Re.cat [Re.lit (L1 "NIT"); Re.rep 0 1 (ch_eqb ".");
                   Re.star sep_nit];
           Re.cat [Re.lit (L1 "NIT"); Re.star is_space]]);
     Re.Grp 1 (Re.rep 6 12 is_digit);
     Re.WordB].

(** [RE_CEDULA], with IGNORECASE: a word boundary, one of
    [C[-\s]?C[:\s\-]*], [Cédula], [Cedula], [Cédula de Ciudadanía],
    [CC[:\s\-]*], then [\s*[:#]?\s*], the group [(\d{6,12})] and a word
    boundary. *)
Definition RE_CEDULA : Re.t :=
  Re.cat
    [Re.WordB;
     Re.alt
       [Re.cat [Re.lit_i (L1 "C");
                Re.rep 0 1 (fun c => (ch_eqb c "-" || is_space c)%bool);
                Re.lit_i (L1 "C"); Re.star sep_nit];
        Re.lit_i (L1 "Cédula");
        Re.lit_i (L1 "Cedula");
        Re.lit_i (L1 "Cédula de Ciudadanía");
        Re.cat [Re.lit_i (L1 "CC"); Re.star sep_nit]];
     Re.star is_space;
     Re.rep 0 1 (Re.any_of (L1 ":#"));
     Re.star is_space;
     Re.Grp 1 (Re.rep 6 12 is_digit);
     Re.WordB].

(** The tax or identity number of a page: [RE_NIT] first, [RE_CEDULA]
    when it finds nothing. *)
Definition nit_o_cedula_de (texto : str) : option str :=
  match Re.search RE_NIT texto with
  | Some (_, cs) => Re.group 1 cs
  | None =>
      match Re.search RE_CEDULA texto with
      | Some (_, cs) => Re.group 1 cs
      | None => None
      end
  end.

(** The words that make a page a banking document. *)
Definition KW_BANCARIO : list str :=
  map L1 ["certificacion bancaria"; "certificado bancario"; "banco";
          "cuenta"; "bancaria"; "entidad financiera";
          "certificación bancaria"]%string.

Definition contexto_bancario_de (texto : str) : bool :=
  existsb (contains (lower texto)) KW_BANCARIO.

(** What the OCR and the signature detector return for one image. *)
Record lectura : Type := Build_lectura {
  l_texto : str;
  l_conf : float;
  l_firma : bool
}.

Section Paginas.

Variable parse_date : str -> option datetime.
Variable hoy : Z.

(** The dict appended for page [i]. *)
Definition info_pagina (nombre_archivo path_pdf : str) (i : Z)
    (l : lectura) : pagina_info :=
  let texto := l_texto l in
  let tipo := clasificar_pagina nombre_archivo texto in
  let nit := nit_o_cedula_de texto in
  let contexto_bancario := contexto_bancario_de texto in
  let fecha_doc :=
    extraer_fecha_mejorada parse_date hoy texto contexto_bancario in
  Build_pagina nombre_archivo path_pdf i (Some texto) (Some (l_conf l))
    (Some tipo) nit (option_map strftime_Ymd fecha_doc) (l_firma l).

(** [for i, img in enumerate(images, start=1)] *)
Fixpoint paginas_desde (nombre_archivo path_pdf : str) (i : Z)
    (ls : list lectura) : list pagina_info :=
  match ls with
  | [] => []
  | l :: ls' =>
      info_pagina nombre_archivo path_pdf i l
      :: paginas_desde nombre_archivo path_pdf (i + 1) ls'
  end.

(** [extraer_info_por_pagina], given the base name of the path and what
    the OCR reads on each image. *)
Definition extraer_info_por_pagina (nombre_archivo path_pdf : str)
    (lecturas : list lectura) : list pagina_info :=
  paginas_desde nombre_archivo path_pdf 1 lecturas.

End Paginas.

(** ** The classifier kept for compatibility *)

(** [clasificar_texto_keywords_old]: the number of keywords of each type
    that occur in the lower-cased text; [None] is a text that is [None]. *)
Definition clasificar_texto_keywords_old (texto : option str) : str :=
  let texto_low := lower (or_str texto []) in
  let scores :=
    map (fun kv => (fst kv,
                    Z.of_nat (List.length
                                (filter (fun k => contains texto_low k)
                                   (snd kv)))))
      DOC_KEYWORDS in
  match scores with
  | [] => L1 "otro"       (* max() of an empty sequence does not occur *)
  | kv :: rest =>
      let best := fold_left (fun b x => if snd b <? snd x then x else b)
                    rest kv in
      if 0 <? snd best then fst best else L1 "otro"
  end.

(* ================================================================== *)
(** * ChecklistEngine *)
(* ================================================================== *)

(** The four values of [estado]: "C", "Falta", "Revisión", "N/A". *)
Inductive estado : Type := C | Falta | Revision | NA.

Definition estado_eqb (a b : estado) : bool :=
  match a, b with
  | C, C | Falta, Falta | Revision, Revision | NA, NA => true
  | _, _ => false
  end.

(** The observation texts, by the statement that produces them. *)
Inductive observacion : Type :=
| ObsNoAplicaNatural      (* "No aplica para persona natural" *)
| ObsSoloNatural          (* "Aplica solo si peticionario es persona natural" *)
| ObsSoloConsorcio        (* "Aplica solo si peticionario es consorcio/..." *)
| ObsInferido             (* "Documento asociado por inferencia de nombre..." *)
| ObsRedetectada          (* "Fecha redetectada con método mejorado" *)
| ObsSinRecepcion         (* "No se pudo determinar la fecha de recepción" *)
| ObsVigente (recepcion limite expedicion vig : Z)   (* "Vigente: ..." *)
| ObsVencido (recepcion limite expedicion vig : Z)   (* "Vencido: ..." *)
| ObsErrorVigencia        (* "Error validando vigencia: ..." *)
| ObsSinFecha             (* "Fecha no encontrada para validar vigencia" *)
| ObsOcrBaja (conf : float)   (* "OCR baja/confianza=..." *)
| ObsSinFirma.            (* "Firma manuscrita no detectada; ..." *)

(** The values [fecha_recepcion_dt] may take. *)
Inductive fecha_obj : Type :=
| FDate (d : Z)
| FDatetime (dt : datetime)
| FStr (s : str)
| FOtro.

Record resultado : Type := Build_resultado {
  r_estado : estado;
  r_archivos : list (str * list Z);   (* "archivo (p1,p2,...)" *)
  r_observaciones : list observacion
}.

Definition id_en (ids : list string) (it : item) : bool :=
  existsb (fun s => str_eqb (item_id it) (L1 s)) ids.

(** The three early returns of [evaluar_item]. *)
Definition no_aplica (it : item) (peticionario_tipo : str)
  : option observacion :=
  if (str_eqb peticionario_tipo (L1 "persona_natural")
      && id_en ["camara_comercio_nm"; "rut_nm"]%string it)%bool
  then Some ObsNoAplicaNatural
  else if (id_en ["cedula_persona_natural";
                  "cedula_persona_natural_nm"]%string it
           && negb (str_eqb peticionario_tipo (L1 "persona_natural")))%bool
  then Some ObsSoloNatural
  else if (id_en ["acta_consorcial"]%string it
           && negb (str_eqb peticionario_tipo (L1 "consorcio")))%bool
  then Some ObsSoloConsorcio
  else None.

(** Keyword hits of one document. *)
Definition score_doc (it : item) (doc : documento) : Z :=
  let texto := lower (texto doc) in
  fold_left
    (fun score kw => if contains texto (lower kw) then score + 1 else score)
    (keywords it) 0.

(** [archivo_inferido and item["id"] in archivo_inferido] *)
Definition es_inferido (it : item) (archivo_inferido : option (list str))
  : bool :=
  match archivo_inferido with
  | Some ids => existsb (str_eqb (item_id it)) ids
  | None => false
  end.

(** The acceptance threshold. *)
Definition aceptado (it : item) (archivo_inferido : option (list str))
    (doc : documento) : bool :=
  let inferido := es_inferido it archivo_inferido in
  ((inferido && (1 <=? score_doc it doc))
   || (negb inferido && (2 <=? score_doc it doc)))%bool.

(** Truthiness of [item.get("vigencia_dias")]. *)
Definition vigencia_de (it : item) : option Z :=
  match vigencia_dias it with
  | Some v => if v =? 0 then None else Some v
  | None => None
  end.

Definition requiere_firma (it : item) : bool :=
  id_en ["carta_representante"; "carta_peticionario"; "cert_contador";
         "cert_contador"]%string it.

Section Evaluar.

Variable parse_date : str -> option datetime.
Variable hoy : Z.

(** [obtener_fecha_date] *)
Definition obtener_fecha_date (fecha : option fecha_obj) : option Z :=
  match fecha with
  | None => None
  | Some (FDate d) => Some d
  | Some (FDatetime dt) => Some (dt_date dt)
  | Some (FStr s) => option_map dt_date (parse_date s)
  | Some FOtro => None
  end.

(** The issuance date of the validity check, with the observations made
    and the document after the assignment to [doc["fecha_documento"]]. *)
Definition resolver_fecha (it : item) (doc : documento)
  : option Z * list observacion * documento :=
  let fecha_doc :=
    match fecha_documento doc with
    | Some s => if truthy s then obtener_fecha_date (Some (FStr s)) else None
    | None => None
    end in
  match fecha_doc with
  | Some f => (Some f, [], doc)
  | None =>
      let contexto_bancario :=
        (contains (item_id it) (L1 "bancaria")
         || contains (item_id it) (L1 "cert_bancaria"))%bool in
      match extraer_fecha_mejorada parse_date hoy (texto doc)
              contexto_bancario with
      | Some f =>
          (Some f, [ObsRedetectada],
           Build_documento (archivo doc) (ruta_archivo doc) (paginas doc)
             (texto doc) (ocr_conf doc) (tipo_detectado doc)
             (nit_o_cedula doc) (Some (strftime_Ymd f))
             (firma_manuscrita doc))
      | None => (None, [], doc)
      end
  end.

(** The [try] block: the comparison with the limit.  [Raise] is the
    [except] branch; [Timeout] does not occur
    ([fecha_limite_habiles_total]). *)
Definition comparar_vigencia (fecha_recepcion_dt : option fecha_obj)
    (fecha_doc vig : Z) : estado * list observacion :=
  match obtener_fecha_date fecha_recepcion_dt with
  | None => (Revision, [ObsSinRecepcion])
  | Some fecha_recepcion_date =>
      match fecha_limite_habiles (combine_min fecha_doc) vig with
      | Done limite =>
          let fecha_limite_validez := dt_date limite in
          if fecha_recepcion_date <=? fecha_limite_validez
          then (C, [ObsVigente fecha_recepcion_date fecha_limite_validez
                      fecha_doc vig])
          else (Falta, [ObsVencido fecha_recepcion_date fecha_limite_validez
                          fecha_doc vig])
      | Raise _ => (Revision, [ObsErrorVigencia])
      | Timeout => (Revision, [ObsErrorVigencia])
      end
  end.

(** The validity stage for an accepted document: state and observations it
    sets, before the two overrides. *)
Definition etapa_vigencia (it : item) (doc : documento)
    (fecha_recepcion_dt : option fecha_obj)
  : estado * list observacion * documento :=
  match vigencia_de it with
  | Some vig =>
      let '(fecha_doc, obs, doc') := resolver_fecha it doc in
      match fecha_doc with
      | Some f =>
          let '(e, obs') := comparar_vigencia fecha_recepcion_dt f vig in
          (e, obs ++ obs', doc')
      | None => (Revision, obs ++ [ObsSinFecha], doc')
      end
  | None => (C, [], doc)
  end.

(** The confidence override. *)
Definition conf_baja (doc : documento) : bool :=
  (PrimFloat.ltb (ocr_conf doc) 30%float
   || (List.length (strip (texto doc)) <? 40)%nat)%bool.

Definition override_confianza (doc : documento)
    (s : estado * list observacion) : estado * list observacion :=
  if conf_baja doc
  then (Revision, snd s ++ [ObsOcrBaja (ocr_conf doc)])
  else s.

(** The signature override. *)
Definition override_firma (it : item) (doc : documento)
    (s : estado * list observacion) : estado * list observacion :=
  if requiere_firma it
  then
    if negb (firma_manuscrita doc)
    then (if estado_eqb (fst s) C then Revision else fst s,
          snd s ++ [ObsSinFirma])
    else s
  else s.

(** The body of the [if] of an accepted document. *)
Definition evaluar_doc (it : item) (archivo_inferido : option (list str))
    (fecha_recepcion_dt : option fecha_obj) (doc : documento)
  : estado * list observacion * documento :=
  let obs0 := if es_inferido it archivo_inferido then [ObsInferido] else [] in
  let '(e, obs, doc') := etapa_vigencia it doc fecha_recepcion_dt in
  let s := override_confianza doc' (e, obs0 ++ obs) in
  let s := override_firma it doc' s in
  (fst s, snd s, doc').

(** The [for doc in documentos_detectados] loop; the documents are
    returned as the loop leaves them. *)
Fixpoint evaluar_loop (it : item) (archivo_inferido : option (list str))
    (fecha_recepcion_dt : option fecha_obj) (docs : list documento)
    (acc : resultado) : resultado * list documento :=
  match docs with
  | [] => (acc, [])
  | doc :: docs' =>
      if aceptado it archivo_inferido doc
      then
        let '(e, obs, doc') :=
          evaluar_doc it archivo_inferido fecha_recepcion_dt doc in
        let acc' :=
          Build_resultado e
            (r_archivos acc ++ [(archivo doc, paginas doc)])
            (r_observaciones acc ++ obs) in
        let '(r, rest) :=
          evaluar_loop it archivo_inferido fecha_recepcion_dt docs' acc' in
        (r, doc' :: rest)
      else
        let '(r, rest) :=
          evaluar_loop it archivo_inferido fecha_recepcion_dt docs' acc in
        (r, doc :: rest)
  end.

Definition evaluar_item (it : item) (documentos_detectados : list documento)
    (fecha_recepcion_dt : option fecha_obj) (peticionario_tipo : str)
    (archivo_inferido : option (list str)) : resultado * list documento :=
  match no_aplica it peticionario_tipo with
  | Some obs => (Build_resultado NA [] [obs], documentos_detectados)
  | None =>
      let '(r, docs') :=
        evaluar_loop it archivo_inferido fecha_recepcion_dt
          documentos_detectados (Build_resultado Falta [] []) in
      match r_archivos r with
      | [] =>
          (Build_resultado (if negb (requerido it) then NA else Falta)
             [] (r_observaciones r), docs')
      | _ => (r, docs')
      end
  end.

End Evaluar.

(** ** The checklist of a set of documents *)

(** The two entries of the tuple in
    [isinstance(fecha_recepcion_str, (datetime, datetime.date))].  The
    module imports the class with [from datetime import datetime], so
    [datetime.date] is the method [date] of that class and not a class. *)
Inductive clase : Type :=
| ClsDatetime        (* the class datetime.datetime *)
| MetodoDate.        (* the method descriptor datetime.datetime.date *)

(** [isinstance(x, c)] for one entry: a method descriptor as second
    argument raises TypeError. *)
Definition isinstance1 (x : fecha_obj) (c : clase) : outcome bool :=
  match c with
  | ClsDatetime =>
      Done (match x with FDatetime _ => true | _ => false end)
  | MetodoDate => Raise TypeError
  end.

(** [isinstance(x, (c1, ..., cn))]: the entries are tried from the left
    until one answers True or raises. *)
Fixpoint isinstance (x : fecha_obj) (cs : list clase) : outcome bool :=
  match cs with
  | [] => Done false
  | c :: cs' =>
      match isinstance1 x c with
      | Done false => isinstance x cs'
      | o => o
      end
  end.

(** A row of the DataFrame of [generar_checklist].  [ArchivosFuente] and
    [Observaciones] are kept as the lists that the source joins with ", "
    and "; "; the empty list is the [None] of the source. *)
Record fila : Type := Build_fila {
  TipoDevolucion : str;
  PeticionarioTipo : str;
  ItemID : str;
  Item : str;
  Requerido : bool;
  Estado : estado;
  ArchivosFuente : list (str * list Z);
  Observaciones : list observacion
}.

Section Checklist.

Variable parse_date : str -> option datetime.
Variable hoy : Z.
(** [datetime.now()] of the [except] branch. *)
Variable ahora : datetime.

(** The [try] block at the head of [generar_checklist]. *)
Definition fecha_recepcion_de (fecha_recepcion_str : fecha_obj) : fecha_obj :=
  match isinstance fecha_recepcion_str [ClsDatetime; MetodoDate] with
  | Done true => fecha_recepcion_str
  | Done false =>
      match fecha_recepcion_str with
      | FStr s =>
          match parse_date s with
          | Some dt => FDatetime dt
          | None => FDatetime ahora
          end
      | _ => FDatetime ahora
      end
  | Raise _ => FDatetime ahora
  | Timeout => FDatetime ahora
  end.

(** [items]: the checklist, restricted to the allowed ids when there are
    some. *)
Definition items_de (tipo_devolucion : str)
    (allowed_item_ids : option (list str)) : list item :=
  let todos_items := checklist_de tipo_devolucion in
  match allowed_item_ids with
  | Some (id :: ids) =>
      filter (fun it => existsb (str_eqb (item_id it)) (id :: ids))
        todos_items
  | _ => todos_items
  end.

(** The [for item in items] loop.  Every call of [evaluar_item] receives
    the same list of dicts, so the dates it writes into a document are
    seen by the items that follow. *)
Fixpoint filas_loop (items : list item) (docs : list documento)
    (tipo_devolucion peticionario_tipo : str) (fecha_recepcion_dt : fecha_obj)
    (allowed_item_ids : option (list str))
  : list fila * list documento :=
  match items with
  | [] => ([], docs)
  | it :: items' =>
      let '(r, docs') :=
        evaluar_item parse_date hoy it docs (Some fecha_recepcion_dt)
          peticionario_tipo allowed_item_ids in
      let '(filas, docs'') :=
        filas_loop items' docs' tipo_devolucion peticionario_tipo
          fecha_recepcion_dt allowed_item_ids in
      (Build_fila tipo_devolucion peticionario_tipo (item_id it) (titulo it)
         (requerido it) (r_estado r) (r_archivos r) (r_observaciones r)
       :: filas, docs'')
  end.

Definition generar_checklist (documentos_detectados : list documento)
    (tipo_devolucion : str) (fecha_recepcion_str : fecha_obj)
    (peticionario_tipo : str) (allowed_item_ids : option (list str))
  : list fila * list documento :=
  let fecha_recepcion_dt := fecha_recepcion_de fecha_recepcion_str in
  filas_loop (items_de tipo_devolucion allowed_item_ids)
    documentos_detectados tipo_devolucion peticionario_tipo
    fecha_recepcion_dt allowed_item_ids.

End Checklist.

(* ================================================================== *)
(** * Folder run *)
(* ================================================================== *)

(** [str.endswith] *)
Definition endswith (s p : str) : bool := startswith (rev s) (rev p).

(** A name of [os.listdir(folder_path)] with what the run meets at it: the
    joined path, whose base name is the name again; what the PDF reader,
    the OCR and the signature detector give for its pages, [None] when one
    of them raises; the digest of [sha256_file], [None] when reading the
    file raises; and the clock at the time. *)
Record entrada : Type := Build_entrada {
  e_fname : str;
  e_full_path : str;
  e_lecturas : option (list lectura);
  e_hash_sha256 : option str;
  e_hoy : Z;
  e_ahora : datetime
}.

(** A row of the sheet "Checklist": a row of [generar_checklist] with the
    columns [SolicitudArchivo], [NombreArchivo] and [InferredItemIDs] (the
    list that the source joins with ","), or the row written by the
    [except] branch, whose [ItemID] and [Estado] are "ERROR". *)
Inductive fila_informe : Type :=
| FilaChecklist (f : fila) (SolicitudArchivo NombreArchivo : str)
    (InferredItemIDs : option (list str))
| FilaError (TipoDevolucion PeticionarioTipo fname : str).

Section Carpeta.

Variable parse_date : str -> option datetime.
(** [parse_date(fecha_recepcion_str, dayfirst=True)]; [None] when it
    raises. *)
Variable parse_recepcion : str -> option datetime.
Variable np_mean : list float -> float.

(** The body of [for fname in pdf_files], with its [try].  The rows of the
    checklist are appended before the digest is taken for the summary, so
    a digest that raises adds the row of the [except] branch to them. *)
Definition filas_de_archivo (e : entrada) (fecha_recepcion_str : str)
    (tipo_devolucion peticionario_tipo : str) : list fila_informe :=
  let fname := e_fname e in
  match parse_recepcion fecha_recepcion_str, e_lecturas e with
  | Some _, Some lecturas =>
      let paginas_info :=
        extraer_info_por_pagina parse_date (e_hoy e) fname (e_full_path e)
          lecturas in
      let documentos := agrupar_paginas_en_documentos np_mean paginas_info in
      let allowed_ids := inferir_items_desde_nombre fname tipo_devolucion in
      let allowed :=
        match allowed_ids with
        | [] => None
        | _ :: _ => Some allowed_ids
        end in
      let df_check :=
        fst (generar_checklist parse_date (e_hoy e) (e_ahora e) documentos
               tipo_devolucion (FStr fecha_recepcion_str) peticionario_tipo
               allowed) in
      let filas :=
        map (fun f => FilaChecklist f fname fname allowed) df_check in
      match e_hash_sha256 e with
      | Some _ => filas
      | None => filas ++ [FilaError tipo_devolucion peticionario_tipo fname]
      end
  | _, _ => [FilaError tipo_devolucion peticionario_tipo fname]
  end.

(** [procesar_carpeta], as far as the rows of the sheet "Checklist":
    [None] is the early return for a folder without PDFs. *)
Definition procesar_carpeta (listdir : list entrada)
    (fecha_recepcion_str tipo_devolucion peticionario_tipo : str)
  : option (list fila_informe) :=
  let pdf_files :=
    filter (fun e => endswith (lower (e_fname e)) (L1 ".pdf")) listdir in
  match pdf_files with
  | [] => None
  | _ :: _ =>
      Some (flat_map
              (fun e => filas_de_archivo e fecha_recepcion_str tipo_devolucion
                          peticionario_tipo)
              pdf_files)
  end.

End Carpeta.

(* ================================================================== *)
(** * Vocabulary of the statements and sample inputs *)
(* ================================================================== *)

(** The ordinals of the six dates of [COLOMBIA_FESTIVOS]. *)
Definition FESTIVOS_ORD : list Z :=
  [739252; 739372; 739452; 739470; 739593; 739610].

Definition es_festivo (d : Z) : bool :=
  existsb (str_eqb (strftime_Ymd d)) COLOMBIA_FESTIVOS.

(** Sample inputs.  [sin_dateutil] is a [dateutil] that rejects every text;
    the samples are chosen so that the embedding never consults it for a
    text it would accept. *)
Definition sin_dateutil : str -> option datetime := fun _ => None.

Definition ej_hoy : Z := 740258.   (* 2027-10-04 *)

Definition item_nulo : item := mk_item "" "" [] true None.

Definition ej_rut : item := nth 1 CHECKLIST_MISIONAL item_nulo.
Definition ej_camara : item := nth 2 CHECKLIST_MISIONAL item_nulo.
Definition ej_cert_bancaria : item := nth 5 CHECKLIST_MISIONAL item_nulo.

Definition ej_doc (nombre texto_doc : string) (conf : float) : documento :=
  Build_documento (L1 nombre) (L1 nombre) [1] (L1 texto_doc) conf
    (L1 "otro") None None true.

Definition ej_doc_bancario : documento :=
  ej_doc "banco.pdf"
    "Certificacion bancaria: certificado bancario del 15 de enero de 2025."
    95%float.

(** [m] is the greatest date of the list [l]. *)
Definition es_maximo (m : Z) (l : list Z) : Prop :=
  In m l /\ forall y, In y l -> y <= m.

(** The window as the claim words it, in years of the calendar: from the
    day [y-m-d] five years back to the same day one year on. *)
Definition en_ventana_anios (y m d : Z) (f : Z) : bool :=
  match mk_date (y - 5) m d, mk_date (y + 1) m d with
  | Some a, Some b => ((a <=? f) && (f <=? b))%bool
  | _, _ => false
  end.




(** The score of a type, in closed form. *)
Definition keyword_normalized (keyword : str) : str :=
  sin_tildes (lower keyword).

Definition cuenta {A : Type} (p : A -> bool) (l : list A) : Z :=
  Z.of_nat (List.length (filter p l)).

(** The keyword occurs in the lower-cased filename. *)
Definition en_nombre (nombre_archivo keyword : str) : bool :=
  contains (lower nombre_archivo) (keyword_normalized keyword).

(** The keyword occurs in the normalised filename and text. *)
Definition en_texto (texto_completo keyword : str) : bool :=
  contains texto_completo (keyword_normalized keyword).

(** The keyword has several words and each occurs somewhere. *)
Definition con_bonus (texto_completo keyword : str) : bool :=
  ((1 <? List.length (split_ws (keyword_normalized keyword)))%nat
   && forallb (contains texto_completo)
        (split_ws (keyword_normalized keyword)))%bool.

Definition puntaje (nombre_archivo texto_completo : str)
    (keywords : list str) : Z :=
  3 * cuenta (en_nombre nombre_archivo) keywords
  + cuenta (en_texto texto_completo) keywords
  + 2 * cuenta (con_bonus texto_completo) keywords.

(** The score as the claim words it: the filename normalised like the
    combined text before the keywords are searched in it. *)
Definition nombre_normalizado (nombre_archivo : str) : str :=
  strip (Re.sub RE_ESPACIOS (L1 " ")
           (Re.sub RE_PUNTUACION (L1 " ") (sin_tildes (lower nombre_archivo)))).

Definition puntaje_nombre_normalizado (nombre_archivo texto_completo : str)
    (keywords : list str) : Z :=
  3 * cuenta (fun kw => contains (nombre_normalizado nombre_archivo)
                          (keyword_normalized kw)) keywords
  + cuenta (en_texto texto_completo) keywords
  + 2 * cuenta (con_bonus texto_completo) keywords.

Definition ej_doc_rut_claro : documento :=
  ej_doc "a.pdf" "Copia del RUT: registro unico tributario de la empresa"
    95%float.

Definition ej_doc_rut_borroso : documento :=
  ej_doc "b.pdf" "rut registro unico tributario de la empresa solicitante"
    10%float.

Definition ej_doc_camara_vencido : documento :=
  ej_doc "c.pdf"
    "Camara de Comercio: certificado de existencia, 15 de enero de 2025"
    10%float.

Definition all_ascii : list ascii := map ascii_of_nat (seq 0 256).

Definition forall_ascii (f : ascii -> bool) : bool := forallb f all_ascii.

(** [never p q]: no character of class [q] is in class [p]. *)
Definition never (q p : ascii -> bool) : bool :=
  forall_ascii (fun c => implb (q c) (negb (p c))).

(** [must_fail q r]: every match of [r] takes a character outside [q]. *)
Fixpoint must_fail (q : ascii -> bool) (r : Re.t) : bool :=
  match r with
  | Re.Cls p => never q p
  | Re.Cat a b => (must_fail q a || must_fail q b)%bool
  | Re.Alt a b => (must_fail q a && must_fail q b)%bool
  | Re.Rep lo _ _ p => (negb (Nat.eqb lo 0) && never q p)%bool
  | Re.Grp _ a => must_fail q a
  | _ => false
  end.

Definition todos (q : ascii -> bool) (s : str) : Prop :=
  Forall (fun c => q c = true) s.

(** The pattern matches at no position of [s]. *)
Fixpoint sin_match (r : Re.t) (prev : option ascii) (s : str) : Prop :=
  Re.match_at r prev s = None
  /\ match s with
     | [] => True
     | c :: s' => sin_match r (Some c) s'
     end.

(** Length of the run of characters of class [p] that starts the text. *)
Fixpoint run_len (p : ascii -> bool) (s : str) : nat :=
  match s with
  | c :: s' => if p c then S (run_len p s') else O
  | [] => O
  end.

(** Every run of whitespace becomes one space. *)
Fixpoint collapse (in_run : bool) (s : str) : str :=
  match s with
  | [] => []
  | c :: s' =>
      if is_space c
      then if in_run then collapse true s' else " "%char :: collapse true s'
      else c :: collapse false s'
  end.

(** a-z and 0-9. *)
Definition alnum_ch (c : ascii) : bool :=
  (between 97 122 c || between 48 57 c)%bool.

(** The characters of a normalised text: a-z, 0-9 and the space. *)
Definition limpio_ch (c : ascii) : bool :=
  (alnum_ch c || ch_eqb c " ")%bool.

(** No whitespace after whitespace; [prev_sp] tells whether the character
    before the text is one. *)
Fixpoint sin_dobles (prev_sp : bool) (s : str) : bool :=
  match s with
  | [] => true
  | c :: s' =>
      if is_space c then (negb prev_sp && sin_dobles true s')%bool
      else sin_dobles false s'
  end.

(** Lower-case words of letters and digits, one space between them, none
    at either end. *)
Definition canonico (t : str) : Prop :=
  Forall (fun c => limpio_ch c = true) t
  /\ sin_dobles true t = true
  /\ (t = [] \/ exists u c, t = u ++ [c] /\ is_space c = false).

Definition Wo (c : option ascii) : bool := Re.word_opt c.

Definition Do (c : option ascii) : bool :=
  match c with Some x => is_digit x | None => false end.

(** A rewriting of each character by its two neighbours in the text. *)
Fixpoint ctx_map (f : option ascii -> ascii -> option ascii -> ascii)
    (prev : option ascii) (s : str) : str :=
  match s with
  | [] => []
  | c :: s' => f prev c (hd_error s') :: ctx_map f (Some c) s'
  end.

(** [P] holds of every character with its two neighbours. *)
Fixpoint all3 (P : option ascii -> ascii -> option ascii -> bool)
    (prev : option ascii) (s : str) : bool :=
  match s with
  | [] => true
  | c :: s' => (P prev c (hd_error s') && all3 P (Some c) s')%bool
  end.

(** An "l" between two non-word positions. *)
Definition l_aislada (p : option ascii) (c : ascii) (n : option ascii)
  : bool :=
  (ch_eqb c "l" && negb (Wo p) && negb (Wo n))%bool.

(** The letter [X] between two digits. *)
Definition entre_digitos (X : ascii) (p : option ascii) (c : ascii)
    (n : option ascii) : bool :=
  (ch_eqb c X && Do p && Do n)%bool.

Definition reescribir (cond : option ascii -> ascii -> option ascii -> bool)
    (x : ascii) (p : option ascii) (c : ascii) (n : option ascii) : ascii :=
  if cond p c n then x else c.

Definition no_bracket (c : ascii) : bool :=
  negb (Re.any_of (L1 "[]{}()") c).

Definition no_barra (c : ascii) : bool := negb (ch_eqb c "|").

(** The first four steps of [limpiar_texto_fecha]. *)
Definition pasos_limpiar (s : str) : str :=
  ctx_map (reescribir (entre_digitos "o") "0") None
    (ctx_map (reescribir (entre_digitos "O") "0") None
       (ctx_map (reescribir l_aislada "1") None (replace_ch "|" "/" s))).

Definition sin_l_aislada (s : str) : Prop :=
  all3 (fun p c n => negb (l_aislada p c n)) None s = true.

Definition sin_entre_digitos (X : ascii) (s : str) : Prop :=
  all3 (fun p c n => negb (entre_digitos X p c n)) None s = true.

(** ** Vocabulary of the further properties *)

(** [bind] of outcomes: the second call runs on what the first returned. *)
Definition luego {A B : Type} (o : outcome A) (k : A -> outcome B)
  : outcome B :=
  match o with
  | Done a => k a
  | Raise e => Raise e
  | Timeout => Timeout
  end.

(** Strictly increasing in the order of [str]. *)
Definition creciente (l : list str) : Prop :=
  StronglySorted (fun a b => str_ltb a b = true) l.

(** The value of the first entry whose key is [k]. *)
Fixpoint buscar_exacto (tabla : list (str * Z)) (k : str) : option Z :=
  match tabla with
  | [] => None
  | (key, value) :: tabla' =>
      if str_eqb key k then Some value else buscar_exacto tabla' k
  end.

(** The keys cut to their first three letters. *)
Definition prefijos (tabla : list (str * Z)) : list (str * Z) :=
  map (fun kv => (firstn 3 (fst kv), snd kv)) tabla.

(** [date.strftime("%d/%m/%Y")] with a separator of choice. *)
Definition strftime_dmY (sep : ascii) (y m d : Z) : str :=
  [digit (d / 10); digit d; sep; digit (m / 10); digit m; sep;
   digit (y / 1000); digit (y / 100); digit (y / 10); digit y].

(** Not one of the characters [limpiar_texto_fecha] looks for. *)
Definition ajeno_ch (c : ascii) : bool :=
  negb (Re.any_of (L1 "|lOo[]{}()") c).

(** Digits and date separators. *)
Definition cifra_o_sep (c : ascii) : bool := (is_digit c || sep_fecha c)%bool.

(** The values [tipo_detectado] may take. *)
Definition TIPOS : list str := L1 "otro" :: map fst DOC_KEYWORDS.

(** A bound [hi] of a repetition admits [n] characters. *)
Definition hi_admite (hi : option nat) (n : nat) : Prop :=
  match hi with Some h => (n <= h)%nat | None => True end.

(** Every group [i] of [r] is a repetition whose matches satisfy [P]. *)
Fixpoint grupos_ok (i : nat) (P : str -> Prop) (r : Re.t) : Prop :=
  match r with
  | Re.Cat a b => grupos_ok i P a /\ grupos_ok i P b
  | Re.Alt a b => grupos_ok i P a /\ grupos_ok i P b
  | Re.Grp j a =>
      if Nat.eqb i j
      then match a with
           | Re.Rep lo hi _ p =>
               forall w, Forall (fun c => p c = true) w ->
                         (lo <= List.length w)%nat ->
                         hi_admite hi (List.length w) -> P w
           | _ => False
           end
      else grupos_ok i P a
  | _ => True
  end.

(** Group [i], when set, satisfies [P]. *)
Definition caps_ok (i : nat) (P : str -> Prop) (cs : Re.caps) : Prop :=
  forall g, Re.group i cs = Some g -> P g.

(** A run of six to twelve digits. *)
Definition es_numero_id (g : str) : Prop :=
  (6 <= List.length g <= 12)%nat /\ Forall (fun c => is_digit c = true) g.

(** ["\n\n".join(l)] *)
Fixpoint unir_textos (l : list str) : str :=
  match l with
  | [] => []
  | [x] => x
  | x :: l' => x ++ [chr 10; chr 10] ++ unir_textos l'
  end.

(** The first value that is neither [None] nor empty; without one, the
    first value. *)
Definition primero_con_valor (l : list (option str)) : option str :=
  match find truthy_opt l with
  | Some x => x
  | None => hd None l
  end.

(** What a document holds of the run of pages it was made from. *)
Definition contenido_de (run : list pagina_info) (d : documento) : Prop :=
  match run with
  | [] => False
  | p :: _ =>
      archivo d = p_archivo p
      /\ ruta_archivo d = p_ruta_archivo p
      /\ tipo_detectado d = tipo_de p
      /\ paginas d = map p_pagina run
      /\ texto d = unir_textos (map (fun q => or_str (p_texto q) []) run)
      /\ firma_manuscrita d = existsb p_firma_manuscrita run
      /\ nit_o_cedula d = primero_con_valor (map p_nit_o_cedula run)
      /\ fecha_documento d = primero_con_valor (map p_fecha_documento run)
  end.

Definition contenido_actual (run : list pagina_info) (cur : actual) : Prop :=
  match run with
  | [] => False
  | p :: _ =>
      a_archivo cur = p_archivo p
      /\ a_ruta_archivo cur = p_ruta_archivo p
      /\ a_tipo_detectado cur = tipo_de p
      /\ a_paginas cur = map p_pagina run
      /\ a_texto cur = unir_textos (map (fun q => or_str (p_texto q) []) run)
      /\ a_firma_manuscrita cur = existsb p_firma_manuscrita run
      /\ a_nit_o_cedula cur = primero_con_valor (map p_nit_o_cedula run)
      /\ a_fecha_documento cur
         = primero_con_valor (map p_fecha_documento run)
  end.

(** No two equal strings. *)
Fixpoint distintos (l : list str) : bool :=
  match l with
  | [] => true
  | x :: l' => (negb (existsb (str_eqb x) l') && distintos l')%bool
  end.

(** Two documents that differ at most in [fecha_documento]. *)
Definition salvo_fecha (d d' : documento) : Prop :=
  archivo d' = archivo d /\ ruta_archivo d' = ruta_archivo d
  /\ paginas d' = paginas d /\ texto d' = texto d
  /\ ocr_conf d' = ocr_conf d /\ tipo_detectado d' = tipo_detectado d
  /\ nit_o_cedula d' = nit_o_cedula d
  /\ firma_manuscrita d' = firma_manuscrita d.

(** The date of [d'] is that of [d], or the ISO text of a date found in the
    text of [d]. *)
Definition fecha_redetectada (parse_date : str -> option datetime) (hoy : Z)
    (d d' : documento) : Prop :=
  fecha_documento d' = fecha_documento d
  \/ exists contexto_bancario f,
       extraer_fecha_mejorada parse_date hoy (texto d) contexto_bancario
       = Some f
       /\ fecha_documento d' = Some (strftime_Ymd f).

(** What [evaluar_item] may have done to a document. *)
Definition tras_evaluar (parse_date : str -> option datetime) (hoy : Z)
    (d d' : documento) : Prop :=
  salvo_fecha d d' /\ fecha_redetectada parse_date hoy d d'.

(** A row that belongs to the file [n] and cites no other file. *)
Definition fila_de_archivo (n : str) (r : fila_informe) : Prop :=
  match r with
  | FilaChecklist f sol nom _ =>
      sol = n /\ nom = n /\ Forall (fun a => fst a = n) (ArchivosFuente f)
  | FilaError _ _ fname => fname = n
  end.

(* ================================================================== *)
(** * Properties of the business calendar *)
(* ================================================================== *)

Lemma str_eqb_eq a b : str_eqb a b = true -> a = b.
Proof.
  revert b. induction a as [|x a IH]; intros [|y b] H; simpl in H;
    try discriminate; [reflexivity|].
  apply andb_true_iff in H. destruct H as [H1 H2].
  apply Ascii.eqb_eq in H1. subst. f_equal. auto.
Qed.

Lemma str_eqb_refl a : str_eqb a a = true.
Proof.
  induction a as [|x a IH]; simpl; [reflexivity|].
  unfold ch_eqb. rewrite Ascii.eqb_refl. exact IH.
Qed.


Lemma festivos_ord_ok :
  map Some FESTIVOS_ORD
  = [mk_date 2025 1 1; mk_date 2025 5 1; mk_date 2025 7 20;
     mk_date 2025 8 7; mk_date 2025 12 8; mk_date 2025 12 25].
Proof. reflexivity. Qed.

(** The year of an ordinal, by the two exits of [ord2ymd]. *)
Lemma ord2ymd_year_cases n :
  let n0 := n - 1 in
  let n400 := n0 / 146097 in
  let r1 := n0 mod 146097 in
  let n100 := r1 / 36524 in
  let r2 := r1 mod 36524 in
  let n4 := r2 / 1461 in
  let r3 := r2 mod 1461 in
  let n1 := r3 / 365 in
  let y := n400 * 400 + 1 + n100 * 100 + n4 * 4 + n1 in
  year_of n = y /\ n1 <> 4 /\ n100 <> 4
  \/ year_of n = y - 1 /\ (n1 = 4 \/ n100 = 4).
Proof.
  intros. unfold year_of, ord2ymd, DI400Y, DI100Y, DI4Y.
  fold n0. fold n400. fold r1. fold n100. fold r2. fold n4. fold r3. fold n1.
  fold y.
  destruct ((n1 =? 4) || (n100 =? 4))%bool eqn:E.
  - right. split; [reflexivity|].
    apply orb_true_iff in E. destruct E as [E|E]; apply Z.eqb_eq in E; auto.
  - left. apply orb_false_iff in E. destruct E as [E1 E2].
    apply Z.eqb_neq in E1, E2. split; [|auto].
    match goal with |- context [if ?b then _ else _] => destruct b end;
      reflexivity.
Qed.

Lemma year_of_range n : 1 <= n <= MAXORD + 7 -> 1 <= year_of n <= 10000.
Proof.
  unfold MAXORD. intros H.
  pose proof (ord2ymd_year_cases n) as Hc. cbv zeta in Hc.
  destruct Hc as [[Hc Hd]|[Hc Hd]]; rewrite Hc; clear Hc;
    Z.div_mod_to_equations; lia.
Qed.

Lemma year_of_2025 n : year_of n = 2025 -> 739252 <= n <= 739616.
Proof.
  intros H.
  pose proof (ord2ymd_year_cases n) as Hc. cbv zeta in Hc.
  destruct Hc as [[Hc Hd]|[Hc Hd]]; rewrite Hc in H; clear Hc;
    Z.div_mod_to_equations; lia.
Qed.

Lemma digit_inj a b : 0 <= b <= 9 -> digit a = digit b -> a mod 10 = b.
Proof.
  unfold digit. intros Hb H.
  assert (Ha : 0 <= a mod 10 < 10) by (apply Z.mod_pos_bound; lia).
  rewrite (Z.mod_small b 10) in H by lia.
  assert (E : Z.to_N (48 + a mod 10) = Z.to_N (48 + b)).
  { unfold chr in H. apply (f_equal N_of_ascii) in H.
    rewrite !N_ascii_embedding in H by lia. exact H. }
  lia.
Qed.

Lemma In_dias_siguientes k : forall a d,
  In d (dias_siguientes a k) <-> a < d <= a + Z.of_nat k.
Proof.
  induction k as [|k IH]; intros a d; simpl dias_siguientes.
  - simpl. lia.
  - simpl In. rewrite IH. lia.
Qed.

Lemma es_festivo_year d :
  es_festivo d = true -> year_of d mod 10000 = 2025.
Proof.
  unfold es_festivo, strftime_Ymd, year_of.
  destruct (ord2ymd d) as [[y m] dd]. simpl fst.
  intros H. apply existsb_exists in H. destruct H as [s [Hs He]].
  apply str_eqb_eq in He. subst s.
  assert (D : (y / 1000) mod 10 = 2 /\ (y / 100) mod 10 = 0
              /\ (y / 10) mod 10 = 2 /\ y mod 10 = 5).
  { vm_compute in Hs.
    repeat (destruct Hs as [Hs|Hs];
            [injection Hs as H0 H1 H2 H3 _;
             repeat split; apply digit_inj;
             solve [lia | symmetry; assumption]|]).
    contradiction. }
  destruct D as (D3 & D2 & D1 & D0).
  Z.div_mod_to_equations. lia.
Qed.

Lemma es_festivo_2025_check :
  forallb (fun d => implb (es_festivo d) (existsb (Z.eqb d) FESTIVOS_ORD))
    (dias_siguientes 739251 365) = true.
Proof. vm_compute. reflexivity. Qed.

(** Only the six holidays format to a string of the set. *)
Lemma es_festivo_ord d :
  1 <= d <= MAXORD + 7 -> es_festivo d = true -> In d FESTIVOS_ORD.
Proof.
  intros Hd H.
  pose proof (es_festivo_year d H) as Hy.
  pose proof (year_of_range d Hd) as Hr.
  assert (Hy' : year_of d = 2025) by (Z.div_mod_to_equations; lia).
  apply year_of_2025 in Hy'.
  pose proof es_festivo_2025_check as Hc.
  rewrite forallb_forall in Hc.
  assert (Hin : In d (dias_siguientes 739251 365))
    by (apply In_dias_siguientes; lia).
  apply Hc in Hin. rewrite H in Hin.
  unfold FESTIVOS_ORD. simpl in Hin |- *. lia.
Qed.

Lemma es_dia_habil_spec d :
  es_dia_habil d = (negb (5 <=? weekday d) && negb (es_festivo d))%bool.
Proof.
  unfold es_dia_habil, es_festivo. destruct (5 <=? weekday d); reflexivity.
Qed.

Lemma habil_cerca_check :
  forallb (fun d => (es_dia_habil (d + 1) || es_dia_habil (d + 2)
                     || es_dia_habil (d + 3) || es_dia_habil (d + 4))%bool)
    (dias_siguientes 739240 380) = true.
Proof. vm_compute. reflexivity. Qed.

(** Away from the holidays of 2025 a weekday is a business day. *)
Lemma habil_lejos d :
  1 <= d -> d + 4 <= MAXORD -> d <= 739240 \/ 739620 < d ->
  exists k, 1 <= k <= 4 /\ es_dia_habil (d + k) = true.
Proof.
  intros H1 H4 Hfar.
  assert (F : forall k, 1 <= k <= 4 -> es_festivo (d + k) = false).
  { intros k Hk. destruct (es_festivo (d + k)) eqn:E; [|reflexivity].
    apply es_festivo_ord in E; [|unfold MAXORD in *; lia].
    unfold FESTIVOS_ORD in E. simpl in E. lia. }
  assert (W : exists k, 1 <= k <= 4 /\ weekday (d + k) < 5).
  { unfold weekday.
    assert (Hm : 0 <= d mod 7 < 7) by (apply Z.mod_pos_bound; lia).
    destruct (Z_le_gt_dec (d mod 7) 4);
      [exists 1 | destruct (Z.eq_dec (d mod 7) 5);
                 [exists 3 | exists 2]];
      (split; [lia|]); Z.div_mod_to_equations; lia. }
  destruct W as [k [Hk Hw]]. exists k. split; [exact Hk|].
  rewrite es_dia_habil_spec, (F k Hk).
  destruct (5 <=? weekday (d + k)) eqn:E; [|reflexivity].
  apply Z.leb_le in E. lia.
Qed.

(** Every window of four consecutive days holds a business day. *)
Lemma habil_en_cuatro d :
  1 <= d -> d + 4 <= MAXORD ->
  exists k, 1 <= k <= 4 /\ es_dia_habil (d + k) = true.
Proof.
  intros H1 H4.
  destruct (Z_le_gt_dec d 739240) as [Hlo|Hlo];
    [apply habil_lejos; lia|].
  destruct (Z_le_gt_dec d 739620) as [Hhi|Hhi];
    [|apply habil_lejos; lia].
  pose proof habil_cerca_check as Hc. rewrite forallb_forall in Hc.
  assert (Hin : In d (dias_siguientes 739240 380))
    by (apply In_dias_siguientes; lia).
  apply Hc in Hin.
  repeat (apply orb_true_iff in Hin; destruct Hin as [Hin|Hin]);
    [exists 1|exists 2|exists 3|exists 4]; (split; [lia|exact Hin]).
Qed.

Lemma habiles_entre_refl a : habiles_entre a a = 0.
Proof. unfold habiles_entre. rewrite Z.sub_diag. reflexivity. Qed.

Lemma habiles_entre_step a b :
  a < b ->
  habiles_entre a b
  = (if es_dia_habil (a + 1) then 1 else 0) + habiles_entre (a + 1) b.
Proof.
  intros H. unfold habiles_entre.
  replace (Z.to_nat (b - a)) with (S (Z.to_nat (b - (a + 1)))) by lia.
  simpl dias_siguientes. simpl filter.
  destruct (es_dia_habil (a + 1)); simpl List.length; lia.
Qed.

Lemma loop_fin fuel f c n :
  n <= c -> fecha_limite_loop fuel f c n = Done f.
Proof.
  intros H. destruct fuel; simpl;
    (destruct (c <? n) eqn:E; [apply Z.ltb_lt in E; lia|reflexivity]).
Qed.

Lemma dt_add_days_1 f f' :
  dt_add_days f 1 = Some f' ->
  dt_date f' = dt_date f + 1 /\ dt_time f' = dt_time f
  /\ 1 <= dt_date f + 1 <= MAXORD.
Proof.
  unfold dt_add_days, add_days, MINORD.
  destruct ((1 <=? dt_date f + 1) && (dt_date f + 1 <=? MAXORD))%bool eqn:E;
    [|discriminate].
  intros H. injection H as <-. simpl.
  apply andb_true_iff in E. destruct E as [E1 E2].
  apply Z.leb_le in E1, E2. lia.
Qed.

(** What the loop has done when it returns. *)
Lemma loop_correct fuel : forall f c n r,
  fecha_limite_loop fuel f c n = Done r ->
  dt_date f <= dt_date r /\ dt_time r = dt_time f
  /\ habiles_entre (dt_date f) (dt_date r) = Z.max 0 (n - c)
  /\ (c < n -> es_dia_habil (dt_date r) = true
               /\ dt_date f < dt_date r <= MAXORD)
  /\ (n <= c -> r = f).
Proof.
  induction fuel as [|fuel IH]; intros f c n r; simpl;
    destruct (c <? n) eqn:E; try discriminate.
  - intros H. injection H as <-. apply Z.ltb_ge in E.
    rewrite habiles_entre_refl. repeat split; lia.
  - apply Z.ltb_lt in E.
    destruct (dt_add_days f 1) as [f'|] eqn:A; [|discriminate].
    apply dt_add_days_1 in A. destruct A as (A1 & A2 & A3).
    destruct (es_dia_habil (dt_date f')) eqn:Hh; intros H;
      apply IH in H; destruct H as (H1 & H2 & H4 & H5 & H6).
    + destruct (Z_lt_ge_dec (c + 1) n) as [L|L].
      * specialize (H5 L).
        rewrite habiles_entre_step by lia. rewrite <- A1, Hh, H4.
        intuition lia.
      * assert (L' : n <= c + 1) by lia.
        specialize (H6 L'). subst r.
        rewrite habiles_entre_step by lia. rewrite <- A1, Hh.
        rewrite habiles_entre_refl.
        intuition lia.
    + specialize (H5 E).
      rewrite habiles_entre_step by lia. rewrite <- A1, Hh, H4.
      intuition lia.
  - intros H. injection H as <-. apply Z.ltb_ge in E.
    rewrite habiles_entre_refl. repeat split; lia.
Qed.

(** With room before the end of the calendar the loop returns. *)
Lemma loop_returns fuel : forall f c n k,
  1 <= dt_date f -> c < n -> 1 <= k <= 4 ->
  es_dia_habil (dt_date f + k) = true ->
  4 * (n - c - 1) + k <= Z.of_nat fuel ->
  dt_date f + 4 * (n - c - 1) + k <= MAXORD ->
  exists r, fecha_limite_loop fuel f c n = Done r.
Proof.
  induction fuel as [|fuel IH]; intros f c n k Hf Hc Hk Hh Hfuel Hroom.
  - lia.
  - simpl fecha_limite_loop.
    apply Z.ltb_lt in Hc. rewrite Hc. apply Z.ltb_lt in Hc.
    destruct (dt_add_days f 1) as [f'|] eqn:A.
    2:{ unfold dt_add_days, add_days, MINORD in A.
        destruct ((1 <=? dt_date f + 1) && (dt_date f + 1 <=? MAXORD))%bool
          eqn:E; [discriminate|].
        apply andb_false_iff in E.
        destruct E as [E|E]; apply Z.leb_gt in E; lia. }
    apply dt_add_days_1 in A. destruct A as (A1 & A2 & A3).
    destruct (es_dia_habil (dt_date f')) eqn:Hh'.
    + destruct (Z_lt_ge_dec (c + 1) n) as [L|L].
      * destruct (habil_en_cuatro (dt_date f')) as [k' [Hk' Hh2]];
          [lia|lia|].
        apply (IH f' (c + 1) n k'); try lia. exact Hh2.
      * exists f'. apply loop_fin. lia.
    + assert (k <> 1) by (intros ->; rewrite <- A1, Hh' in Hh; discriminate).
      apply (IH f' c n (k - 1)); try lia.
      rewrite A1.
      replace (dt_date f + 1 + (k - 1)) with (dt_date f + k) by lia.
      exact Hh.
Qed.

(** The fuel never runs out before the calendar does. *)
Lemma loop_no_timeout_end fuel : forall f c n,
  dt_date f <= MAXORD -> MAXORD < dt_date f + Z.of_nat fuel ->
  fecha_limite_loop fuel f c n <> Timeout.
Proof.
  induction fuel as [|fuel IH]; intros f c n Hf Hfuel.
  - lia.
  - simpl fecha_limite_loop. destruct (c <? n); [|discriminate].
    destruct (dt_add_days f 1) as [f'|] eqn:A; [|discriminate].
    apply dt_add_days_1 in A. destruct A as (A1 & A2 & A3).
    destruct (es_dia_habil (dt_date f')); apply IH; lia.
Qed.

Lemma fecha_limite_habiles_returns f n :
  1 <= dt_date f -> 1 <= n -> dt_date f + 4 * n <= MAXORD ->
  exists r, fecha_limite_habiles f n = Done r.
Proof.
  intros Hf Hn Hroom. unfold fecha_limite_habiles.
  destruct (habil_en_cuatro (dt_date f)) as [k [Hk Hh]]; [lia|lia|].
  apply (loop_returns _ f 0 n k); try lia. exact Hh.
Qed.

(** [fecha_limite_habiles] returns or raises: the model never runs out of
    fuel. *)
Lemma fecha_limite_habiles_total f n :
  1 <= dt_date f <= MAXORD -> fecha_limite_habiles f n <> Timeout.
Proof.
  intros Hf.
  destruct (Z_lt_ge_dec n 1) as [Hn|Hn].
  - unfold fecha_limite_habiles. rewrite loop_fin by lia. discriminate.
  - destruct (Z_le_gt_dec (dt_date f + 4 * n) MAXORD) as [Hr|Hr].
    + destruct (fecha_limite_habiles_returns f n) as [r Hr']; try lia.
      rewrite Hr'. discriminate.
    + unfold fecha_limite_habiles. apply loop_no_timeout_end; lia.
Qed.

(** C2, as the code has it.  For a start date [f] and a count [n >= 0],
    [fecha_limite_habiles f n] returns whenever [f] plus [4 n] days is still
    a date (otherwise it may raise OverflowError); whenever it returns [r],
    exactly [n] business days lie strictly after [f] up to and including
    [r]; for [n >= 1] the date [r] is a business day, and for [n = 0] it is
    [f] itself, business day or not. *)
Theorem fecha_limite_habiles_spec (f : datetime) (n : Z) :
  1 <= dt_date f <= MAXORD -> 0 <= n ->
  fecha_limite_habiles f n <> Timeout
  /\ (dt_date f + 4 * n <= MAXORD ->
      exists r, fecha_limite_habiles f n = Done r)
  /\ (forall r, fecha_limite_habiles f n = Done r ->
        habiles_entre (dt_date f) (dt_date r) = n
        /\ dt_date f <= dt_date r
        /\ (1 <= n -> es_dia_habil (dt_date r) = true)
        /\ (n = 0 -> r = f)).
Proof.
  intros Hf Hn. split; [apply fecha_limite_habiles_total; exact Hf|].
  split.
  - intros Hroom. destruct (Z.eq_dec n 0) as [->|Hn0].
    + exists f. apply loop_fin. lia.
    + apply fecha_limite_habiles_returns; lia.
  - intros r Hr. apply loop_correct in Hr.
    destruct Hr as (H1 & H2 & H3 & H4 & H5).
    rewrite H3. repeat split; try lia.
    + intros Hn1. apply H4. lia.
    + intros ->. apply H5. lia.
Qed.

(** Thirty business days from Wednesday 2025-01-01 end on 2025-02-12. *)
Lemma fecha_limite_habiles_spec_witness :
  fecha_limite_habiles (combine_min 739252) 30 = Done (combine_min 739294)
  /\ habiles_entre 739252 739294 = 30
  /\ es_dia_habil 739294 = true.
Proof.
  destruct (fecha_limite_habiles_spec (combine_min 739252) 30)
    as (_ & _ & H); [simpl; unfold MAXORD; lia | lia |].
  assert (E : fecha_limite_habiles (combine_min 739252) 30
              = Done (combine_min 739294)) by (vm_compute; reflexivity).
  destruct (H _ E) as (H1 & _ & H2 & _).
  split; [exact E|]. split; [exact H1|]. apply H2. lia.
Defined.

(** C2 as stated fails for [n = 0]: from Saturday 2025-01-04 the function
    returns that Saturday, which is not a business day. *)
Lemma fecha_limite_habiles_cero_no_habil :
  mk_date 2025 1 4 = Some 739255
  /\ fecha_limite_habiles (combine_min 739255) 0 = Done (combine_min 739255)
  /\ weekday 739255 = 5
  /\ es_dia_habil 739255 = false.
Proof. vm_compute. repeat split; reflexivity. Qed.

(* ================================================================== *)
(** * Properties of the validity check *)
(* ================================================================== *)

(** C1.  For an item with a validity window of [v] business days (any
    non-zero [v], as the code tests [if vig]), an accepted document whose
    issuance date resolves to [d], a reception date that resolves to [r] and
    a limit [fecha_limite_habiles(d, v)] that exists, the state set by the
    validity check, before the confidence and signature overrides, is
    Complete exactly when [r] is on or before the limit and Missing exactly
    when [r] is after it. *)
Theorem etapa_vigencia_limite
    (parse_date : str -> option datetime) (hoy : Z)
    (it : item) (doc : documento) (recepcion : option fecha_obj)
    (v d r : Z) (limite : datetime) :
  vigencia_dias it = Some v -> v <> 0 ->
  fst (fst (resolver_fecha parse_date hoy it doc)) = Some d ->
  obtener_fecha_date parse_date recepcion = Some r ->
  fecha_limite_habiles (combine_min d) v = Done limite ->
  let e := fst (fst (etapa_vigencia parse_date hoy it doc recepcion)) in
  (e = C <-> r <= dt_date limite) /\ (e = Falta <-> dt_date limite < r).
Proof.
  intros Hv Hv0 Hd Hr Hl. unfold etapa_vigencia, vigencia_de.
  rewrite Hv. apply Z.eqb_neq in Hv0. rewrite Hv0.
  destruct (resolver_fecha parse_date hoy it doc) as [[fd obs] doc'].
  simpl in Hd. subst fd. unfold comparar_vigencia. rewrite Hr, Hl.
  destruct (r <=? dt_date limite) eqn:E; simpl.
  - apply Z.leb_le in E. split; split; intros H;
      try reflexivity; try discriminate; lia.
  - apply Z.leb_gt in E. split; split; intros H;
      try reflexivity; try discriminate; lia.
Qed.

(** A bank certificate issued on 2025-01-15 with a window of 30 business
    days: the limit is 2025-02-26, and a reception on that very day is
    Complete. *)
Lemma etapa_vigencia_limite_witness :
  fecha_limite_habiles (combine_min 739266) 30 = Done (combine_min 739308)
  /\ fst (fst (etapa_vigencia sin_dateutil ej_hoy ej_cert_bancaria
                 ej_doc_bancario (Some (FDate 739308)))) = C.
Proof.
  assert (E : fecha_limite_habiles (combine_min 739266) 30
              = Done (combine_min 739308)) by (vm_compute; reflexivity).
  split; [exact E|].
  apply (etapa_vigencia_limite sin_dateutil ej_hoy ej_cert_bancaria
           ej_doc_bancario (Some (FDate 739308)) 30 739266 739308
           (combine_min 739308)).
  - reflexivity.
  - lia.
  - vm_compute. reflexivity.
  - reflexivity.
  - exact E.
  - simpl. lia.
Defined.

(* ================================================================== *)
(** * Properties of the date selection *)
(* ================================================================== *)

Lemma In_insertar x y l : In y (insertar x l) <-> y = x \/ In y l.
Proof.
  induction l as [|z l IH]; simpl.
  - intuition.
  - destruct (x <? z) eqn:E1; [simpl; intuition|].
    destruct (x =? z) eqn:E2.
    + apply Z.eqb_eq in E2. subst. simpl. intuition.
    + simpl. rewrite IH. intuition.
Qed.

Lemma In_sorted_set y l : In y (sorted_set l) <-> In y l.
Proof.
  induction l as [|x l IH]; simpl; [tauto|].
  rewrite In_insertar, IH. intuition.
Qed.

Lemma sorted_set_nil l : sorted_set l = [] -> l = [].
Proof.
  destruct l as [|x l]; [reflexivity|]. intros H.
  assert (I : In x (sorted_set (x :: l))) by (apply In_sorted_set; left; reflexivity).
  rewrite H in I. destruct I.
Qed.

(** [max] returns an element that bounds all the others. *)
Lemma py_max_spec xs : forall x,
  In (py_max x xs) (x :: xs) /\ forall y, In y (x :: xs) -> y <= py_max x xs.
Proof.
  induction xs as [|z xs IH]; intros x; simpl.
  - split; [left; reflexivity|]. intros y [->|[]]. lia.
  - destruct (IH (if x <? z then z else x)) as [H1 H2]. split.
    + destruct H1 as [H1|H1]; [|right; right; exact H1].
      destruct (x <? z); [right; left|left]; exact H1.
    + intros y Hy.
      assert (B : x <= py_max (if x <? z then z else x) xs
                  /\ z <= py_max (if x <? z then z else x) xs).
      { specialize (H2 (if x <? z then z else x) (or_introl eq_refl)).
        destruct (x <? z) eqn:E;
          [apply Z.ltb_lt in E|apply Z.ltb_ge in E]; lia. }
      destruct Hy as [<-|[<-|Hy]]; [lia|lia|].
      apply H2. right. exact Hy.
Qed.

Lemma es_maximo_ext m l l' :
  (forall y, In y l <-> In y l') -> es_maximo m l -> es_maximo m l'.
Proof.
  intros E [H1 H2]. split; [apply E; exact H1|].
  intros y Hy. apply H2, E, Hy.
Qed.

Lemma seleccionar_fecha_spec hoy fechas :
  match seleccionar_fecha hoy fechas with
  | None => fechas = []
  | Some m =>
      (filter (en_ventana hoy) fechas <> [] ->
       es_maximo m (filter (en_ventana hoy) fechas))
      /\ (filter (en_ventana hoy) fechas = [] -> es_maximo m fechas)
      /\ In m fechas
  end.
Proof.
  destruct fechas as [|f [|g rest]].
  - reflexivity.
  - assert (M : es_maximo f [f]).
    { split; [left; reflexivity|]. intros y [<-|[]]. lia. }
    simpl. destruct (en_ventana hoy f).
    + split; [intros _; exact M|]. split; [discriminate|left; reflexivity].
    + split; [congruence|]. split; [intros _; exact M|left; reflexivity].
  - unfold seleccionar_fecha.
    destruct (filter (en_ventana hoy) (f :: g :: rest)) as [|a val] eqn:F.
    + pose proof (py_max_spec (tl (f :: g :: rest)) f) as P.
      split; [congruence|]. split; [intros _; exact P|apply P].
    + pose proof (py_max_spec val a) as P.
      split; [intros _; exact P|]. split; [discriminate|].
      destruct P as [P _]. rewrite <- F in P.
      apply filter_In in P. apply P.
Qed.

(** The selection, with the window as [en_ventana] tests it. *)
Lemma extraer_fecha_mejorada_en_ventana
    (parse_date : str -> option datetime) (hoy : Z)
    (texto : str) (contexto_bancario : bool) :
  let candidatas := fechas_encontradas parse_date texto contexto_bancario in
  let en_rango := filter (en_ventana hoy) candidatas in
  let r := extraer_fecha_mejorada parse_date hoy texto contexto_bancario in
  (candidatas = [] -> r = None)
  /\ (candidatas <> [] ->
      exists m, r = Some m
                /\ (en_rango <> [] -> es_maximo m en_rango)
                /\ (en_rango = [] -> es_maximo m candidatas)).
Proof.
  intros candidatas en_rango r.
  unfold r, extraer_fecha_mejorada, extraer_todas_fechas_texto.
  fold candidatas.
  pose proof (seleccionar_fecha_spec hoy (sorted_set candidatas)) as S.
  assert (EF : forall y, In y (filter (en_ventana hoy) (sorted_set candidatas))
                         <-> In y en_rango).
  { intros y. unfold en_rango. rewrite !filter_In, In_sorted_set. tauto. }
  assert (EN : filter (en_ventana hoy) (sorted_set candidatas) = []
               <-> en_rango = []).
  { split; intros H.
    - destruct en_rango as [|a l] eqn:E; [reflexivity|].
      assert (I : In a (filter (en_ventana hoy) (sorted_set candidatas)))
        by (apply EF; left; reflexivity).
      rewrite H in I. destruct I.
    - destruct (filter (en_ventana hoy) (sorted_set candidatas))
        as [|a l] eqn:E; [reflexivity|].
      assert (I : In a en_rango) by (apply EF; left; reflexivity).
      rewrite H in I. destruct I. }
  split.
  - intros ->. reflexivity.
  - intros Hne.
    destruct (seleccionar_fecha hoy (sorted_set candidatas)) as [m|].
    + exists m. destruct S as (S1 & S2 & _).
      split; [reflexivity|]. split.
      * intros H. apply (es_maximo_ext m _ _ EF). apply S1.
        intros H'. apply H, EN, H'.
      * intros H. apply (es_maximo_ext m (sorted_set candidatas)).
        -- intros y. apply In_sorted_set.
        -- apply S2, EN, H.
    + apply sorted_set_nil in S. contradiction.
Qed.

(** The bounds of the window, in days. *)
Lemma en_ventana_dias hoy f :
  en_ventana hoy f = ((hoy - 1825 <=? f) && (f <=? hoy + 365))%bool.
Proof. reflexivity. Qed.

(** C4, as the code has it.  When no strategy yields a date,
    [extraer_fecha_mejorada] returns nothing.  When the strategies yield
    dates, it returns the greatest of the candidates from 1825 days before
    today to 365 days after today, both days included, if some candidate
    lies there, and the greatest of all candidates otherwise.  The window is
    counted in days, five times 365 and 365, not in years of the calendar.
    The result is a function of the text and the clock alone, and no case
    raises. *)
Theorem extraer_fecha_mejorada_spec
    (parse_date : str -> option datetime) (hoy : Z)
    (texto : str) (contexto_bancario : bool) :
  let candidatas := fechas_encontradas parse_date texto contexto_bancario in
  let en_rango :=
    filter (fun f => ((hoy - 1825 <=? f) && (f <=? hoy + 365))%bool)
      candidatas in
  let r := extraer_fecha_mejorada parse_date hoy texto contexto_bancario in
  (candidatas = [] -> r = None)
  /\ (candidatas <> [] ->
      exists m, r = Some m
                /\ (en_rango <> [] -> es_maximo m en_rango)
                /\ (en_rango = [] -> es_maximo m candidatas)).
Proof.
  intros candidatas en_rango r.
  assert (E : en_rango = filter (en_ventana hoy) candidatas).
  { unfold en_rango. apply filter_ext. intros f. symmetry.
    apply en_ventana_dias. }
  rewrite E. unfold r, candidatas.
  apply (extraer_fecha_mejorada_en_ventana parse_date hoy texto
           contexto_bancario).
Qed.

(** Two dates in the text, the later one more than 365 days ahead of the
    clock: the earlier one is selected, which is not the greatest of the
    candidates. *)
Lemma extraer_fecha_mejorada_spec_witness :
  fechas_encontradas sin_dateutil
    (L1 "del 15 de enero de 2025 y del 3 de marzo de 2030") false
  = [739266; 741139]
  /\ extraer_fecha_mejorada sin_dateutil ej_hoy
       (L1 "del 15 de enero de 2025 y del 3 de marzo de 2030") false
     = Some 739266.
Proof.
  split; [vm_compute; reflexivity|].
  destruct (extraer_fecha_mejorada_spec sin_dateutil ej_hoy
              (L1 "del 15 de enero de 2025 y del 3 de marzo de 2030") false)
    as [_ H].
  destruct H as [m [Hm [H1 _]]].
  - vm_compute. discriminate.
  - rewrite Hm. f_equal.
    assert (E : filter (fun f => ((ej_hoy - 1825 <=? f)
                                  && (f <=? ej_hoy + 365))%bool)
                  (fechas_encontradas sin_dateutil
                     (L1 "del 15 de enero de 2025 y del 3 de marzo de 2030")
                     false) = [739266])
      by (vm_compute; reflexivity).
    rewrite E in H1. destruct H1 as [[<-|[]] _]; [discriminate|reflexivity].
Defined.

(** C4 as stated fails where the two windows differ.  On 2026-11-03 the
    text holds 2021-11-03 and 2027-11-04.  Five years back is 2021-11-03
    and one year on is 2027-11-03, so the window of the claim holds the
    first date and the claim selects it.  The code counts 1825 and 365
    days: its window starts on 2021-11-04, for the leap day of 2024, and
    ends on 2027-11-03, holds neither date, and the code returns the
    greatest of all, 2027-11-04. *)
Lemma extraer_fecha_mejorada_ventana_anios :
  let texto := L1 "3 de noviembre de 2021 y 4 de noviembre de 2027" in
  mk_date 2026 11 3 = Some 739923
  /\ mk_date 2021 11 3 = Some 738097
  /\ mk_date 2027 11 4 = Some 740289
  /\ extraer_todas_fechas_texto sin_dateutil texto false = [738097; 740289]
  /\ filter (en_ventana_anios 2026 11 3) [738097; 740289] = [738097]
  /\ filter (en_ventana 739923) [738097; 740289] = []
  /\ extraer_fecha_mejorada sin_dateutil 739923 texto false = Some 740289.
Proof. vm_compute. repeat split; reflexivity. Qed.

(* ================================================================== *)
(** * Properties of the page aggregation *)
(* ================================================================== *)

Section AgruparProps.

Variable np_mean : list float -> float.









End AgruparProps.

(* ================================================================== *)
(** * Properties of the classifier *)
(* ================================================================== *)

Lemma cuenta_cons {A : Type} (p : A -> bool) x l :
  cuenta p (x :: l) = (if p x then 1 else 0) + cuenta p l.
Proof.
  unfold cuenta. simpl. destruct (p x); simpl List.length; lia.
Qed.

Lemma cuenta_nonneg {A : Type} (p : A -> bool) l : 0 <= cuenta p l.
Proof. unfold cuenta. lia. Qed.

Lemma puntaje_nonneg n t kws : 0 <= puntaje n t kws.
Proof.
  unfold puntaje.
  pose proof (cuenta_nonneg (en_nombre n) kws).
  pose proof (cuenta_nonneg (en_texto t) kws).
  pose proof (cuenta_nonneg (con_bonus t) kws). lia.
Qed.

Lemma paso_keyword_suma n t score kw :
  paso_keyword n t score kw
  = score + 3 * (if en_nombre n kw then 1 else 0)
    + (if en_texto t kw then 1 else 0)
    + 2 * (if con_bonus t kw then 1 else 0).
Proof.
  unfold paso_keyword, en_nombre, en_texto, con_bonus, keyword_normalized.
  destruct (contains (lower n) (sin_tildes (lower kw)));
    destruct (contains t (sin_tildes (lower kw)));
    destruct (1 <? List.length (split_ws (sin_tildes (lower kw))))%nat;
    destruct (forallb (contains t) (split_ws (sin_tildes (lower kw))));
    simpl; lia.
Qed.

Lemma fold_paso_keyword n t kws : forall score,
  fold_left (paso_keyword n t) kws score = score + puntaje n t kws.
Proof.
  induction kws as [|kw kws IH]; intros score; simpl.
  - unfold puntaje, cuenta. simpl. lia.
  - rewrite IH, paso_keyword_suma. unfold puntaje.
    rewrite !cuenta_cons. lia.
Qed.

(** The loop of the source computes the closed form. *)
Lemma score_tipo_puntaje n t kws : score_tipo n t kws = puntaje n t kws.
Proof. unfold score_tipo. rewrite fold_paso_keyword. lia. Qed.

(** [max(scores, key=scores.get)] is the first key of greatest value. *)
Lemma max_key_first rest : forall pre best mid,
  (forall x, In x pre -> snd x < snd best) ->
  (forall x, In x mid -> snd x <= snd best) ->
  exists pre' kv post',
    pre ++ best :: mid ++ rest = pre' ++ kv :: post'
    /\ max_key best rest = fst kv
    /\ (forall x, In x pre' -> snd x < snd kv)
    /\ (forall x, In x post' -> snd x <= snd kv).
Proof.
  induction rest as [|y rest IH]; intros pre best mid Hpre Hmid.
  - exists pre, best, mid. rewrite app_nil_r. auto.
  - simpl max_key. destruct (snd best <? snd y) eqn:E.
    + apply Z.ltb_lt in E.
      destruct (IH (pre ++ best :: mid) y []) as (p' & kv & q' & H1 & H2 & H3).
      * intros x Hx. apply in_app_or in Hx.
        destruct Hx as [Hx|[<-|Hx]];
          [specialize (Hpre x Hx)| |specialize (Hmid x Hx)]; lia.
      * intros x [].
      * exists p', kv, q'. split; [|exact (conj H2 H3)].
        rewrite <- H1. rewrite <- app_assoc. reflexivity.
    + apply Z.ltb_ge in E.
      destruct (IH pre best (mid ++ [y])) as (p' & kv & q' & H1 & H2 & H3).
      * exact Hpre.
      * intros x Hx. apply in_app_or in Hx.
        destruct Hx as [Hx|[<-|[]]]; [apply Hmid; exact Hx|lia].
      * exists p', kv, q'. split; [|exact (conj H2 H3)].
        rewrite <- H1. rewrite <- app_assoc. reflexivity.
Qed.

Lemma map_eq_split {A B : Type} (f : A -> B) l : forall p y q,
  map f l = p ++ y :: q ->
  exists p' x q', l = p' ++ x :: q' /\ map f p' = p /\ f x = y
                  /\ map f q' = q.
Proof.
  induction l as [|a l IH]; intros p y q H.
  - destruct p; discriminate.
  - destruct p as [|b p]; simpl in H; injection H as H1 H2.
    + exists [], a, l. auto.
    + destruct (IH _ _ _ H2) as (p' & x & q' & -> & E1 & E2 & E3).
      exists (a :: p'), x, q'. simpl. subst. auto.
Qed.

Lemma doc_keywords_no_otro :
  forallb (fun kv => negb (str_eqb (fst kv) (L1 "otro"))) DOC_KEYWORDS = true.
Proof. vm_compute. reflexivity. Qed.

(** The classification over any table of distinct types. *)
Lemma clasificar_con_spec tabla nombre_archivo texto_ocr :
  let tc := texto_completo_de nombre_archivo texto_ocr in
  let p := puntaje nombre_archivo tc in
  let r := clasificar_con tabla nombre_archivo texto_ocr in
  ((forall kv, In kv tabla -> p (snd kv) = 0) -> r = L1 "otro")
  /\ ((exists kv, In kv tabla /\ p (snd kv) <> 0) ->
      exists pre kv post,
        tabla = pre ++ kv :: post /\ r = fst kv
        /\ (forall x, In x pre -> p (snd x) < p (snd kv))
        /\ (forall x, In x post -> p (snd x) <= p (snd kv))).
Proof.
  intros tc p r. unfold r, clasificar_con, scores_de. fold tc.
  set (f := fun kv : str * list str =>
              (fst kv, score_tipo nombre_archivo tc (snd kv))).
  assert (Ef : forall kv, snd (f kv) = p (snd kv)).
  { intros kv. unfold f, p. simpl. apply score_tipo_puntaje. }
  destruct tabla as [|kv0 tabla].
  - split; [reflexivity|]. intros [kv [[] _]].
  - simpl map.
    pose proof (py_max_spec (map snd (map f tabla)) (snd (f kv0))) as [M1 M2].
    set (m := py_max (snd (f kv0)) (map snd (map f tabla))) in *.
    assert (A : forall kv, In kv (kv0 :: tabla) -> p (snd kv) <= m).
    { intros kv Hk. rewrite <- Ef. apply M2.
      change (In (snd (f kv)) (map snd (map f (kv0 :: tabla)))).
      apply in_map, in_map, Hk. }
    assert (B : exists kv, In kv (kv0 :: tabla) /\ p (snd kv) = m).
    { change (In m (map snd (map f (kv0 :: tabla)))) in M1.
      rewrite map_map in M1. apply in_map_iff in M1.
      destruct M1 as [kv [E Hk]]. exists kv. rewrite <- Ef. auto. }
    split.
    + intros Z0. destruct B as [kv [Hk E]]. rewrite (Z0 kv Hk) in E.
      rewrite <- E. reflexivity.
    + intros [kv [Hk Hn]].
      assert (Hm : (m =? 0) = false).
      { apply Z.eqb_neq. pose proof (A kv Hk).
        pose proof (puntaje_nonneg nombre_archivo tc (snd kv)).
        fold p in H0. lia. }
      rewrite Hm.
      destruct (max_key_first (map f tabla) [] (f kv0) [])
        as (p' & y & q' & H1 & H2 & H3 & H4);
        [intros x []|intros x []|].
      simpl in H1.
      destruct (map_eq_split f (kv0 :: tabla) p' y q' H1)
        as (pre & x & post & E1 & E2 & E3 & E4).
      exists pre, x, post. split; [exact E1|]. split.
      * rewrite H2, <- E3. reflexivity.
      * subst p' y q'. split; intros z Hz; rewrite <- !Ef.
        -- apply H3, in_map, Hz.
        -- apply H4, in_map, Hz.
Qed.

(** The scores as the code computes them.  [clasificar_documento_robusto]
    gives every type of [DOC_KEYWORDS] the score 3 per keyword found in the
    lower-cased filename (accents and punctuation kept), plus 1 per keyword
    found in the normalised filename-and-text, plus 2 per keyword of several
    words whose words all occur in that text; it returns "otro" exactly when
    every score is zero, and otherwise the first type, in the order of the
    table, whose score is greatest.  The filename
    "certificacion_bancaria_empresa.pdf" with an empty text is classified
    "cert_bancaria". *)
Theorem clasificar_documento_robusto_spec (nombre_archivo texto_ocr : str) :
  let tc := texto_completo_de nombre_archivo texto_ocr in
  let p := puntaje nombre_archivo tc in
  let r := clasificar_documento_robusto nombre_archivo texto_ocr in
  scores_de DOC_KEYWORDS nombre_archivo texto_ocr
  = map (fun kv => (fst kv, p (snd kv))) DOC_KEYWORDS
  /\ (r = L1 "otro" <-> forall kv, In kv DOC_KEYWORDS -> p (snd kv) = 0)
  /\ ((exists kv, In kv DOC_KEYWORDS /\ p (snd kv) <> 0) ->
      exists pre kv post,
        DOC_KEYWORDS = pre ++ kv :: post /\ r = fst kv
        /\ (forall x, In x pre -> p (snd x) < p (snd kv))
        /\ (forall x, In x post -> p (snd x) <= p (snd kv)))
  /\ clasificar_documento_robusto
       (L1 "certificacion_bancaria_empresa.pdf") [] = L1 "cert_bancaria".
Proof.
  intros tc p r.
  pose proof (clasificar_con_spec DOC_KEYWORDS nombre_archivo texto_ocr)
    as H.
  cbv zeta in H. destruct H as [H0 H1].
  unfold r, p, tc, clasificar_documento_robusto.
  split.
  { unfold scores_de. apply map_ext. intros kv.
    rewrite score_tipo_puntaje. reflexivity. }
  split; [|split; [exact H1|vm_compute; reflexivity]].
  split; [|exact H0].
  intros Hr kv Hk.
  match goal with |- ?x = 0 => destruct (Z.eq_dec x 0) as [E|E] end;
    [exact E|].
  destruct H1 as (pre & x & post & E1 & E2 & _); [exists kv; auto|].
  pose proof doc_keywords_no_otro as N. rewrite forallb_forall in N.
  assert (Hx : In x DOC_KEYWORDS) by (rewrite E1; apply in_elt).
  specialize (N x Hx). rewrite <- E2, Hr, str_eqb_refl in N. discriminate.
Qed.

(** The bank certificate named in C8: the greatest score is the one of
    "cert_bancaria", the fourth type of the table. *)
Lemma clasificar_documento_robusto_spec_witness :
  exists pre kv post,
    DOC_KEYWORDS = pre ++ kv :: post
    /\ clasificar_documento_robusto
         (L1 "certificacion_bancaria_empresa.pdf") [] = fst kv
    /\ fst kv = L1 "cert_bancaria".
Proof.
  destruct (clasificar_documento_robusto_spec
              (L1 "certificacion_bancaria_empresa.pdf") [])
    as (_ & _ & H & E).
  destruct H as (pre & kv & post & H1 & H2 & _).
  - exists (nth 3 DOC_KEYWORDS ([], [])). split.
    + vm_compute. do 3 right. left. reflexivity.
    + vm_compute. discriminate.
  - exists pre, kv, post. split; [exact H1|]. split; [exact H2|].
    rewrite <- H2. exact E.
Defined.

(** C8.  The code does not score the filename as the claim says.  The
    keyword is lower-cased and stripped of its accents, the filename is
    only lower-cased, while for the combined text both are normalised.  So
    the keyword "resolución" of the type "resolucion", which stands in the
    filename "resolución contrato.pdf" letter for letter, is not found in
    it and earns none of the 3 points of the filename: with an empty text
    the code scores "resolucion" 2 and "contrato" 4 and returns "contrato".
    With the filename normalised, as the claim has it, "resolucion" scores
    8, "contrato" 4 and every other type less than 8, and the type of the
    greatest score is "resolucion". *)
Lemma clasificar_nombre_con_tilde :
  let n := L1 "resolución contrato.pdf" in
  let tc := texto_completo_de n [] in
  let kws t := snd (nth t DOC_KEYWORDS ([], [])) in
  fst (nth 5 DOC_KEYWORDS ([], [])) = L1 "resolucion"
  /\ fst (nth 8 DOC_KEYWORDS ([], [])) = L1 "contrato"
  /\ In (L1 "resolución") (kws 5%nat)
  /\ contains (lower n) (L1 "resolución") = true
  /\ en_nombre n (L1 "resolución") = false
  /\ en_texto tc (L1 "resolución") = true
  /\ clasificar_documento_robusto n [] = L1 "contrato"
  /\ score_tipo n tc (kws 5%nat) = 2
  /\ score_tipo n tc (kws 8%nat) = 4
  /\ puntaje_nombre_normalizado n tc (kws 5%nat) = 8
  /\ puntaje_nombre_normalizado n tc (kws 8%nat) = 4
  /\ Forall (fun kv => fst kv <> L1 "resolucion" ->
                       puntaje_nombre_normalizado n tc (snd kv) < 8)
       DOC_KEYWORDS.
Proof.
  cbv zeta.
  assert (I : existsb (str_eqb (L1 "resolución"))
                (snd (nth 5 DOC_KEYWORDS ([], []))) = true)
    by (vm_compute; reflexivity).
  assert (F : forallb
                (fun kv =>
                   (str_eqb (fst kv) (L1 "resolucion")
                    || (puntaje_nombre_normalizado
                          (L1 "resolución contrato.pdf")
                          (texto_completo_de (L1 "resolución contrato.pdf")
                             [])
                          (snd kv) <? 8))%bool)
                DOC_KEYWORDS = true)
    by (vm_compute; reflexivity).
  split; [vm_compute; reflexivity|]. split; [vm_compute; reflexivity|].
  split.
  { apply existsb_exists in I. destruct I as [k [Hk E]].
    apply str_eqb_eq in E. rewrite E. exact Hk. }
  split; [vm_compute; reflexivity|]. split; [vm_compute; reflexivity|].
  split; [vm_compute; reflexivity|]. split; [vm_compute; reflexivity|].
  split; [vm_compute; reflexivity|]. split; [vm_compute; reflexivity|].
  split; [vm_compute; reflexivity|]. split; [vm_compute; reflexivity|].
  apply Forall_forall. intros kv Hkv N.
  rewrite forallb_forall in F. specialize (F kv Hkv).
  apply orb_true_iff in F. destruct F as [F|F].
  - apply str_eqb_eq in F. contradiction.
  - apply Z.ltb_lt. exact F.
Qed.

(* ================================================================== *)
(** * Properties of the checklist evaluation *)
(* ================================================================== *)

Section EvaluarProps.

Variable parse_date : str -> option datetime.
Variable hoy : Z.
Variable it : item.
Variable archivo_inferido : option (list str).
Variable fecha_recepcion_dt : option fecha_obj.

Let loop := evaluar_loop parse_date hoy it archivo_inferido fecha_recepcion_dt.
Let eval_doc := evaluar_doc parse_date hoy it archivo_inferido fecha_recepcion_dt.

(** Documents below the threshold leave the result as it is. *)
Lemma evaluar_loop_no_aceptados docs : forall acc,
  (forall x, In x docs -> aceptado it archivo_inferido x = false) ->
  fst (loop docs acc) = acc.
Proof.
  induction docs as [|d docs IH]; intros acc H; [reflexivity|].
  unfold loop in *. simpl.
  rewrite (H d (or_introl eq_refl)).
  specialize (IH acc (fun x Hx => H x (or_intror Hx))).
  destruct (evaluar_loop parse_date hoy it archivo_inferido
              fecha_recepcion_dt docs acc) as [r rest].
  exact IH.
Qed.

(** The evidence only grows. *)
Lemma evaluar_loop_archivos docs : forall acc,
  exists l, r_archivos (fst (loop docs acc)) = r_archivos acc ++ l.
Proof.
  induction docs as [|d docs IH]; intros acc.
  - exists []. rewrite app_nil_r. reflexivity.
  - unfold loop in *. simpl.
    destruct (aceptado it archivo_inferido d).
    + destruct (evaluar_doc parse_date hoy it archivo_inferido
                  fecha_recepcion_dt d) as [[e obs] doc'].
      match goal with
      | |- context [evaluar_loop _ _ _ _ _ docs ?a] =>
          destruct (IH a) as [l Hl];
          destruct (evaluar_loop parse_date hoy it archivo_inferido
                      fecha_recepcion_dt docs a) as [r rest]
      end.
      simpl in *. exists ((archivo d, paginas d) :: l).
      rewrite Hl, <- app_assoc. reflexivity.
    + destruct (IH acc) as [l Hl].
      destruct (evaluar_loop parse_date hoy it archivo_inferido
                  fecha_recepcion_dt docs acc) as [r rest].
      exists l. exact Hl.
Qed.

(** The state left by the loop is the one set for the last accepted
    document. *)
Lemma evaluar_loop_ultimo pre : forall d post acc,
  aceptado it archivo_inferido d = true ->
  (forall x, In x post -> aceptado it archivo_inferido x = false) ->
  r_estado (fst (loop (pre ++ d :: post) acc)) = fst (fst (eval_doc d))
  /\ r_archivos (fst (loop (pre ++ d :: post) acc)) <> [].
Proof.
  induction pre as [|x pre IH]; intros d post acc Hd Hpost.
  - unfold loop, eval_doc in *. simpl. rewrite Hd.
    destruct (evaluar_doc parse_date hoy it archivo_inferido
                fecha_recepcion_dt d) as [[e obs] doc'].
    match goal with
    | |- context [evaluar_loop _ _ _ _ _ post ?a] =>
        pose proof (evaluar_loop_no_aceptados post a Hpost) as E;
        unfold loop in E;
        destruct (evaluar_loop parse_date hoy it archivo_inferido
                    fecha_recepcion_dt post a) as [r rest]
    end.
    simpl in *. subst r. simpl. split; [reflexivity|].
    destruct (r_archivos acc); discriminate.
  - unfold loop, eval_doc in *. simpl.
    destruct (aceptado it archivo_inferido x).
    + destruct (evaluar_doc parse_date hoy it archivo_inferido
                  fecha_recepcion_dt x) as [[e obs] doc'].
      match goal with
      | |- context [evaluar_loop _ _ _ _ _ (pre ++ d :: post) ?a] =>
          pose proof (IH d post a Hd Hpost) as E;
          destruct (evaluar_loop parse_date hoy it archivo_inferido
                      fecha_recepcion_dt (pre ++ d :: post) a) as [r rest]
      end.
      exact E.
    + pose proof (IH d post acc Hd Hpost) as E.
      destruct (evaluar_loop parse_date hoy it archivo_inferido
                  fecha_recepcion_dt (pre ++ d :: post) acc) as [r rest].
      exact E.
Qed.

End EvaluarProps.

(** C5, as the code has it.  For an item that passes the applicability
    gate and a list of documents of which at least one meets the acceptance
    threshold, the state returned by [evaluar_item] is the one set for the
    LAST document that meets it: the loop has no exit, every accepted
    document is evaluated and overwrites the state left by the one before. *)
Theorem evaluar_item_ultimo_documento
    (parse_date : str -> option datetime) (hoy : Z) (it : item)
    (fecha_recepcion_dt : option fecha_obj) (peticionario_tipo : str)
    (archivo_inferido : option (list str))
    (pre : list documento) (d : documento) (post : list documento) :
  no_aplica it peticionario_tipo = None ->
  aceptado it archivo_inferido d = true ->
  (forall x, In x post -> aceptado it archivo_inferido x = false) ->
  r_estado (fst (evaluar_item parse_date hoy it (pre ++ d :: post)
                   fecha_recepcion_dt peticionario_tipo archivo_inferido))
  = fst (fst (evaluar_doc parse_date hoy it archivo_inferido
                fecha_recepcion_dt d)).
Proof.
  intros Hg Hd Hpost. unfold evaluar_item. rewrite Hg.
  pose proof (evaluar_loop_ultimo parse_date hoy it archivo_inferido
                fecha_recepcion_dt pre d post (Build_resultado Falta [] [])
                Hd Hpost) as [E1 E2].
  destruct (evaluar_loop parse_date hoy it archivo_inferido
              fecha_recepcion_dt (pre ++ d :: post)
              (Build_resultado Falta [] [])) as [r rest].
  simpl in E1, E2. destruct (r_archivos r); [contradiction|exact E1].
Qed.

(** A clear copy of the RUT followed by a blurred one: the state is the
    one of the blurred copy. *)
Lemma evaluar_item_ultimo_documento_witness :
  r_estado (fst (evaluar_item sin_dateutil ej_hoy ej_rut
                   ([ej_doc_rut_claro] ++ ej_doc_rut_borroso :: [])
                   (Some (FDate 739700)) (L1 "persona_juridica") None))
  = Revision.
Proof.
  etransitivity.
  - apply (evaluar_item_ultimo_documento sin_dateutil ej_hoy ej_rut
             (Some (FDate 739700)) (L1 "persona_juridica") None
             [ej_doc_rut_claro] ej_doc_rut_borroso []).
    + vm_compute. reflexivity.
    + vm_compute. reflexivity.
    + intros x [].
  - vm_compute. reflexivity.
Defined.

(** C5 as stated fails: the first document that meets the threshold is
    Complete on its own, and a second one changes the state returned. *)
Lemma evaluar_item_no_primer_documento :
  aceptado ej_rut None ej_doc_rut_claro = true
  /\ fst (fst (evaluar_doc sin_dateutil ej_hoy ej_rut None
                 (Some (FDate 739700)) ej_doc_rut_claro)) = C
  /\ r_estado (fst (evaluar_item sin_dateutil ej_hoy ej_rut
                      [ej_doc_rut_claro] (Some (FDate 739700))
                      (L1 "persona_juridica") None)) = C
  /\ r_estado (fst (evaluar_item sin_dateutil ej_hoy ej_rut
                      [ej_doc_rut_claro; ej_doc_rut_borroso]
                      (Some (FDate 739700)) (L1 "persona_juridica") None))
     = Revision.
Proof. vm_compute. repeat split; reflexivity. Qed.

(** The confidence override does not look at the state it replaces. *)
Lemma override_confianza_baja doc s :
  conf_baja doc = true -> fst (override_confianza doc s) = Revision.
Proof. intros H. unfold override_confianza. rewrite H. reflexivity. Qed.

(** C6 at its failing input: a chamber-of-commerce certificate issued on
    2025-01-15 and received on 2026-03-25 is Missing after the validity
    check (the limit was 2025-05-23), and the confidence override, the OCR
    confidence being 10, turns that Missing into NeedsReview. *)
Lemma override_confianza_pisa_falta :
  aceptado ej_camara None ej_doc_camara_vencido = true
  /\ fst (fst (etapa_vigencia sin_dateutil ej_hoy ej_camara
                 ej_doc_camara_vencido (Some (FDate 739700)))) = Falta
  /\ fst (override_confianza ej_doc_camara_vencido (Falta, [])) = Revision
  /\ r_estado (fst (evaluar_item sin_dateutil ej_hoy ej_camara
                      [ej_doc_camara_vencido] (Some (FDate 739700))
                      (L1 "persona_juridica") None)) = Revision.
Proof. vm_compute. repeat split; reflexivity. Qed.

(* ================================================================== *)
(** * The numeric date pass and the filename inference at given inputs *)
(* ================================================================== *)

Lemma int_of_digits_nonneg s : forall acc,
  0 <= acc -> forallb is_digit s = true ->
  0 <= fold_left (fun a c => 10 * a + (Z.of_N (code c) - 48)) s acc.
Proof.
  induction s as [|c s IH]; intros acc Ha Hs; cbn [fold_left];
    [exact Ha|].
  cbn [forallb] in Hs. apply andb_true_iff in Hs. destruct Hs as [Hc Hs].
  apply IH; [|exact Hs].
  unfold is_digit, between in Hc. apply andb_true_iff in Hc.
  destruct Hc as [Hc _]. apply N.leb_le in Hc. lia.
Qed.

(** The year adjustment is applied to the third number before either
    ordering is tried, so that number is never a day: the Y-M-D branch of
    [intentar_numerica] is dead, and only D-M-Y is ever accepted. *)
Lemma intentar_numerica_solo_dmy g1 g2 g3 :
  forallb is_digit g3 = true ->
  let num1 := int_of_digits g1 in
  let num2 := int_of_digits g2 in
  let num3 := ajustar_anio (int_of_digits g3) in
  intentar_numerica g1 g2 g3
  = if ((1 <=? num1) && (num1 <=? 31) && (1 <=? num2) && (num2 <=? 12)
        && (1900 <=? num3) && (num3 <=? 2100))%bool
    then option_map (fun f => [f]) (mk_date num3 num2 num1)
    else Some [].
Proof.
  intros Hd num1 num2 num3. unfold intentar_numerica.
  fold num1. fold num2. fold num3.
  destruct ((1 <=? num1) && (num1 <=? 31) && (1 <=? num2) && (num2 <=? 12)
            && (1900 <=? num3) && (num3 <=? 2100))%bool; [reflexivity|].
  assert (H3 : (num3 <=? 31) = false).
  { apply Z.leb_gt. unfold num3, ajustar_anio.
    pose proof (int_of_digits_nonneg g3 0 (Z.le_refl 0) Hd) as P.
    fold (int_of_digits g3) in P.
    destruct (int_of_digits g3 <? 100) eqn:E1;
      [|apply Z.ltb_ge in E1; lia].
    destruct (int_of_digits g3 <? 50); lia. }
  rewrite H3, !andb_false_r. reflexivity.
Qed.

(** C3 at its failing input.  On the text "2024-05-07" the pattern matches
    through its second alternative with groups 2024, 05 and 07; the day 07
    is turned into the year 2007 and neither ordering is accepted.  The
    numeric pass yields no candidate, and neither does the whole
    extraction, whatever [dateutil] and the clock are. *)
Lemma estrategia_numerica_2024_05_07 :
  map (fun m => map (fun i => Re.group i (snd m)) [4; 5; 6]%nat)
    (Re.finditer RE_DATE_NUMERIC (limpiar_texto_fecha (L1 "2024-05-07")))
  = [[Some (L1 "2024"); Some (L1 "05"); Some (L1 "07")]]
  /\ estrategia_numerica (limpiar_texto_fecha (L1 "2024-05-07")) = []
  /\ mk_date 2024 5 7 = Some 739013
  /\ forall parse_date hoy,
       extraer_fecha_mejorada parse_date hoy (L1 "2024-05-07") false = None.
Proof.
  split; [vm_compute; reflexivity|].
  split; [vm_compute; reflexivity|].
  split; [vm_compute; reflexivity|].
  intros parse_date hoy. vm_compute. reflexivity.
Qed.

(** With two-digit day first the same date is found. *)
Lemma estrategia_numerica_07_05_2024 :
  estrategia_numerica (limpiar_texto_fecha (L1 "07/05/2024")) = [739013].
Proof. vm_compute. reflexivity. Qed.

(** The part of the marker rule that holds: a marker in the NORMALISED
    filename gives the empty list. *)
Lemma inferir_marker_en_normalizado nombre_archivo tipo_devolucion :
  existsb (contains (normalizar_texto nombre_archivo)) todo_markers = true ->
  inferir_items_desde_nombre nombre_archivo tipo_devolucion = [].
Proof.
  intros H. unfold inferir_items_desde_nombre.
  destruct (negb (truthy nombre_archivo)); [reflexivity|].
  destruct (negb (truthy (normalizar_texto nombre_archivo)));
    [reflexivity|].
  rewrite H. reflexivity.
Qed.

(** C9 at its failing input.  The filename "rut anexos.pdf" contains the
    marker "anexos", but [normalizar_texto] cuts the name at that word
    before the markers are looked for: the normalised name is "rut", no
    marker is found in it, and the item "rut" is inferred. *)
Lemma inferir_items_rut_anexos :
  contains (lower (L1 "rut anexos.pdf")) (L1 "anexos") = true
  /\ normalizar_texto (L1 "rut anexos.pdf") = L1 "rut"
  /\ existsb (contains (L1 "rut")) todo_markers = false
  /\ inferir_items_desde_nombre (L1 "rut anexos.pdf") (L1 "misional")
     = [L1 "rut"].
Proof. vm_compute. repeat split; reflexivity. Qed.

(** The same with the marker between parentheses. *)
Lemma inferir_items_rut_completo :
  inferir_items_desde_nombre (L1 "rut (completo).pdf") (L1 "misional")
  = [L1 "rut"].
Proof. vm_compute. reflexivity. Qed.

(* ================================================================== *)
(** * Properties of the text normalisers *)
(* ================================================================== *)

(** ** Facts about characters, by enumeration of the 256 of them *)

Lemma forall_ascii_spec f : forall_ascii f = true -> forall c, f c = true.
Proof.
  intros H c. unfold forall_ascii in H. rewrite forallb_forall in H.
  apply H. unfold all_ascii. rewrite <- (ascii_nat_embedding c).
  apply in_map, in_seq. pose proof (nat_ascii_bounded c). lia.
Qed.

(** ** Patterns that cannot match *)

Lemma never_spec q p c : never q p = true -> q c = true -> p c = false.
Proof.
  intros H Hq. apply forall_ascii_spec with (c := c) in H.
  rewrite Hq in H. simpl in H. destruct (p c); [discriminate|reflexivity].
Qed.

Section Fail.
Context {A : Type}.
Variable q : ascii -> bool.

Lemma rep_greedy_fail p s : forall lo hi prev (k : option ascii -> str -> option A),
  todos q s ->
  (negb (Nat.eqb lo 0) && never q p)%bool = true
  \/ (forall prev' s', todos q s' -> k prev' s' = None) ->
  Re.rep_greedy p lo hi prev s k = None.
Proof.
  induction s as [|c s IH]; intros lo hi prev k Hs H; simpl.
  - destruct lo; [|reflexivity].
    destruct H as [H|H]; [discriminate|]. apply H. exact Hs.
  - inversion Hs as [|? ? Hc Hs']; subst.
    assert (St : match lo with O => k prev (c :: s) | S _ => None end = None).
    { destruct lo; [|reflexivity].
      destruct H as [H|H]; [discriminate|]. apply H. exact Hs. }
    destruct (p c && Re.hi_allows hi)%bool eqn:E; [|exact St].
    rewrite IH; [exact St|exact Hs'|].
    destruct H as [H|H]; [|right; exact H].
    apply andb_true_iff in H. destruct H as [_ H].
    apply andb_true_iff in E. destruct E as [E _].
    rewrite (never_spec q p c H Hc) in E. discriminate.
Qed.

Lemma rep_lazy_fail p s : forall lo hi prev (k : option ascii -> str -> option A),
  todos q s ->
  (negb (Nat.eqb lo 0) && never q p)%bool = true
  \/ (forall prev' s', todos q s' -> k prev' s' = None) ->
  Re.rep_lazy p lo hi prev s k = None.
Proof.
  induction s as [|c s IH]; intros lo hi prev k Hs H; simpl.
  - destruct lo; [|reflexivity].
    destruct H as [H|H]; [discriminate|]. rewrite H; [reflexivity|exact Hs].
  - inversion Hs as [|? ? Hc Hs']; subst.
    assert (M : (if (p c && Re.hi_allows hi)%bool
                 then Re.rep_lazy p (pred lo) (Re.hi_pred hi) (Some c) s k
                 else None) = None).
    { destruct (p c && Re.hi_allows hi)%bool eqn:E; [|reflexivity].
      apply IH; [exact Hs'|].
      destruct H as [H|H]; [|right; exact H].
      apply andb_true_iff in H. destruct H as [_ H].
      apply andb_true_iff in E. destruct E as [E _].
      rewrite (never_spec q p c H Hc) in E. discriminate. }
    destruct lo; [|exact M].
    destruct H as [H|H]; [discriminate|].
    rewrite (H prev (c :: s) Hs). exact M.
Qed.

Lemma run_fail r : forall prev s cs
    (k : option ascii -> str -> Re.caps -> option A),
  todos q s ->
  must_fail q r = true
  \/ (forall prev' s' cs', todos q s' -> k prev' s' cs' = None) ->
  Re.run r prev s cs k = None.
Proof.
  induction r as [|p|a IHa b IHb|a IHa b IHb|lo hi g p|i a IHa| |p|p];
    intros prev s cs k Hs H; simpl.
  - destruct H as [H|H]; [discriminate|]. apply H, Hs.
  - destruct s as [|c s]; [reflexivity|].
    inversion Hs as [|? ? Hc Hs']; subst.
    destruct (p c) eqn:E; [|reflexivity].
    destruct H as [H|H]; [|apply H, Hs'].
    simpl in H. rewrite (never_spec q p c H Hc) in E. discriminate.
  - apply IHa; [exact Hs|].
    destruct H as [H|H].
    + simpl in H. apply orb_true_iff in H. destruct H as [H|H];
        [left; exact H|right].
      intros prev' s' cs' Hs'. apply IHb; [exact Hs'|left; exact H].
    + right. intros prev' s' cs' Hs'. apply IHb; [exact Hs'|right; exact H].
  - assert (Ha : Re.run a prev s cs k = None).
    { apply IHa; [exact Hs|].
      destruct H as [H|H]; [left|right; exact H].
      simpl in H. apply andb_true_iff in H. apply H. }
    rewrite Ha. apply IHb; [exact Hs|].
    destruct H as [H|H]; [left|right; exact H].
    simpl in H. apply andb_true_iff in H. apply H.
  - destruct g; [apply rep_greedy_fail|apply rep_lazy_fail]; try exact Hs;
      (destruct H as [H|H]; [left; exact H|right]);
      intros prev' s' Hs'; apply H, Hs'.
  - apply IHa; [exact Hs|].
    destruct H as [H|H]; [left; exact H|right].
    intros prev' s' cs' Hs'. apply H, Hs'.
  - destruct H as [H|H]; [discriminate|].
    destruct (xorb (Re.word_opt prev) (Re.word_opt (hd_error s)));
      [apply H, Hs|reflexivity].
  - destruct H as [H|H]; [discriminate|].
    destruct prev as [c|]; [|reflexivity].
    destruct (p c); [apply H, Hs|reflexivity].
  - destruct H as [H|H]; [discriminate|].
    destruct s as [|c s]; [reflexivity|].
    destruct (p c); [apply H, Hs|reflexivity].
Qed.

End Fail.

Lemma match_at_fail q r prev s :
  must_fail q r = true -> Forall (fun c => q c = true) s ->
  Re.match_at r prev s = None.
Proof.
  intros H Hs. unfold Re.match_at. apply (run_fail q); [exact Hs|left; exact H].
Qed.

(** ** Substitution where nothing matches *)

Lemma sub_sin_match r repl s : forall prev,
  sin_match r prev s -> Re.sub_loop r repl prev s 0 = s.
Proof.
  induction s as [|c s IH]; intros prev [H1 H2]; simpl; rewrite H1.
  - reflexivity.
  - f_equal. apply IH, H2.
Qed.

Lemma sin_match_fail q r s : forall prev,
  must_fail q r = true -> Forall (fun c => q c = true) s ->
  sin_match r prev s.
Proof.
  induction s as [|c s IH]; intros prev H Hs; simpl.
  - split; [apply (match_at_fail q); assumption|exact I].
  - split; [apply (match_at_fail q); assumption|].
    inversion Hs; subst. apply IH; assumption.
Qed.

Lemma finditer_sin_match r s : forall prev,
  Re.finditer_loop r prev s 0 = [] -> sin_match r prev s.
Proof.
  induction s as [|c s IH]; intros prev H; simpl in *.
  - destruct (Re.match_at r prev []) as [[[|n] cs]|]; try discriminate.
    split; [reflexivity|exact I].
  - destruct (Re.match_at r prev (c :: s)) as [[[|n] cs]|]; try discriminate.
    split; [reflexivity|]. apply IH, H.
Qed.

(** [pattern.search(s) is None] *)
Lemma search_sin_match r s : Re.search r s = None -> sin_match r None s.
Proof.
  unfold Re.search, Re.finditer. intros H. apply finditer_sin_match.
  destruct (Re.finditer_loop r None s 0); [reflexivity|discriminate].
Qed.

Lemma sub_search_none r repl s : Re.search r s = None -> Re.sub r repl s = s.
Proof. intros H. apply sub_sin_match, search_sin_match, H. Qed.

Lemma sub_fail q r repl s :
  must_fail q r = true -> Forall (fun c => q c = true) s ->
  Re.sub r repl s = s.
Proof. intros H Hs. apply sub_sin_match, (sin_match_fail q); assumption. Qed.

(** The characters of a substitution come from the text or from the
    replacement. *)
Lemma sub_loop_Forall (P : ascii -> Prop) r repl s : forall prev skip,
  Forall P s -> Forall P repl -> Forall P (Re.sub_loop r repl prev s skip).
Proof.
  induction s as [|c s IH]; intros prev skip Hs Hr.
  - destruct skip; simpl; [|constructor].
    destruct (Re.match_at r prev []) as [[[|n] cs]|];
      try (rewrite app_nil_r; exact Hr); constructor.
  - inversion Hs; subst.
    destruct skip; simpl; [|apply IH; assumption].
    destruct (Re.match_at r prev (c :: s)) as [[[|n] cs]|].
    + apply Forall_app. split; [exact Hr|]. constructor; [assumption|].
      apply IH; assumption.
    + apply Forall_app. split; [exact Hr|]. apply IH; assumption.
    + constructor; [assumption|]. apply IH; assumption.
Qed.

(** ** Patterns of one character *)

Lemma length_cons_sub {A : Type} (c : A) s :
  (List.length (c :: s) - List.length s)%nat = 1%nat.
Proof. simpl List.length. lia. Qed.

Lemma match_at_cls p prev c s :
  Re.match_at (Re.Cls p) prev (c :: s)
  = if p c then Some (1%nat, []) else None.
Proof.
  unfold Re.match_at. cbn [Re.run]. rewrite length_cons_sub. reflexivity.
Qed.

Lemma match_at_cls_nil p prev : Re.match_at (Re.Cls p) prev [] = None.
Proof. reflexivity. Qed.

(** [re.sub] of a class by one character is a [map]. *)
Lemma sub_cls_map p x s : forall prev,
  Re.sub_loop (Re.Cls p) [x] prev s 0
  = map (fun c => if p c then x else c) s.
Proof.
  induction s as [|c s IH]; intros prev; cbn [Re.sub_loop map].
  - reflexivity.
  - rewrite match_at_cls. destruct (p c); simpl; rewrite IH; reflexivity.
Qed.

(** [re.sub] of a class by the empty string is a [filter]. *)
Lemma sub_cls_filter p s : forall prev,
  Re.sub_loop (Re.Cls p) [] prev s 0 = filter (fun c => negb (p c)) s.
Proof.
  induction s as [|c s IH]; intros prev; cbn [Re.sub_loop filter].
  - reflexivity.
  - rewrite match_at_cls. destruct (p c); simpl; rewrite IH; reflexivity.
Qed.

(** ** The whitespace pattern [\s+] *)

Lemma run_len_le p s : (run_len p s <= List.length s)%nat.
Proof.
  induction s as [|c s IH]; simpl; [lia|]. destruct (p c); simpl; lia.
Qed.

Lemma rep_greedy_run {A : Type} p (F : str -> A) s : forall lo prev,
  Re.rep_greedy p lo None prev s (fun _ s' => Some (F s'))
  = if (lo <=? run_len p s)%nat then Some (F (skipn (run_len p s) s))
    else None.
Proof.
  induction s as [|c s IH]; intros lo prev; cbn [Re.rep_greedy run_len].
  - destruct lo; reflexivity.
  - destruct (p c) eqn:E; cbn [Re.hi_allows andb Re.hi_pred].
    + rewrite IH. destruct lo as [|lo]; cbn [pred].
      * simpl Nat.leb. reflexivity.
      * change (S lo <=? S (run_len p s))%nat
          with (lo <=? run_len p s)%nat.
        destruct (lo <=? run_len p s)%nat; reflexivity.
    + destruct lo; reflexivity.
Qed.

Lemma match_at_plus p prev s :
  Re.match_at (Re.plus p) prev s
  = match run_len p s with
    | O => None
    | S n => Some (S n, [])
    end.
Proof.
  unfold Re.match_at, Re.plus. cbn [Re.run].
  rewrite (rep_greedy_run p
             (fun s' => ((List.length s - List.length s')%nat, @nil (nat * str)))).
  pose proof (run_len_le p s) as L.
  destruct (run_len p s) as [|n] eqn:E; [reflexivity|].
  change (1 <=? S n)%nat with true. cbn iota.
  rewrite length_skipn. do 2 f_equal. lia.
Qed.

Lemma collapse_true_run s : forall n,
  run_len is_space s = n ->
  collapse true s = collapse false (skipn n s).
Proof.
  induction s as [|c s IH]; intros n H; simpl in *.
  - subst. reflexivity.
  - destruct (is_space c) eqn:E.
    + subst n. simpl skipn. apply IH. reflexivity.
    + subst n. simpl. rewrite E. reflexivity.
Qed.

Lemma sub_loop_skip_spaces r repl s : forall prev n,
  (n <= run_len is_space s)%nat ->
  exists prev', Re.sub_loop r repl prev s n
                = Re.sub_loop r repl prev' (skipn n s) 0.
Proof.
  induction s as [|c s IH]; intros prev n H.
  - simpl in H. assert (n = 0%nat) by lia. subst. exists prev. reflexivity.
  - destruct n as [|n]; [exists prev; reflexivity|].
    simpl in H. destruct (is_space c); [|lia].
    cbn [Re.sub_loop skipn]. apply IH. lia.
Qed.

Lemma sub_espacios_collapse s :
  forall prev, Re.sub_loop RE_ESPACIOS (L1 " ") prev s 0 = collapse false s.
Proof.
  remember (List.length s) as m eqn:Hm. revert s Hm.
  induction m as [m IH] using lt_wf_ind. intros s Hm prev.
  destruct s as [|c s]; unfold RE_ESPACIOS.
  - cbn [Re.sub_loop]. rewrite match_at_plus. reflexivity.
  - cbn [Re.sub_loop]. rewrite match_at_plus. cbn [run_len collapse].
    destruct (is_space c) eqn:E.
    + destruct (sub_loop_skip_spaces (Re.plus is_space) (L1 " ") s (Some c)
                  (run_len is_space s) (Nat.le_refl _)) as [prev' Hs].
      rewrite Hs.
      rewrite (collapse_true_run s _ eq_refl).
      fold RE_ESPACIOS.
      rewrite (IH (List.length (skipn (run_len is_space s) s))); try reflexivity.
      rewrite length_skipn. subst m. simpl. lia.
    + f_equal. fold RE_ESPACIOS. apply (IH (List.length s)); [|reflexivity].
      subst m. simpl. lia.
Qed.

(** ** The shape of a normalised text *)

Lemma char_permitida_unaccent c :
  letra_permitida c = true ->
  (alnum_ch (unaccent_ch c) || is_space (unaccent_ch c))%bool = true.
Proof.
  intros H.
  assert (G : forall_ascii
                (fun c => implb (letra_permitida c)
                            (alnum_ch (unaccent_ch c)
                             || is_space (unaccent_ch c)))%bool = true)
    by (vm_compute; reflexivity).
  apply forall_ascii_spec with (c := c) in G. rewrite H in G. exact G.
Qed.

Lemma char_limpio_fijo c :
  limpio_ch c = true ->
  lower_ch c = c /\ unaccent_ch c = c
  /\ (is_space c = true -> c = " "%char)
  /\ letra_permitida c = true.
Proof.
  intros H.
  assert (G : forall_ascii
                (fun c => implb (limpio_ch c)
                            (ch_eqb (lower_ch c) c && ch_eqb (unaccent_ch c) c
                             && implb (is_space c) (ch_eqb c " ")
                             && letra_permitida c))%bool = true)
    by (vm_compute; reflexivity).
  apply forall_ascii_spec with (c := c) in G. rewrite H in G. simpl in G.
  apply andb_true_iff in G. destruct G as [G G4].
  apply andb_true_iff in G. destruct G as [G G3].
  apply andb_true_iff in G. destruct G as [G1 G2].
  apply Ascii.eqb_eq in G1, G2. repeat split; try assumption.
  intros Hs. rewrite Hs in G3. apply Ascii.eqb_eq in G3. exact G3.
Qed.

Lemma sin_dobles_weaken s : sin_dobles true s = true -> sin_dobles false s = true.
Proof.
  destruct s as [|c s]; simpl; [auto|].
  destruct (is_space c); [discriminate|auto].
Qed.

Lemma collapse_shape s : forall b,
  Forall (fun c => (alnum_ch c || is_space c)%bool = true) s ->
  Forall (fun c => limpio_ch c = true) (collapse b s)
  /\ sin_dobles b (collapse b s) = true.
Proof.
  induction s as [|c s IH]; intros b H; simpl.
  - split; [constructor|reflexivity].
  - inversion H as [|? ? Hc Hs]; subst.
    destruct (is_space c) eqn:E.
    + destruct b.
      * apply IH, Hs.
      * destruct (IH true Hs) as [I1 I2]. split.
        -- constructor; [reflexivity|exact I1].
        -- simpl. exact I2.
    + destruct (IH false Hs) as [I1 I2]. split.
      * constructor; [|exact I1]. unfold limpio_ch.
        rewrite orb_false_r in Hc. rewrite Hc. reflexivity.
      * simpl. rewrite E. exact I2.
Qed.

Lemma collapse_fijo s : forall b,
  Forall (fun c => limpio_ch c = true) s -> sin_dobles b s = true ->
  collapse b s = s.
Proof.
  induction s as [|c s IH]; intros b H D; simpl; [reflexivity|].
  inversion H as [|? ? Hc Hs]; subst. simpl in D.
  destruct (is_space c) eqn:E.
  - apply andb_true_iff in D. destruct D as [D1 D2].
    destruct b; [discriminate|].
    destruct (char_limpio_fijo c Hc) as (_ & _ & Sp & _).
    rewrite (Sp E). f_equal. apply IH; assumption.
  - f_equal. apply IH; assumption.
Qed.

Lemma lstrip_shape s :
  Forall (fun c => limpio_ch c = true) s -> sin_dobles false s = true ->
  Forall (fun c => limpio_ch c = true) (lstrip s)
  /\ sin_dobles true (lstrip s) = true.
Proof.
  induction s as [|c s IH]; intros H D; simpl.
  - split; [constructor|reflexivity].
  - inversion H as [|? ? Hc Hs]; subst. simpl in D.
    destruct (is_space c) eqn:E.
    + apply IH; [exact Hs|]. apply sin_dobles_weaken. exact D.
    + split; [exact H|]. simpl. rewrite E. exact D.
Qed.

Lemma rstrip_snoc s c :
  rstrip (s ++ [c]) = if is_space c then rstrip s else s ++ [c].
Proof.
  unfold rstrip. rewrite rev_app_distr. simpl.
  destruct (is_space c); [reflexivity|].
  simpl. rewrite rev_involutive. reflexivity.
Qed.

Lemma sin_dobles_app_l x : forall b y,
  sin_dobles b (x ++ y) = true -> sin_dobles b x = true.
Proof.
  induction x as [|c x IH]; intros b y H; simpl in *; [reflexivity|].
  destruct (is_space c).
  - apply andb_true_iff in H. destruct H as [H1 H2].
    rewrite H1. simpl. apply (IH _ _ H2).
  - apply (IH _ _ H).
Qed.

Lemma rstrip_shape s :
  Forall (fun c => limpio_ch c = true) s -> sin_dobles true s = true ->
  canonico (rstrip s).
Proof.
  induction s as [|c s IH] using rev_ind; intros H D.
  - repeat split; [constructor|left; reflexivity].
  - rewrite rstrip_snoc. apply Forall_app in H. destruct H as [H1 H2].
    destruct (is_space c) eqn:E.
    + apply IH; [exact H1|]. apply (sin_dobles_app_l _ _ _ D).
    + repeat split.
      * apply Forall_app. split; assumption.
      * exact D.
      * right. exists s, c. split; [reflexivity|exact E].
Qed.

Lemma strip_canonico s :
  canonico s -> strip s = s.
Proof.
  intros (H1 & H2 & H3). unfold strip.
  assert (L : lstrip s = s).
  { destruct s as [|c s]; [reflexivity|]. simpl in *.
    destruct (is_space c); [discriminate|reflexivity]. }
  rewrite L. destruct H3 as [->|(u & c & -> & E)]; [reflexivity|].
  rewrite rstrip_snoc, E. reflexivity.
Qed.

(** The last three steps of [normalizar_texto] give a canonical text. *)
Lemma final_canonico s :
  Forall (fun c => letra_permitida c = true) s ->
  canonico (strip (Re.sub RE_ESPACIOS (L1 " ") (quitar_acentos s))).
Proof.
  intros H. unfold Re.sub. rewrite sub_espacios_collapse.
  assert (A : Forall (fun c => (alnum_ch c || is_space c)%bool = true)
                (quitar_acentos s)).
  { unfold quitar_acentos. destruct (negb (truthy s)); [constructor|].
    apply Forall_map. eapply Forall_impl; [|exact H].
    intros c Hc. apply char_permitida_unaccent, Hc. }
  destruct (collapse_shape _ false A) as [C1 C2].
  destruct (lstrip_shape _ C1 C2) as [L1' L2].
  unfold strip. apply rstrip_shape; assumption.
Qed.

Lemma no_permitido_Forall s :
  Forall (fun c => letra_permitida c = true)
    (Re.sub RE_NO_PERMITIDO (L1 " ") s).
Proof.
  unfold Re.sub, RE_NO_PERMITIDO. change (L1 " ") with [" "%char].
  rewrite sub_cls_map. apply Forall_map, Forall_forall. intros c _.
  destruct (letra_permitida c) eqn:E; simpl; [exact E|reflexivity].
Qed.

(** Every result of [normalizar_texto] is canonical. *)
Lemma normalizar_texto_canonico s : canonico (normalizar_texto s).
Proof.
  unfold normalizar_texto. destruct (negb (truthy s)).
  - repeat split; [constructor|left; reflexivity].
  - apply final_canonico, no_permitido_Forall.
Qed.

Lemma map_fijo {A : Type} (f : A -> A) l :
  Forall (fun x => f x = x) l -> map f l = l.
Proof.
  induction 1 as [|x l Hx Hl IH]; simpl; [reflexivity|].
  rewrite Hx, IH. reflexivity.
Qed.

Lemma must_fail_limpio :
  forallb (must_fail limpio_ch)
    [RE_PDF; RE_MAIL; RE_NO; RE_ENTRE_PARENTESIS; RE_SEPARADORES;
     RE_NO_PERMITIDO] = true.
Proof. vm_compute. reflexivity. Qed.

(** A canonical text without noise markers is left as it is. *)
Lemma normalizar_texto_fijo t :
  canonico t ->
  Re.search RE_NIS t = None -> Re.search RE_RADICADO t = None ->
  Re.search RE_ANEXOS t = None -> Re.search RE_TICKETID t = None ->
  Re.search RE_NUM_LARGO t = None ->
  normalizar_texto t = t.
Proof.
  intros Hc N1 N2 N3 N4 N5. pose proof Hc as (H1 & H2 & H3).
  unfold normalizar_texto. destruct (negb (truthy t)) eqn:Tr;
    [destruct t; [reflexivity|discriminate]|].
  assert (Lw : lower t = t).
  { apply map_fijo. eapply Forall_impl; [|exact H1].
    intros c Hcc. apply (char_limpio_fijo c Hcc). }
  assert (Ac : quitar_acentos t = t).
  { unfold quitar_acentos. destruct (negb (truthy t)) eqn:E.
    - destruct t; [reflexivity|discriminate].
    - apply map_fijo. eapply Forall_impl; [|exact H1].
      intros c Hcc. apply (char_limpio_fijo c Hcc). }
  pose proof must_fail_limpio as M. cbn [forallb] in M.
  repeat (apply andb_true_iff in M; destruct M as [?M M]).
  rewrite Lw.
  rewrite (sub_fail limpio_ch RE_PDF) by assumption.
  rewrite (sub_fail limpio_ch RE_MAIL) by assumption.
  rewrite (sub_fail limpio_ch RE_NO) by assumption.
  rewrite (sub_search_none RE_NIS) by assumption.
  rewrite (sub_search_none RE_RADICADO) by assumption.
  rewrite (sub_search_none RE_ANEXOS) by assumption.
  rewrite (sub_fail limpio_ch RE_ENTRE_PARENTESIS) by assumption.
  rewrite (sub_search_none RE_TICKETID) by assumption.
  rewrite (sub_search_none RE_NUM_LARGO) by assumption.
  rewrite (sub_fail limpio_ch RE_SEPARADORES) by assumption.
  rewrite (sub_fail limpio_ch RE_NO_PERMITIDO) by assumption.
  rewrite Ac. unfold Re.sub. rewrite sub_espacios_collapse.
  rewrite collapse_fijo; [|exact H1|apply sin_dobles_weaken; exact H2].
  apply strip_canonico. exact Hc.
Qed.

(** ** The rewriting steps of [limpiar_texto_fecha] *)

Lemma sub_ctx_map (r : Re.t) (x : ascii)
    (cond : option ascii -> ascii -> option ascii -> bool) :
  (forall prev c s',
     Re.match_at r prev (c :: s')
     = if cond prev c (hd_error s') then Some (1%nat, []) else None) ->
  (forall prev, Re.match_at r prev [] = None) ->
  forall s prev,
    Re.sub_loop r [x] prev s 0 = ctx_map (reescribir cond x) prev s.
Proof.
  intros H1 H0. induction s as [|c s IH]; intros prev;
    cbn [Re.sub_loop ctx_map].
  - rewrite H0. reflexivity.
  - rewrite H1. unfold reescribir.
    destruct (cond prev c (hd_error s)); simpl; rewrite IH; reflexivity.
Qed.

Lemma match_at_l_aislada prev c s :
  Re.match_at RE_L_AISLADA prev (c :: s)
  = if l_aislada prev c (hd_error s) then Some (1%nat, []) else None.
Proof.
  unfold Re.match_at, RE_L_AISLADA, l_aislada, Wo. cbn [Re.cat Re.run Re.lit1].
  rewrite length_cons_sub. cbn [hd_error Re.word_opt].
  unfold ch_eqb. rewrite (Ascii.eqb_sym c "l"%char).
  destruct (Ascii.eqb "l"%char c) eqn:E.
  - apply Ascii.eqb_eq in E. subst c.
    change (is_word "l"%char) with true.
    destruct (Re.word_opt prev); destruct (Re.word_opt (hd_error s));
      reflexivity.
  - destruct (xorb (Re.word_opt prev) (is_word c)); reflexivity.
Qed.

Lemma match_at_l_aislada_nil prev : Re.match_at RE_L_AISLADA prev [] = None.
Proof.
  unfold Re.match_at, RE_L_AISLADA. cbn [Re.cat Re.run Re.lit1 hd_error].
  destruct (xorb (Re.word_opt prev) (Re.word_opt None)); reflexivity.
Qed.

Lemma match_at_entre_digitos X prev c s :
  Re.match_at (RE_O_ENTRE_DIGITOS X) prev (c :: s)
  = if entre_digitos X prev c (hd_error s) then Some (1%nat, []) else None.
Proof.
  unfold Re.match_at, RE_O_ENTRE_DIGITOS, entre_digitos, Do.
  cbn [Re.cat Re.run Re.lit1]. rewrite length_cons_sub.
  unfold ch_eqb. rewrite (Ascii.eqb_sym c X).
  destruct prev as [p|]; [|rewrite andb_false_r; reflexivity].
  destruct (is_digit p); [|rewrite andb_false_r; reflexivity].
  destruct (Ascii.eqb X c); [|reflexivity].
  destruct s as [|n s]; [reflexivity|]. simpl.
  destruct (is_digit n); reflexivity.
Qed.

Lemma match_at_entre_digitos_nil X prev :
  Re.match_at (RE_O_ENTRE_DIGITOS X) prev [] = None.
Proof.
  unfold Re.match_at, RE_O_ENTRE_DIGITOS. cbn [Re.cat Re.run Re.lit1].
  destruct prev as [p|]; [|reflexivity]. destruct (is_digit p); reflexivity.
Qed.

Lemma ctx_map_fijo cond x s : forall prev,
  all3 (fun p c n => negb (cond p c n)) prev s = true ->
  ctx_map (reescribir cond x) prev s = s.
Proof.
  induction s as [|c s IH]; intros prev H; simpl in *; [reflexivity|].
  apply andb_true_iff in H. destruct H as [H1 H2].
  unfold reescribir at 1. destruct (cond prev c (hd_error s));
    [discriminate|]. f_equal. apply IH, H2.
Qed.

Lemma hd_ctx_map f prev s :
  hd_error (ctx_map f prev s)
  = match s with
    | [] => None
    | c :: s' => Some (f prev c (hd_error s'))
    end.
Proof. destruct s; reflexivity. Qed.

(** A rewriting that keeps word characters word characters keeps every
    property that looks at the neighbours through [\w]. *)
Lemma all3_ctx_map_word f (I T : option ascii -> ascii -> option ascii -> bool)
    (T' : bool -> ascii -> bool -> bool) :
  (forall p c n, is_word (f p c n) = is_word c) ->
  (forall p c n, T p c n = T' (Wo p) c (Wo n)) ->
  (forall p c n, I p c n = true -> T' (Wo p) (f p c n) (Wo n) = true) ->
  forall s prev prev',
    Wo prev' = Wo prev -> all3 I prev s = true ->
    all3 T prev' (ctx_map f prev s) = true.
Proof.
  intros Hw HT HI. induction s as [|c s IH]; intros prev prev' Hp H;
    [reflexivity|].
  cbn [ctx_map all3] in *. apply andb_true_iff in H. destruct H as [H1 H2].
  apply andb_true_iff. split.
  - rewrite HT, Hp, hd_ctx_map.
    replace (Wo match s with
                | [] => None
                | c0 :: s' => Some (f (Some c) c0 (hd_error s'))
                end) with (Wo (hd_error s)).
    + apply HI, H1.
    + destruct s as [|c0 s']; [reflexivity|]. simpl. symmetry. apply Hw.
  - apply IH; [|exact H2]. simpl. apply Hw.
Qed.

(** Rewriting [X] between digits neither leaves nor creates a [Y] between
    digits, for letters [X] and [Y]. *)
Lemma all3_ctx_map_digitos X Y :
  is_digit X = false -> is_digit Y = false -> ch_eqb "0" Y = false ->
  forall s prev prev',
    prev' = prev \/ (prev' = Some "0"%char /\ Do (hd_error s) = true) ->
    (ch_eqb Y X = false ->
     all3 (fun p c n => negb (entre_digitos Y p c n)) prev s = true) ->
    all3 (fun p c n => negb (entre_digitos Y p c n)) prev'
      (ctx_map (reescribir (entre_digitos X) "0") prev s) = true.
Proof.
  intros HX HY H0. induction s as [|c s IH]; intros prev prev' Hp H;
    [reflexivity|].
  cbn [ctx_map all3]. apply andb_true_iff. split.
  - rewrite hd_ctx_map.
    set (c' := reescribir (entre_digitos X) "0" prev c (hd_error s)).
    unfold entre_digitos at 1.
    destruct (ch_eqb c' Y) eqn:Ec; [|reflexivity].
    apply Ascii.eqb_eq in Ec.
    assert (Hc : c = Y /\ (Do prev && Do (hd_error s))%bool = false).
    { unfold c', reescribir, entre_digitos in Ec.
      destruct (ch_eqb c X && Do prev && Do (hd_error s))%bool eqn:E.
      - subst Y. unfold ch_eqb in H0. rewrite Ascii.eqb_refl in H0.
        discriminate.
      - split; [exact Ec|]. subst c.
        destruct (ch_eqb Y X) eqn:EYX.
        + rewrite <- andb_assoc in E. simpl in E. exact E.
        + specialize (H eq_refl). cbn [all3] in H.
          apply andb_true_iff in H. destruct H as [H _].
          unfold entre_digitos, ch_eqb in H.
          rewrite Ascii.eqb_refl, <- andb_assoc in H. simpl in H.
          destruct (Do prev && Do (hd_error s))%bool;
            [discriminate|reflexivity]. }
    destruct Hc as [-> Hc].
    assert (Hp' : prev' = prev).
    { destruct Hp as [Hp|[_ Hp]]; [exact Hp|].
      simpl in Hp. rewrite HY in Hp. discriminate. }
    subst prev'.
    assert (Hn : Do match s with
                    | [] => None
                    | c0 :: s' =>
                        Some (reescribir (entre_digitos X) "0" (Some Y) c0
                                (hd_error s'))
                    end = Do (hd_error s)).
    { destruct s as [|c0 s']; [reflexivity|].
      unfold reescribir, entre_digitos. simpl Do at 2.
      rewrite HY, andb_false_r. reflexivity. }
    rewrite Hn. cbn [andb]. rewrite Hc. reflexivity.
  - apply IH.
    + unfold reescribir.
      destruct (entre_digitos X prev c (hd_error s)) eqn:E;
        [right|left; reflexivity].
      split; [reflexivity|]. unfold entre_digitos in E.
      apply andb_true_iff in E. apply E.
    + intros EYX. specialize (H EYX). cbn [all3] in H.
      apply andb_true_iff in H. apply H.
Qed.

Lemma all3_true s : forall prev, all3 (fun _ _ _ => true) prev s = true.
Proof. induction s as [|c s IH]; intros prev; simpl; auto. Qed.

Lemma ctx_map_Forall (P : ascii -> Prop) cond x s : forall prev,
  P x -> Forall P s -> Forall P (ctx_map (reescribir cond x) prev s).
Proof.
  induction s as [|c s IH]; intros prev Hx H; simpl; [constructor|].
  inversion H; subst. constructor; [|apply IH; assumption].
  unfold reescribir. destruct (cond prev c (hd_error s)); assumption.
Qed.

Lemma replace_barra_Forall (P : ascii -> Prop) s :
  P "/"%char -> Forall P s -> Forall P (replace_ch "|" "/" s).
Proof.
  intros Hx H. unfold replace_ch. apply Forall_map.
  eapply Forall_impl; [|exact H]. intros c Hc.
  destruct (ch_eqb c "|"); assumption.
Qed.

Lemma replace_barra_no_barra s :
  Forall (fun c => no_barra c = true) (replace_ch "|" "/" s).
Proof.
  unfold replace_ch. apply Forall_map, Forall_forall. intros c _.
  destruct (ch_eqb c "|") eqn:E; [reflexivity|].
  unfold no_barra. rewrite E. reflexivity.
Qed.

Lemma replace_barra_fijo s :
  Forall (fun c => no_barra c = true) s -> replace_ch "|" "/" s = s.
Proof.
  intros H. unfold replace_ch. apply map_fijo.
  eapply Forall_impl; [|exact H]. intros c Hc. unfold no_barra in Hc.
  destruct (ch_eqb c "|"); [discriminate|reflexivity].
Qed.

Lemma pasos_limpiar_Forall (P : ascii -> Prop) s :
  P "/"%char -> P "1"%char -> P "0"%char -> Forall P s ->
  Forall P (pasos_limpiar s).
Proof.
  intros H1 H2 H3 H. unfold pasos_limpiar.
  repeat apply ctx_map_Forall; try assumption.
  apply replace_barra_Forall; assumption.
Qed.

Lemma reescribir_l_word p c n :
  is_word (reescribir l_aislada "1" p c n) = is_word c.
Proof.
  unfold reescribir, l_aislada. destruct (ch_eqb c "l") eqn:E;
    [|reflexivity].
  apply Ascii.eqb_eq in E. subst c.
  destruct (Wo p); destruct (Wo n); reflexivity.
Qed.

Lemma reescribir_o_word X p c n :
  is_word X = true ->
  is_word (reescribir (entre_digitos X) "0" p c n) = is_word c.
Proof.
  intros HX. unfold reescribir, entre_digitos.
  destruct (ch_eqb c X) eqn:E; [|reflexivity].
  apply Ascii.eqb_eq in E. subst c. cbn [andb].
  destruct (Do p && Do n)%bool; [rewrite HX|]; reflexivity.
Qed.

Lemma l_aislada_establecida s :
  sin_l_aislada (ctx_map (reescribir l_aislada "1") None s).
Proof.
  unfold sin_l_aislada.
  apply (all3_ctx_map_word (reescribir l_aislada "1") (fun _ _ _ => true)
           (fun p c n => negb (l_aislada p c n))
           (fun wp c wn => negb (ch_eqb c "l" && negb wp && negb wn)%bool)).
  - apply reescribir_l_word.
  - reflexivity.
  - intros p c n _. unfold reescribir, l_aislada.
    destruct (ch_eqb c "l" && negb (Wo p) && negb (Wo n))%bool eqn:E;
      [reflexivity|]. rewrite E. reflexivity.
  - reflexivity.
  - apply all3_true.
Qed.

Lemma l_aislada_conservada X s :
  is_word X = true -> ch_eqb "0" "l" = false ->
  sin_l_aislada s ->
  sin_l_aislada (ctx_map (reescribir (entre_digitos X) "0") None s).
Proof.
  intros HX _ H. unfold sin_l_aislada in *.
  apply (all3_ctx_map_word (reescribir (entre_digitos X) "0")
           (fun p c n => negb (l_aislada p c n))
           (fun p c n => negb (l_aislada p c n))
           (fun wp c wn => negb (ch_eqb c "l" && negb wp && negb wn)%bool)).
  - intros p c n. apply reescribir_o_word, HX.
  - reflexivity.
  - intros p c n Hi. unfold reescribir.
    destruct (entre_digitos X p c n); [reflexivity|exact Hi].
  - reflexivity.
  - exact H.
Qed.

(** After the four steps nothing is left for them to rewrite. *)
Lemma pasos_limpiar_estable s :
  let t := pasos_limpiar s in
  Forall (fun c => no_barra c = true) t
  /\ sin_l_aislada t /\ sin_entre_digitos "O" t /\ sin_entre_digitos "o" t.
Proof.
  intros t. unfold t, pasos_limpiar.
  set (s1 := replace_ch "|" "/" s).
  set (s2 := ctx_map (reescribir l_aislada "1") None s1).
  set (s3 := ctx_map (reescribir (entre_digitos "O") "0") None s2).
  split; [|split; [|split]].
  - repeat apply ctx_map_Forall; try reflexivity.
    apply replace_barra_no_barra.
  - apply l_aislada_conservada; [reflexivity|reflexivity|].
    apply l_aislada_conservada; [reflexivity|reflexivity|].
    apply l_aislada_establecida.
  - unfold sin_entre_digitos.
    apply (all3_ctx_map_digitos "o" "O"); try reflexivity.
    + left. reflexivity.
    + intros _.
      apply (all3_ctx_map_digitos "O" "O"); try reflexivity.
      * left. reflexivity.
      * intros E. discriminate E.
  - unfold sin_entre_digitos.
    apply (all3_ctx_map_digitos "o" "o"); try reflexivity.
    + left. reflexivity.
    + intros E. discriminate E.
Qed.

Lemma must_fail_brackets : must_fail no_bracket RE_BRACKETS = true.
Proof. vm_compute. reflexivity. Qed.

(** Without brackets the cleaner is its first four steps. *)
Lemma limpiar_sin_brackets s :
  Forall (fun c => no_bracket c = true) s ->
  limpiar_texto_fecha s = pasos_limpiar s.
Proof.
  intros H. unfold limpiar_texto_fecha.
  destruct (negb (truthy s)) eqn:E; [destruct s; [reflexivity|discriminate]|].
  unfold Re.sub. change (L1 "1") with ["1"%char].
  change (L1 "0") with ["0"%char].
  rewrite (sub_ctx_map RE_L_AISLADA "1" l_aislada
             match_at_l_aislada match_at_l_aislada_nil).
  rewrite (sub_ctx_map (RE_O_ENTRE_DIGITOS "O") "0" (entre_digitos "O")
             (match_at_entre_digitos "O") (match_at_entre_digitos_nil "O")).
  rewrite (sub_ctx_map (RE_O_ENTRE_DIGITOS "o") "0" (entre_digitos "o")
             (match_at_entre_digitos "o") (match_at_entre_digitos_nil "o")).
  fold (pasos_limpiar s).
  apply (sub_fail no_bracket); [exact must_fail_brackets|].
  apply pasos_limpiar_Forall; try reflexivity. exact H.
Qed.

Lemma pasos_limpiar_fijo t :
  Forall (fun c => no_barra c = true) t ->
  sin_l_aislada t -> sin_entre_digitos "O" t -> sin_entre_digitos "o" t ->
  pasos_limpiar t = t.
Proof.
  intros H1 H2 H3 H4. unfold pasos_limpiar.
  rewrite (replace_barra_fijo t H1).
  rewrite (ctx_map_fijo l_aislada "1" t None H2).
  rewrite (ctx_map_fijo (entre_digitos "O") "0" t None H3).
  apply (ctx_map_fijo (entre_digitos "o") "0" t None H4).
Qed.

(* ================================================================== *)
(** * Bounds, composition and edges of the business-day count *)
(* ================================================================== *)

Lemma es_festivo_de_ord d : In d FESTIVOS_ORD -> es_festivo d = true.
Proof.
  unfold FESTIVOS_ORD. simpl.
  intros [<-|[<-|[<-|[<-|[<-|[<-|[]]]]]]]; vm_compute; reflexivity.
Qed.

(** X1.  A date is a business day exactly when it falls on Monday to Friday
    and is none of the six dates of [COLOMBIA_FESTIVOS], which are all of
    2025: in every other year [es_dia_habil] knows no holiday and only the
    weekend counts. *)
Theorem es_dia_habil_calendario (d : Z) :
  1 <= d <= MAXORD ->
  (es_dia_habil d = true
   <-> weekday d < 5
       /\ ~ In (Some d)
            [mk_date 2025 1 1; mk_date 2025 5 1; mk_date 2025 7 20;
             mk_date 2025 8 7; mk_date 2025 12 8; mk_date 2025 12 25])
  /\ (year_of d <> 2025 -> es_dia_habil d = (weekday d <? 5)).
Proof.
  intros Hd. rewrite <- festivos_ord_ok, es_dia_habil_spec.
  assert (W : negb (5 <=? weekday d) = (weekday d <? 5)).
  { destruct (5 <=? weekday d) eqn:E1, (weekday d <? 5) eqn:E2;
      try reflexivity;
      [apply Z.leb_le in E1; apply Z.ltb_lt in E2
      |apply Z.leb_gt in E1; apply Z.ltb_ge in E2]; lia. }
  rewrite W. split.
  - rewrite andb_true_iff, Z.ltb_lt, negb_true_iff. split.
    + intros [Hw Hf]. split; [exact Hw|].
      intros Hin. apply in_map_iff in Hin. destruct Hin as [x [Hx Hin]].
      injection Hx as ->. apply es_festivo_de_ord in Hin. congruence.
    + intros [Hw Hf]. split; [exact Hw|].
      destruct (es_festivo d) eqn:E; [|reflexivity].
      exfalso. apply Hf. apply in_map. apply es_festivo_ord; [|exact E].
      unfold MAXORD in *. lia.
  - intros Hy. destruct (es_festivo d) eqn:E.
    + exfalso. apply Hy.
      pose proof (es_festivo_year d E) as H1.
      assert (H2 : 1 <= year_of d <= 10000)
        by (apply year_of_range; unfold MAXORD in *; lia).
      Z.div_mod_to_equations. lia.
    + simpl. apply andb_true_r.
Qed.

Lemma es_dia_habil_calendario_witness :
  es_dia_habil 739988 = (weekday 739988 <? 5).
Proof.
  apply (es_dia_habil_calendario 739988).
  - unfold MAXORD. lia.
  - vm_compute. discriminate.
Defined.

(** The loop advances one day per unit of fuel. *)
Lemma loop_cota fuel : forall f c n r,
  fecha_limite_loop fuel f c n = Done r ->
  dt_date r <= dt_date f + Z.of_nat fuel.
Proof.
  induction fuel as [|fuel IH]; intros f c n r; simpl fecha_limite_loop;
    destruct (c <? n); try discriminate.
  - intros H. injection H as <-. lia.
  - destruct (dt_add_days f 1) as [f'|] eqn:A; [|discriminate].
    apply dt_add_days_1 in A. destruct A as (A1 & _ & _).
    destruct (es_dia_habil (dt_date f')); intros H; apply IH in H; lia.
  - intros H. injection H as <-. lia.
Qed.

Lemma habiles_entre_le a b : a <= b -> 0 <= habiles_entre a b <= b - a.
Proof.
  intros H. unfold habiles_entre.
  pose proof (filter_length_le es_dia_habil
                (dias_siguientes a (Z.to_nat (b - a)))) as L.
  assert (E : forall k x, List.length (dias_siguientes x k) = k).
  { induction k as [|k IH]; intros x; simpl; [reflexivity|].
    rewrite IH. reflexivity. }
  rewrite E in L. lia.
Qed.

(** X2.  When [fecha_limite_habiles f n] returns [r] for a count [n >= 0],
    [r] lies at least [n] and at most [4 n] days after [f] and has the time
    of day of [f]. *)
Theorem fecha_limite_habiles_cotas (f r : datetime) (n : Z) :
  0 <= n ->
  fecha_limite_habiles f n = Done r ->
  dt_date f + n <= dt_date r <= dt_date f + 4 * n
  /\ dt_time r = dt_time f.
Proof.
  intros Hn H. unfold fecha_limite_habiles in H.
  pose proof (loop_cota _ _ _ _ _ H) as U.
  apply loop_correct in H. destruct H as (H1 & H2 & H3 & _ & _).
  pose proof (habiles_entre_le _ _ H1) as L.
  rewrite H3 in L. split; [lia|exact H2].
Qed.

Lemma fecha_limite_habiles_cotas_witness :
  739266 + 30 <= 739308 <= 739266 + 4 * 30.
Proof.
  apply (fecha_limite_habiles_cotas (combine_min 739266)
           (combine_min 739308) 30).
  - lia.
  - vm_compute. reflexivity.
Defined.

(** Shifting the counter and the target together changes nothing. *)
Lemma loop_shift k fuel : forall f c n,
  fecha_limite_loop fuel f (c + k) (n + k) = fecha_limite_loop fuel f c n.
Proof.
  induction fuel as [|fuel IH]; intros f c n; simpl fecha_limite_loop;
    replace (c + k <? n + k) with (c <? n)
      by (destruct (c <? n) eqn:E1, (c + k <? n + k) eqn:E2;
          try reflexivity;
          [apply Z.ltb_lt in E1; apply Z.ltb_ge in E2
          |apply Z.ltb_ge in E1; apply Z.ltb_lt in E2]; lia);
    [reflexivity|].
  destruct (c <? n); [|reflexivity].
  destruct (dt_add_days f 1) as [f'|]; [|reflexivity].
  destruct (es_dia_habil (dt_date f')).
  - replace (c + k + 1) with (c + 1 + k) by lia. apply IH.
  - apply IH.
Qed.

(** More fuel does not change a result the loop has reached. *)
Lemma loop_mas_fuel k fuel : forall f c n,
  fecha_limite_loop fuel f c n <> Timeout ->
  fecha_limite_loop (fuel + k) f c n = fecha_limite_loop fuel f c n.
Proof.
  induction fuel as [|fuel IH]; intros f c n.
  - intros H. simpl in H. destruct (c <? n) eqn:E; [congruence|].
    apply Z.ltb_ge in E. rewrite !loop_fin by lia. reflexivity.
  - simpl. destruct (c <? n); [|reflexivity].
    destruct (dt_add_days f 1) as [f'|]; [|reflexivity].
    destruct (es_dia_habil (dt_date f')); apply IH.
Qed.

(** The loop towards [p] passes through the state it returns for [n]. *)
Lemma loop_split fuel : forall f c n p,
  c <= n <= p ->
  fecha_limite_loop fuel f c p <> Timeout ->
  fecha_limite_loop fuel f c p
  = luego (fecha_limite_loop fuel f c n)
      (fun r => fecha_limite_loop fuel r n p).
Proof.
  induction fuel as [|fuel IH]; intros f c n p Hc.
  - intros H. simpl in H. destruct (c <? p) eqn:E; [congruence|].
    apply Z.ltb_ge in E.
    rewrite (loop_fin _ f c n) by lia. cbn [luego].
    rewrite !loop_fin by lia. reflexivity.
  - destruct (Z_lt_ge_dec c n) as [L|L].
    + simpl fecha_limite_loop at 1 2 3.
      assert (E1 : (c <? p) = true) by (apply Z.ltb_lt; lia).
      assert (E2 : (c <? n) = true) by (apply Z.ltb_lt; lia).
      rewrite E1, E2.
      destruct (dt_add_days f 1) as [f'|]; [|reflexivity].
      destruct (es_dia_habil (dt_date f')); intros Hnt.
      * pose proof (IH f' (c + 1) n p ltac:(lia) Hnt) as E.
        rewrite E in Hnt |- *.
        destruct (fecha_limite_loop fuel f' (c + 1) n) as [r| |];
          cbn [luego] in Hnt |- *; try reflexivity.
        replace (S fuel) with (fuel + 1)%nat by lia.
        symmetry. apply loop_mas_fuel. exact Hnt.
      * pose proof (IH f' c n p ltac:(lia) Hnt) as E.
        rewrite E in Hnt |- *.
        destruct (fecha_limite_loop fuel f' c n) as [r| |];
          cbn [luego] in Hnt |- *; try reflexivity.
        replace (S fuel) with (fuel + 1)%nat by lia.
        symmetry. apply loop_mas_fuel. exact Hnt.
    + intros _. rewrite (loop_fin _ f c n) by lia. cbn [luego].
      assert (c = n) by lia. subst c. reflexivity.
Qed.

Lemma fecha_limite_habiles_rango f n r :
  1 <= dt_date f <= MAXORD ->
  fecha_limite_habiles f n = Done r -> 1 <= dt_date r <= MAXORD.
Proof.
  intros Hf H. apply loop_correct in H.
  destruct H as (H1 & _ & _ & H4 & H5).
  destruct (Z_lt_ge_dec 0 n) as [L|L].
  - specialize (H4 L). lia.
  - rewrite H5 by lia. exact Hf.
Qed.

(** X3.  Counting [n + m] business days from a date is counting [n] and then
    [m] from where that arrived, exceptions included: when either part
    raises OverflowError, so does the whole. *)
Theorem fecha_limite_habiles_suma (f : datetime) (n m : Z) :
  1 <= dt_date f <= MAXORD -> 0 <= n -> 0 <= m ->
  fecha_limite_habiles f (n + m)
  = luego (fecha_limite_habiles f n) (fun r => fecha_limite_habiles r m).
Proof.
  intros Hf Hn Hm.
  pose proof (fecha_limite_habiles_total f (n + m) Hf) as T.
  pose proof (fecha_limite_habiles_total f n Hf) as Tn.
  unfold fecha_limite_habiles in T, Tn |- *.
  pose proof (loop_split _ f 0 n (n + m) ltac:(lia) T) as E.
  rewrite E. clear E T.
  replace (Z.to_nat (4 * (n + m)))
    with (Z.to_nat (4 * n) + Z.to_nat (4 * m))%nat by lia.
  rewrite (loop_mas_fuel _ _ f 0 n Tn).
  destruct (fecha_limite_loop (Z.to_nat (4 * n)) f 0 n) as [r| |] eqn:R;
    cbn [luego]; try reflexivity.
  assert (Hr : 1 <= dt_date r <= MAXORD)
    by (apply (fecha_limite_habiles_rango f n); assumption).
  pose proof (fecha_limite_habiles_total r m Hr) as Tm.
  unfold fecha_limite_habiles in Tm.
  rewrite <- (loop_shift n _ r 0 m) in Tm |- *.
  rewrite Z.add_0_l, (Z.add_comm m n) in Tm |- *.
  rewrite Nat.add_comm. apply loop_mas_fuel. exact Tm.
Qed.

Lemma fecha_limite_habiles_suma_witness :
  fecha_limite_habiles (combine_min 739252) (10 + 20)
  = luego (fecha_limite_habiles (combine_min 739252) 10)
      (fun r => fecha_limite_habiles r 20).
Proof.
  apply fecha_limite_habiles_suma; [simpl; unfold MAXORD; lia|lia|lia].
Defined.

(** X4.  Edges of [fecha_limite_habiles]: a count of zero or less returns
    the start unchanged, and a count that does not fit before 9999-12-31
    raises OverflowError. *)
Theorem fecha_limite_habiles_bordes (f : datetime) (n : Z) :
  (n <= 0 -> fecha_limite_habiles f n = Done f)
  /\ (1 <= dt_date f <= MAXORD -> MAXORD < dt_date f + n ->
      fecha_limite_habiles f n = Raise OverflowError).
Proof.
  split.
  - intros Hn. apply loop_fin. exact Hn.
  - intros Hf Hn.
    pose proof (fecha_limite_habiles_total f n Hf) as T.
    destruct (fecha_limite_habiles f n) as [r|e|] eqn:R.
    + exfalso.
      pose proof (fecha_limite_habiles_rango f n r Hf R) as Rg.
      unfold fecha_limite_habiles in R. apply loop_correct in R.
      destruct R as (H1 & _ & H3 & _ & _).
      pose proof (habiles_entre_le _ _ H1) as L. rewrite H3 in L. lia.
    + clear T. f_equal. unfold fecha_limite_habiles in R.
      revert R. generalize (Z.to_nat (4 * n)), 0.
      intros fuel. clear Hf Hn. revert f.
      induction fuel as [|fuel IH]; intros f c; simpl;
        destruct (c <? n); try discriminate.
      destruct (dt_add_days f 1) as [f'|]; [|intros H; congruence].
      destruct (es_dia_habil (dt_date f')); apply IH.
    + congruence.
Qed.

Lemma fecha_limite_habiles_bordes_witness :
  fecha_limite_habiles (combine_min 739255) (-3) = Done (combine_min 739255)
  /\ fecha_limite_habiles (combine_min (MAXORD - 2)) 3 = Raise OverflowError.
Proof.
  split.
  - apply (fecha_limite_habiles_bordes (combine_min 739255) (-3)). lia.
  - apply (fecha_limite_habiles_bordes (combine_min (MAXORD - 2)) 3);
      simpl; unfold MAXORD; lia.
Defined.

Lemma habiles_entre_suma a b c :
  a <= b <= c ->
  habiles_entre a c = habiles_entre a b + habiles_entre b c.
Proof.
  intros H.
  remember (Z.to_nat (b - a)) as k eqn:K. revert a K H.
  induction k as [|k IH]; intros a K H.
  - assert (a = b) by lia. subst a. rewrite habiles_entre_refl. lia.
  - rewrite (habiles_entre_step a c), (habiles_entre_step a b) by lia.
    rewrite (IH (a + 1)) by lia. lia.
Qed.

(** X5.  [fecha_limite_habiles] is monotone: a start that is not earlier and
    a count that is not smaller never give an earlier limit. *)
Theorem fecha_limite_habiles_monotona (f f' r r' : datetime) (n n' : Z) :
  dt_date f <= dt_date f' -> 0 <= n <= n' ->
  fecha_limite_habiles f n = Done r ->
  fecha_limite_habiles f' n' = Done r' ->
  dt_date r <= dt_date r'.
Proof.
  intros Hf Hn H H'.
  apply loop_correct in H, H'.
  destruct H as (H1 & _ & H3 & H4 & H5).
  destruct H' as (H1' & _ & H3' & _ & _).
  destruct (Z.eq_dec n 0) as [->|N0].
  - rewrite H5 by lia. lia.
  - destruct (H4 ltac:(lia)) as [Hh Hr].
    destruct (Z_le_gt_dec (dt_date r) (dt_date r')) as [L|L]; [exact L|].
    exfalso.
    pose proof (habiles_entre_suma (dt_date f) (dt_date f') (dt_date r')
                  ltac:(lia)) as S1.
    pose proof (habiles_entre_suma (dt_date f) (dt_date r') (dt_date r)
                  ltac:(lia)) as S2.
    pose proof (habiles_entre_suma (dt_date r') (dt_date r - 1) (dt_date r)
                  ltac:(lia)) as S3.
    rewrite (habiles_entre_step (dt_date r - 1) (dt_date r)) in S3 by lia.
    replace (dt_date r - 1 + 1) with (dt_date r) in S3 by lia.
    rewrite Hh, habiles_entre_refl in S3.
    pose proof (habiles_entre_le (dt_date f) (dt_date f') ltac:(lia)).
    pose proof (habiles_entre_le (dt_date r') (dt_date r - 1) ltac:(lia)).
    lia.
Qed.

Lemma fecha_limite_habiles_monotona_witness :
  739294 <= 739308.
Proof.
  apply (fecha_limite_habiles_monotona (combine_min 739252)
           (combine_min 739266) (combine_min 739294) (combine_min 739308)
           30 30).
  - simpl. lia.
  - lia.
  - vm_compute. reflexivity.
  - vm_compute. reflexivity.
Defined.

(* ================================================================== *)
(** * The shape of normalised texts, tokens and inferred items *)
(* ================================================================== *)

Lemma sin_dobles_contains s : forall b,
  Forall (fun c => limpio_ch c = true) s -> sin_dobles b s = true ->
  contains s (L1 "  ") = false.
Proof.
  induction s as [|c s IH]; intros b Hs Hd; [reflexivity|].
  inversion Hs as [|? ? Hc Hs']; subst.
  assert (T : contains s (L1 "  ") = false).
  { simpl in Hd. destruct (is_space c).
    - apply andb_true_iff in Hd. apply (IH true); [exact Hs'|apply Hd].
    - apply (IH false); assumption. }
  change (L1 "  ") with [" "%char; " "%char] in *.
  cbn [contains]. rewrite T, orb_false_r.
  cbn [startswith].
  destruct (ch_eqb " " c) eqn:E1; [|reflexivity].
  apply Ascii.eqb_eq in E1. subst c.
  destruct s as [|d s]; [reflexivity|]. cbn [startswith andb].
  destruct (ch_eqb " " d) eqn:E2; [|reflexivity].
  apply Ascii.eqb_eq in E2. subst d.
  change (sin_dobles b (" "%char :: " "%char :: s))
    with (negb b && (negb true && sin_dobles true s))%bool in Hd.
  rewrite andb_false_l, andb_false_r in Hd. discriminate.
Qed.

(** X6.  A text normalised by [normalizar_texto] holds nothing but the
    letters a to z, the digits and the space, has no space at either end and
    no two spaces in a row. *)
Theorem normalizar_texto_forma (s : str) :
  let t := normalizar_texto s in
  Forall (fun c => (between 97 122 c || between 48 57 c
                    || ch_eqb c " ")%bool = true) t
  /\ strip t = t
  /\ contains t (L1 "  ") = false.
Proof.
  intros t. pose proof (normalizar_texto_canonico s) as K.
  fold t in K. split; [|split].
  - destruct K as (K & _). exact K.
  - apply strip_canonico. exact K.
  - destruct K as (K1 & K2 & _). apply (sin_dobles_contains t true); assumption.
Qed.

Lemma split_ws_aux_In (P : ascii -> Prop) t : forall s cur,
  Forall P cur ->
  Forall (fun c => is_space c = false -> P c) s ->
  In t (split_ws_aux cur s) -> t <> [] /\ Forall P t.
Proof.
  induction s as [|c s IH]; intros cur Hcur Hs Hin; simpl in Hin.
  - destruct cur as [|x cur]; [contradiction|].
    destruct Hin as [<-|[]]. split.
    + intros E. apply (f_equal (@List.length ascii)) in E.
      rewrite length_rev in E. discriminate.
    + apply Forall_rev. exact Hcur.
  - inversion Hs as [|? ? Hc Hs']; subst.
    destruct (is_space c) eqn:E.
    + destruct cur as [|x cur].
      * apply (IH []); [constructor|exact Hs'|exact Hin].
      * destruct Hin as [<-|Hin].
        -- split.
           ++ intros E'. apply (f_equal (@List.length ascii)) in E'.
              rewrite length_rev in E'. discriminate.
           ++ apply Forall_rev. exact Hcur.
        -- apply (IH []); [constructor|exact Hs'|exact Hin].
    + apply (IH (c :: cur)); [|exact Hs'|exact Hin].
      constructor; [apply Hc; reflexivity|exact Hcur].
Qed.

(** X7.  Every token returned by [tokens_utiles] is a non-empty word of
    letters a to z and digits, and is no stop word. *)
Theorem tokens_utiles_forma (s : str) (t : str) :
  In t (tokens_utiles s) ->
  t <> []
  /\ Forall (fun c => (between 97 122 c || between 48 57 c)%bool = true) t
  /\ ~ In t STOPWORDS.
Proof.
  unfold tokens_utiles. intros H. apply filter_In in H.
  destruct H as [Hin Hc]. apply andb_true_iff in Hc.
  destruct Hc as [_ Hst].
  pose proof (normalizar_texto_canonico s) as (K & _).
  destruct (split_ws_aux_In (fun c => alnum_ch c = true) t
              (normalizar_texto s) []) as [N A];
    [constructor| |exact Hin|].
  - eapply Forall_impl; [|exact K]. intros c Hl Hsp.
    unfold limpio_ch in Hl. apply orb_true_iff in Hl.
    destruct Hl as [Hl|Hl]; [exact Hl|].
    apply Ascii.eqb_eq in Hl. subst c. discriminate.
  - split; [exact N|]. split; [exact A|].
    intros Hin'. apply negb_true_iff in Hst.
    assert (E : existsb (str_eqb t) STOPWORDS = true).
    { apply existsb_exists. exists t. split; [exact Hin'|apply str_eqb_refl]. }
    congruence.
Qed.

Lemma tokens_utiles_forma_witness :
  L1 "certificacion" <> [] /\ ~ In (L1 "certificacion") STOPWORDS.
Proof.
  destruct (tokens_utiles_forma
              (L1 "Certificación de la Empresa S.A.S. 2024.pdf")
              (L1 "certificacion")) as (H1 & _ & H3).
  - vm_compute. left. reflexivity.
  - split; assumption.
Defined.

(** The date cleaner is its four rewriting steps followed by the removal
    of the brackets. *)
Lemma limpiar_texto_fecha_pasos s :
  limpiar_texto_fecha s = filter no_bracket (pasos_limpiar s).
Proof.
  unfold limpiar_texto_fecha.
  destruct (negb (truthy s)) eqn:E; [destruct s; [reflexivity|discriminate]|].
  unfold Re.sub. change (L1 "1") with ["1"%char].
  change (L1 "0") with ["0"%char].
  rewrite (sub_ctx_map RE_L_AISLADA "1" l_aislada
             match_at_l_aislada match_at_l_aislada_nil).
  rewrite (sub_ctx_map (RE_O_ENTRE_DIGITOS "O") "0" (entre_digitos "O")
             (match_at_entre_digitos "O") (match_at_entre_digitos_nil "O")).
  rewrite (sub_ctx_map (RE_O_ENTRE_DIGITOS "o") "0" (entre_digitos "o")
             (match_at_entre_digitos "o") (match_at_entre_digitos_nil "o")).
  fold (pasos_limpiar s). unfold RE_BRACKETS.
  apply sub_cls_filter.
Qed.

Lemma filter_ctx_map_length (q : ascii -> bool) f s : forall prev,
  (forall p c n, q (f p c n) = q c) ->
  List.length (filter q (ctx_map f prev s)) = List.length (filter q s).
Proof.
  induction s as [|c s IH]; intros prev H; [reflexivity|].
  cbn [ctx_map filter]. rewrite H.
  destruct (q c); cbn [List.length]; rewrite IH by exact H; reflexivity.
Qed.

Lemma reescribir_no_bracket cond x p c n :
  no_bracket x = true ->
  (cond p c n = true -> no_bracket c = true) ->
  no_bracket (reescribir cond x p c n) = no_bracket c.
Proof.
  intros Hx Hc. unfold reescribir.
  destruct (cond p c n); [|reflexivity].
  rewrite Hx, Hc; reflexivity.
Qed.

(** X8.  The text cleaned by [limpiar_texto_fecha] has no bar and no bracket
    of any kind; each of its characters is a character of the input or one
    of "/", "1" and "0", written for a character read wrong; and it is as
    long as the input without its brackets. *)
Theorem limpiar_texto_fecha_forma (s : str) :
  let t := limpiar_texto_fecha s in
  Forall (fun c => Re.any_of (L1 "|[]{}()") c = false) t
  /\ Forall (fun c => In c s \/ In c ["/"; "1"; "0"]%char) t
  /\ List.length t
     = List.length (filter (fun c => negb (Re.any_of (L1 "[]{}()") c)) s).
Proof.
  intros t. unfold t. rewrite limpiar_texto_fecha_pasos.
  split; [|split].
  - apply Forall_forall. intros c Hc. apply filter_In in Hc.
    destruct Hc as [Hin Hb].
    destruct (pasos_limpiar_estable s) as (Hbar & _).
    rewrite Forall_forall in Hbar. specialize (Hbar c Hin).
    unfold no_bracket in Hb. unfold no_barra in Hbar.
    apply negb_true_iff in Hb, Hbar.
    unfold Re.any_of in *. change (L1 "|[]{}()") with ("|"%char :: L1 "[]{}()").
    cbn [existsb]. rewrite Hb, Hbar. reflexivity.
  - apply Forall_forall. intros c Hc. apply filter_In in Hc.
    destruct Hc as [Hin _].
    assert (F : Forall (fun c => In c s \/ In c ["/"; "1"; "0"]%char)
                  (pasos_limpiar s)).
    { apply pasos_limpiar_Forall; try (right; simpl; tauto).
      apply Forall_forall. intros x Hx. left. exact Hx. }
    rewrite Forall_forall in F. apply F, Hin.
  - unfold pasos_limpiar. fold no_bracket.
    rewrite !filter_ctx_map_length.
    + unfold replace_ch.
      induction s as [|c s IH]; [reflexivity|]. cbn [map filter].
      assert (E : no_bracket (if ch_eqb c "|" then "/"%char else c)
                  = no_bracket c).
      { destruct (ch_eqb c "|") eqn:E; [|reflexivity].
        apply Ascii.eqb_eq in E. subst c. reflexivity. }
      rewrite E. destruct (no_bracket c); cbn [List.length]; rewrite IH;
        reflexivity.
    + intros p c n. apply reescribir_no_bracket; [reflexivity|].
      unfold l_aislada. intros H. apply andb_true_iff in H.
      destruct H as [H _]. apply andb_true_iff in H. destruct H as [H _].
      apply Ascii.eqb_eq in H. subst c. reflexivity.
    + intros p c n. apply reescribir_no_bracket; [reflexivity|].
      unfold entre_digitos. intros H. apply andb_true_iff in H.
      destruct H as [H _]. apply andb_true_iff in H. destruct H as [H _].
      apply Ascii.eqb_eq in H. subst c. reflexivity.
    + intros p c n. apply reescribir_no_bracket; [reflexivity|].
      unfold entre_digitos. intros H. apply andb_true_iff in H.
      destruct H as [H _]. apply andb_true_iff in H. destruct H as [H _].
      apply Ascii.eqb_eq in H. subst c. reflexivity.
Qed.

(** ** Idempotence of [limpiar_texto_fecha], read on its output *)

Lemma word_no_bracket c : is_word c = true -> no_bracket c = true.
Proof.
  intros H.
  assert (F : forall_ascii (fun c => implb (is_word c) (no_bracket c)) = true)
    by (vm_compute; reflexivity).
  pose proof (forall_ascii_spec _ F c) as E. cbv beta in E.
  rewrite H in E. exact E.
Qed.

(** Taking the brackets out isolates no "l": a word character next to it
    stays next to it. *)
Lemma sin_l_aislada_filter s : forall prev prev',
  (Wo prev = true -> prev' = prev) ->
  all3 (fun p c n => negb (l_aislada p c n)) prev s = true ->
  all3 (fun p c n => negb (l_aislada p c n)) prev' (filter no_bracket s)
  = true.
Proof.
  induction s as [|c s IH]; intros prev prev' Hp H; [reflexivity|].
  cbn [all3] in H. apply andb_true_iff in H. destruct H as [H1 H2].
  cbn [filter]. destruct (no_bracket c) eqn:B.
  - cbn [all3]. apply andb_true_iff. split.
    + unfold l_aislada in *. destruct (ch_eqb c "l"); [|reflexivity].
      cbn [andb] in *. rewrite negb_andb, !negb_involutive in *.
      apply orb_true_iff in H1. apply orb_true_iff.
      destruct H1 as [H1|H1].
      * left. rewrite (Hp H1). exact H1.
      * right. destruct s as [|n s']; [discriminate H1|].
        cbn [hd_error] in H1. cbn [filter].
        unfold Wo, Re.word_opt in H1.
        rewrite (word_no_bracket n H1). exact H1.
    + apply (IH (Some c) (Some c)); [reflexivity|exact H2].
  - apply (IH (Some c) prev'); [|exact H2].
    intros W. unfold Wo, Re.word_opt in W.
    rewrite (word_no_bracket c W) in B. discriminate.
Qed.

Lemma filter_todos {A : Type} (p : A -> bool) l :
  Forall (fun x => p x = true) l -> filter p l = l.
Proof.
  induction 1 as [|x l Hx _ IH]; [reflexivity|].
  simpl. rewrite Hx, IH. reflexivity.
Qed.

(** A rewriting that changed nothing found nothing to rewrite. *)
Lemma ctx_map_fijo_inv cond x s :
  (forall p c n, cond p c n = true -> c <> x) ->
  forall prev,
    ctx_map (reescribir cond x) prev s = s ->
    all3 (fun p c n => negb (cond p c n)) prev s = true.
Proof.
  intros Hx. induction s as [|c s IH]; intros prev H; [reflexivity|].
  cbn [ctx_map] in H. injection H as H1 H2.
  cbn [all3]. apply andb_true_iff. split; [|apply IH, H2].
  unfold reescribir in H1. destruct (cond prev c (hd_error s)) eqn:E;
    [|reflexivity].
  exfalso. apply (Hx _ _ _ E). symmetry. exact H1.
Qed.

Lemma entre_digitos_letra X p c n :
  entre_digitos X p c n = true -> c = X.
Proof.
  unfold entre_digitos. intros H.
  apply andb_true_iff in H. destruct H as [H _].
  apply andb_true_iff in H. destruct H as [H _].
  apply Ascii.eqb_eq in H. exact H.
Qed.

(** The rewriting of "o" does not undo the rewriting of "O". *)
Lemma ctx_map_O_o_fijo s : forall p q,
  ctx_map (reescribir (entre_digitos "o") "0") q
    (ctx_map (reescribir (entre_digitos "O") "0") p s) = s ->
  ctx_map (reescribir (entre_digitos "O") "0") p s = s.
Proof.
  induction s as [|c s IH]; intros p q H; [reflexivity|].
  cbn [ctx_map] in H |- *. injection H as H1 H2.
  rewrite (IH _ _ H2). f_equal.
  unfold reescribir in H1 |- *.
  destruct (entre_digitos "O" p c (hd_error s)) eqn:E; [|reflexivity].
  apply entre_digitos_letra in E. subst c. exfalso.
  match type of H1 with
  | (if ?b then _ else _) = _ => destruct b eqn:E'
  end; [discriminate H1|discriminate H1].
Qed.

(** What [limpiar_texto_fecha] returns has no bar, no bracket and no
    isolated "l". *)
Lemma limpiar_texto_fecha_salida s :
  let t := limpiar_texto_fecha s in
  Forall (fun c => no_barra c = true) t
  /\ Forall (fun c => no_bracket c = true) t
  /\ sin_l_aislada t.
Proof.
  intros t. unfold t. rewrite limpiar_texto_fecha_pasos.
  destruct (pasos_limpiar_estable s) as (E1 & E2 & _).
  split; [|split].
  - apply Forall_forall. intros c Hc. apply filter_In in Hc.
    rewrite Forall_forall in E1. apply E1, Hc.
  - apply Forall_forall. intros c Hc. apply filter_In in Hc. apply Hc.
  - apply (sin_l_aislada_filter _ None None); [reflexivity|exact E2].
Qed.

Lemma limpiar_texto_fecha_salida_fija s :
  let t := limpiar_texto_fecha s in
  limpiar_texto_fecha t = t
  <-> sin_entre_digitos "O" t /\ sin_entre_digitos "o" t.
Proof.
  intros t. destruct (limpiar_texto_fecha_salida s) as (B & K & L).
  fold t in B, K, L.
  rewrite (limpiar_sin_brackets t K). split.
  - intros H. unfold pasos_limpiar in H.
    rewrite (replace_barra_fijo t B) in H.
    rewrite (ctx_map_fijo l_aislada "1" t None L) in H.
    pose proof (ctx_map_O_o_fijo t None None H) as HO.
    rewrite HO in H. split.
    + apply (ctx_map_fijo_inv (entre_digitos "O") "0"); [|exact HO].
      intros p c n E. apply entre_digitos_letra in E. subst c. discriminate.
    + apply (ctx_map_fijo_inv (entre_digitos "o") "0"); [|exact H].
      intros p c n E. apply entre_digitos_letra in E. subst c. discriminate.
  - intros [HO Ho]. apply pasos_limpiar_fijo; assumption.
Qed.

(** C10, as the code has it.  Neither normaliser is idempotent on every
    text.  [normalizar_texto] always returns lower-case words of letters and
    digits separated by single spaces, with no space at either end, and
    applying it again changes nothing provided that result shows none of the
    noise markers it deletes (the words "nis", "radicad", "radicado",
    "radicada", "anexos", "respuestas", "internas"; "ticketid" followed by
    digits; a word of five or more digits).  Applying [limpiar_texto_fecha]
    again changes nothing exactly when what it returned has no "O" and no
    "o" between two digits, which the removal of a bracket alone can leave
    there: so on every text that holds no bracket. *)
Theorem normalizadores_idempotentes :
  (forall s,
     let t := normalizar_texto s in
     Forall (fun c => (between 97 122 c || between 48 57 c
                       || ch_eqb c " ")%bool = true) t
     /\ strip t = t
     /\ contains t (L1 "  ") = false
     /\ (Re.search RE_NIS t = None -> Re.search RE_RADICADO t = None ->
         Re.search RE_ANEXOS t = None -> Re.search RE_TICKETID t = None ->
         Re.search RE_NUM_LARGO t = None ->
         normalizar_texto t = t))
  /\ (forall s,
        let t := limpiar_texto_fecha s in
        limpiar_texto_fecha t = t
        <-> sin_entre_digitos "O" t /\ sin_entre_digitos "o" t)
  /\ (forall s,
        Forall (fun c => no_bracket c = true) s ->
        limpiar_texto_fecha (limpiar_texto_fecha s) = limpiar_texto_fecha s).
Proof.
  split; [|split].
  - intros s t. pose proof (normalizar_texto_canonico s) as K. fold t in K.
    split; [apply K|]. split; [apply strip_canonico, K|].
    split; [destruct K as (K1 & K2 & _);
            apply (sin_dobles_contains t true); assumption|].
    apply normalizar_texto_fijo, K.
  - apply limpiar_texto_fecha_salida_fija.
  - intros s H. rewrite (limpiar_sin_brackets s H).
    rewrite limpiar_sin_brackets
      by (apply pasos_limpiar_Forall; try reflexivity; exact H).
    destruct (pasos_limpiar_estable s) as (E1 & E2 & E3 & E4).
    apply pasos_limpiar_fijo; assumption.
Qed.

(** A filename on which the second application changes nothing, and an OCR
    line with brackets on which it changes nothing either. *)
Lemma normalizadores_idempotentes_witness :
  normalizar_texto
    (normalizar_texto (L1 "Certificación_Bancaria (Banco) 2024.PDF"))
  = normalizar_texto (L1 "Certificación_Bancaria (Banco) 2024.PDF")
  /\ limpiar_texto_fecha (L1 "(NIT) 1(2) [a], l| de enero del 2O25")
     = L1 "NIT 12 a, 1/ de enero del 2025"
  /\ limpiar_texto_fecha
       (limpiar_texto_fecha (L1 "(NIT) 1(2) [a], l| de enero del 2O25"))
     = limpiar_texto_fecha (L1 "(NIT) 1(2) [a], l| de enero del 2O25").
Proof.
  destruct normalizadores_idempotentes as (H1 & H2 & _). split; [|split].
  - apply H1; vm_compute; reflexivity.
  - vm_compute. reflexivity.
  - apply H2. split; vm_compute; reflexivity.
Defined.

(** C10 as stated fails for both normalisers: an underscore hides the
    word "nis" from the first application of [normalizar_texto], and the
    removal of the brackets puts the "O" between digits only after
    [limpiar_texto_fecha] has looked for it. *)
Lemma normalizadores_no_idempotentes :
  normalizar_texto (L1 "a_nis_b") = L1 "a nis b"
  /\ normalizar_texto (L1 "a nis b") = L1 "a"
  /\ limpiar_texto_fecha (L1 "1(O)2") = L1 "1O2"
  /\ limpiar_texto_fecha (L1 "1O2") = L1 "102".
Proof. vm_compute. repeat split; reflexivity. Qed.

(** ** Filename inference *)

Lemma code_inj x y : code x = code y -> x = y.
Proof.
  unfold code. intros H. apply (f_equal ascii_of_N) in H.
  rewrite !ascii_N_embedding in H. exact H.
Qed.

Lemma str_ltb_trans a : forall b c,
  str_ltb a b = true -> str_ltb b c = true -> str_ltb a c = true.
Proof.
  induction a as [|x a IH]; intros [|y b] [|z c]; simpl; try discriminate;
    try reflexivity.
  destruct (N.ltb (code x) (code y)) eqn:E1.
  - intros _. destruct (N.ltb (code y) (code z)) eqn:E2.
    + intros _. apply N.ltb_lt in E1, E2.
      assert (E : N.ltb (code x) (code z) = true) by (apply N.ltb_lt; lia).
      rewrite E. reflexivity.
    + destruct (N.ltb (code z) (code y)) eqn:E3; [discriminate|].
      intros _. apply N.ltb_lt in E1. apply N.ltb_ge in E2, E3.
      assert (E : N.ltb (code x) (code z) = true) by (apply N.ltb_lt; lia).
      rewrite E. reflexivity.
  - destruct (N.ltb (code y) (code x)) eqn:E2; [discriminate|].
    apply N.ltb_ge in E1, E2. assert (Exy : code x = code y) by lia.
    rewrite Exy. intros Hab.
    destruct (N.ltb (code y) (code z)); [reflexivity|].
    destruct (N.ltb (code z) (code y)); [discriminate|].
    apply IH. exact Hab.
Qed.

Lemma str_ltb_total a : forall b,
  a <> b -> str_ltb a b = false -> str_ltb b a = true.
Proof.
  induction a as [|x a IH]; intros [|y b] Hne; simpl; try discriminate;
    try reflexivity; try congruence.
  destruct (N.ltb (code x) (code y)) eqn:E1; [discriminate|].
  destruct (N.ltb (code y) (code x)) eqn:E2; [reflexivity|].
  apply N.ltb_ge in E1, E2. assert (Exy : code x = code y) by lia.
  apply code_inj in Exy. subst y. apply IH. congruence.
Qed.

Lemma str_ltb_irrefl a : str_ltb a a = false.
Proof.
  induction a as [|x a IH]; [reflexivity|]. simpl.
  rewrite N.ltb_irrefl. exact IH.
Qed.

Lemma In_insert_sorted {A : Type} (lt : A -> A -> bool) x y l :
  In y (insert_sorted lt x l) <-> y = x \/ In y l.
Proof.
  induction l as [|z l IH]; simpl; [intuition congruence|].
  destruct (lt z x); simpl; [rewrite IH|]; intuition congruence.
Qed.

Lemma In_sorted_by {A : Type} (lt : A -> A -> bool) y l :
  In y (sorted_by lt l) <-> In y l.
Proof.
  induction l as [|x l IH]; simpl; [tauto|].
  rewrite In_insert_sorted, IH. intuition congruence.
Qed.

Lemma In_dedup_aux xs : forall seen y,
  In y (dedup_aux seen xs) <-> In y xs /\ ~ In y seen.
Proof.
  induction xs as [|x xs IH]; intros seen y; simpl; [tauto|].
  destruct (existsb (str_eqb x) seen) eqn:E.
  - rewrite IH. apply existsb_exists in E. destruct E as [z [Hz Ez]].
    apply str_eqb_eq in Ez. subst z. intuition congruence.
  - simpl. rewrite IH. simpl.
    assert (Hx : ~ In x seen).
    { intros Hin. assert (E' : existsb (str_eqb x) seen = true).
      { apply existsb_exists. exists x. split; [exact Hin|apply str_eqb_refl]. }
      congruence. }
    split.
    + intros [<-|[H1 H2]]; [tauto|]. split; [tauto|]. intros H. apply H2.
      right. exact H.
    + intros [[<-|H1] H2]; [left; reflexivity|].
      destruct (list_eq_dec ascii_dec x y) as [->|Hne]; [left; reflexivity|].
      right. split; [exact H1|]. intros [H|H]; [congruence|tauto].
Qed.

Lemma In_dedup y xs : In y (dedup xs) <-> In y xs.
Proof. unfold dedup. rewrite In_dedup_aux. simpl. tauto. Qed.

Lemma NoDup_dedup_aux xs : forall seen, NoDup (dedup_aux seen xs).
Proof.
  induction xs as [|x xs IH]; intros seen; simpl; [constructor|].
  destruct (existsb (str_eqb x) seen); [apply IH|].
  constructor; [|apply IH]. rewrite In_dedup_aux. simpl. tauto.
Qed.

Lemma insert_sorted_creciente x l :
  creciente l -> ~ In x l -> creciente (insert_sorted str_ltb x l).
Proof.
  unfold creciente. intros Hs. induction Hs as [|y l Hs IH Hy]; intros Hx.
  - simpl. constructor; constructor.
  - simpl. destruct (str_ltb y x) eqn:E.
    + constructor.
      * apply IH. intros H. apply Hx. right. exact H.
      * apply Forall_forall. intros z Hz. apply In_insert_sorted in Hz.
        destruct Hz as [->|Hz]; [exact E|].
        rewrite Forall_forall in Hy. apply Hy, Hz.
    + assert (Lxy : str_ltb x y = true).
      { apply str_ltb_total; [|exact E]. intros ->. apply Hx. left.
        reflexivity. }
      constructor; [constructor; assumption|].
      constructor; [exact Lxy|].
      eapply Forall_impl; [|exact Hy]. intros z Hz.
      apply (str_ltb_trans x y z); assumption.
Qed.

Lemma sorted_by_creciente l :
  NoDup l -> creciente (sorted_by str_ltb l).
Proof.
  induction 1 as [|x l Hx Hn IH]; simpl; [constructor|].
  apply insert_sorted_creciente; [exact IH|].
  rewrite In_sorted_by. exact Hx.
Qed.

Lemma creciente_NoDup l : creciente l -> NoDup l.
Proof.
  induction 1 as [|x l Hs IH Hx]; constructor; [|exact IH].
  intros Hin. rewrite Forall_forall in Hx. specialize (Hx x Hin).
  rewrite str_ltb_irrefl in Hx. discriminate.
Qed.

Lemma item_detectado_vacio it : item_detectado [] it = false.
Proof.
  unfold item_detectado.
  induction (frases_de it) as [|f fs IH]; [reflexivity|].
  cbn [existsb]. rewrite IH. destruct f; reflexivity.
Qed.

(** The ids inferred from a filename: in increasing order, and those of
    the items of which a phrase occurs in the normalised name. *)
Lemma inferir_items_caracter (nombre_archivo tipo_devolucion : str) :
  let ids := inferir_items_desde_nombre nombre_archivo tipo_devolucion in
  let nm := normalizar_texto nombre_archivo in
  creciente ids
  /\ forall id,
       In id ids <->
       existsb (contains nm) todo_markers = false
       /\ exists it, In it (checklist_de tipo_devolucion) /\ item_id it = id
                     /\ item_detectado nm it = true.
Proof.
  intros ids nm. unfold ids, inferir_items_desde_nombre. fold nm.
  assert (V : nm = [] ->
              forall id,
                In id [] <->
                existsb (contains nm) todo_markers = false
                /\ exists it, In it (checklist_de tipo_devolucion)
                              /\ item_id it = id
                              /\ item_detectado nm it = true).
  { intros -> id. split; [intros []|].
    intros (_ & it & _ & _ & D). rewrite item_detectado_vacio in D.
    discriminate. }
  destruct nombre_archivo as [|c0 n0] eqn:N.
  { split; [constructor|]. apply V. reflexivity. }
  cbn [truthy negb].
  destruct nm as [|c1 n1] eqn:M.
  { split; [constructor|]. apply V. reflexivity. }
  cbn [truthy negb]. clear V. rewrite <- M.
  destruct (existsb (contains nm) todo_markers).
  { split; [constructor|]. intros id. split; [intros []|].
    intros [X _]. discriminate X. }
  destruct (map item_id (filter (item_detectado nm)
                           (checklist_de tipo_devolucion)))
    as [|d ds] eqn:D.
  { split; [constructor|]. intros id. split; [intros []|].
    intros (_ & it & Hin & E & Hd).
    assert (X : In id (map item_id (filter (item_detectado nm)
                                      (checklist_de tipo_devolucion)))).
    { apply in_map_iff. exists it. split; [exact E|].
      apply filter_In. split; assumption. }
    rewrite D in X. contradiction. }
  rewrite <- D. split.
  - apply sorted_by_creciente. apply NoDup_dedup_aux.
  - intros id. rewrite In_sorted_by, In_dedup, in_map_iff. split.
    + intros [it [E Hin]]. apply filter_In in Hin.
      split; [reflexivity|]. exists it. tauto.
    + intros (_ & it & Hin & E & Hd). exists it. split; [exact E|].
      apply filter_In. split; assumption.
Qed.


(* ================================================================== *)
(** * Months, years and the order of the candidate dates *)
(* ================================================================== *)

Lemma startswith_firstn p : forall s k,
  (List.length p <= k)%nat -> startswith (firstn k s) p = startswith s p.
Proof.
  induction p as [|x p IH]; intros s k H;
    [destruct s, k; reflexivity|].
  destruct k as [|k]; [simpl in H; lia|].
  destruct s as [|y s]; [reflexivity|].
  cbn [firstn startswith]. rewrite IH by (simpl in H; lia). reflexivity.
Qed.

Lemma buscar_mes_firstn tabla nombre :
  buscar_mes tabla nombre = buscar_mes tabla (firstn 3 nombre).
Proof.
  induction tabla as [|[key value] tabla IH]; [reflexivity|].
  cbn [buscar_mes]. rewrite IH.
  rewrite (startswith_firstn (firstn 3 key) nombre 3)
    by (rewrite length_firstn; lia).
  rewrite firstn_firstn. reflexivity.
Qed.

Lemma str_eqb_sym a : forall b, str_eqb a b = str_eqb b a.
Proof.
  induction a as [|x a IH]; intros [|y b]; try reflexivity.
  simpl. rewrite IH. unfold ch_eqb. rewrite Ascii.eqb_sym. reflexivity.
Qed.

Lemma startswith_igual p : forall s,
  List.length s = List.length p -> startswith s p = str_eqb p s.
Proof.
  induction p as [|x p IH]; intros [|y s] H; try reflexivity;
    try discriminate.
  simpl. rewrite IH by (simpl in H; lia). reflexivity.
Qed.

Lemma buscar_mes_exacto tabla p :
  List.length p = 3%nat ->
  Forall (fun kv => (3 <= List.length (fst kv))%nat) tabla ->
  buscar_mes tabla p = buscar_exacto (prefijos tabla) p.
Proof.
  intros Hp H. induction H as [|[key value] tabla Hk H IH]; [reflexivity|].
  cbn [buscar_mes prefijos map buscar_exacto fst snd].
  fold (prefijos tabla). rewrite IH.
  simpl in Hk.
  assert (L3 : List.length (firstn 3 key) = 3%nat)
    by (rewrite length_firstn; lia).
  rewrite (firstn_all2 (n := 3) p) by lia.
  rewrite <- (startswith_firstn p key 3) by lia.
  rewrite (startswith_igual (firstn 3 key) p) by lia.
  rewrite (startswith_igual p (firstn 3 key)) by lia.
  rewrite (str_eqb_sym p). rewrite orb_diag. reflexivity.
Qed.

(** X10.  The month lookup of the written dates reads the first three
    letters of the word and no more: a word and its first three letters get
    the same answer, and a word of three letters or more gets the month, if
    any, whose name or abbreviation starts with these three letters, so that
    "marcado" is March. *)
Theorem buscar_mes_tres_letras (mes_nombre : str) :
  buscar_mes MESES_ESPANOL mes_nombre
  = buscar_mes MESES_ESPANOL (firstn 3 mes_nombre)
  /\ ((3 <= List.length mes_nombre)%nat ->
      buscar_mes MESES_ESPANOL mes_nombre
      = buscar_exacto (prefijos MESES_ESPANOL) (firstn 3 mes_nombre)).
Proof.
  split; [apply buscar_mes_firstn|].
  intros H. rewrite buscar_mes_firstn. apply buscar_mes_exacto.
  - rewrite length_firstn. lia.
  - vm_compute. repeat constructor.
Qed.

Lemma buscar_mes_tres_letras_witness :
  buscar_mes MESES_ESPANOL (L1 "marcado") = Some 3.
Proof.
  etransitivity.
  - apply (buscar_mes_tres_letras (L1 "marcado")). simpl. lia.
  - vm_compute. reflexivity.
Defined.

(** ** The year of a date *)

Lemma is_leap_spec y :
  is_leap y = true <-> (y mod 4 = 0 /\ (y mod 100 <> 0 \/ y mod 400 = 0)).
Proof.
  unfold is_leap. rewrite andb_true_iff, orb_true_iff, negb_true_iff.
  rewrite !Z.eqb_eq, Z.eqb_neq. tauto.
Qed.

Ltac tabla_mes :=
  repeat match goal with
    | |- context [nth ?a ?b ?c] =>
        let v := eval vm_compute in (nth a b c) in
        change (nth a b c) with v
    | H : context [nth ?a ?b ?c] |- _ =>
        let v := eval vm_compute in (nth a b c) in
        change (nth a b c) with v in H
    | |- context [Z.eqb ?a ?b] =>
        let v := eval vm_compute in (Z.eqb a b) in
        change (Z.eqb a b) with v
    | H : context [Z.eqb ?a ?b] |- _ =>
        let v := eval vm_compute in (Z.eqb a b) in
        change (Z.eqb a b) with v in H
    | |- context [Z.ltb ?a ?b] =>
        let v := eval vm_compute in (Z.ltb a b) in
        change (Z.ltb a b) with v
    | H : context [Z.ltb ?a ?b] |- _ =>
        let v := eval vm_compute in (Z.ltb a b) in
        change (Z.ltb a b) with v in H
    end;
  cbn [andb] in *.

Lemma dia_del_anio y m d :
  1 <= m <= 12 -> 1 <= d <= days_in_month y m ->
  0 <= days_before_month y m + d - 1 < 365 + (if is_leap y then 1 else 0).
Proof.
  intros Hm Hd. unfold days_in_month, days_before_month in *.
  assert (M : m = 1 \/ m = 2 \/ m = 3 \/ m = 4 \/ m = 5 \/ m = 6 \/ m = 7
              \/ m = 8 \/ m = 9 \/ m = 10 \/ m = 11 \/ m = 12) by lia.
  destruct (is_leap y);
    destruct M as [M|[M|[M|[M|[M|[M|[M|[M|[M|[M|[M|M]]]]]]]]]]];
    rewrite M in *; tabla_mes; lia.
Qed.

Lemma year_of_ymd2ord y k :
  1 <= y ->
  0 <= k < 365 + (if is_leap y then 1 else 0) ->
  year_of (days_before_year y + k + 1) = y.
Proof.
  intros Hy Hk.
  pose proof (ord2ymd_year_cases (days_before_year y + k + 1)) as C.
  cbv zeta in C.
  assert (L : if is_leap y then (y mod 4 = 0 /\ (y mod 100 <> 0 \/ y mod 400 = 0))
              else ~ (y mod 4 = 0 /\ (y mod 100 <> 0 \/ y mod 400 = 0))).
  { destruct (is_leap y) eqn:E.
    - apply is_leap_spec. exact E.
    - intros H. apply is_leap_spec in H. congruence. }
  unfold days_before_year in *.
  destruct (is_leap y); Z.div_mod_to_equations; lia.
Qed.

Lemma mk_date_year y m d f : mk_date y m d = Some f -> year_of f = y.
Proof.
  unfold mk_date.
  destruct ((1 <=? y) && (y <=? 9999) && (1 <=? m) && (m <=? 12)
            && (1 <=? d) && (d <=? days_in_month y m))%bool eqn:E;
    [|discriminate].
  intros H. injection H as <-.
  repeat (apply andb_true_iff in E; destruct E as [E ?]).
  repeat match goal with
         | H : (_ <=? _) = true |- _ => apply Z.leb_le in H
         end.
  unfold ymd2ord.
  replace (days_before_year y + days_before_month y m + d)
    with (days_before_year y + (days_before_month y m + d - 1) + 1) by lia.
  apply year_of_ymd2ord; [lia|]. apply dia_del_anio; lia.
Qed.

(** The dates of the named-month pass. *)
Lemma fecha_de_texto_anio cs f :
  In f (fecha_de_texto cs) -> 1900 <= year_of f <= 2100.
Proof.
  unfold fecha_de_texto.
  destruct (Re.group 1 cs) as [g1|]; [|intros []].
  destruct (Re.group 2 cs) as [g2|]; [|intros []].
  destruct (Re.group 3 cs) as [g3|]; [|intros []].
  destruct (buscar_mes MESES_ESPANOL (strip (lower g2))) as [mes|];
    [|intros []].
  destruct ((1 <=? int_of_digits g1) && (int_of_digits g1 <=? 31)
            && (1900 <=? ajustar_anio (int_of_digits g3))
            && (ajustar_anio (int_of_digits g3) <=? 2100))%bool eqn:E;
    [|intros []].
  destruct (mk_date (ajustar_anio (int_of_digits g3)) mes
              (int_of_digits g1)) as [f'|] eqn:D; [|intros []].
  intros [<-|[]]. rewrite (mk_date_year _ _ _ _ D).
  repeat (apply andb_true_iff in E; destruct E as [E ?]).
  repeat match goal with
         | H : (_ <=? _) = true |- _ => apply Z.leb_le in H
         end.
  lia.
Qed.

Lemma intentar_numerica_anio g1 g2 g3 fs f :
  intentar_numerica g1 g2 g3 = Some fs -> In f fs ->
  1900 <= year_of f <= 2100.
Proof.
  unfold intentar_numerica.
  set (n1 := int_of_digits g1). set (n2 := int_of_digits g2).
  set (n3 := ajustar_anio (int_of_digits g3)).
  destruct ((1 <=? n1) && (n1 <=? 31) && (1 <=? n2) && (n2 <=? 12)
            && (1900 <=? n3) && (n3 <=? 2100))%bool eqn:E.
  - destruct (mk_date n3 n2 n1) as [f'|] eqn:D; [|discriminate].
    simpl. intros H. injection H as <-. intros [<-|[]].
    rewrite (mk_date_year _ _ _ _ D).
    repeat (apply andb_true_iff in E; destruct E as [E ?]).
    repeat match goal with
           | H : (_ <=? _) = true |- _ => apply Z.leb_le in H
           end.
    lia.
  - destruct ((1900 <=? n1) && (n1 <=? 2100) && (1 <=? n2) && (n2 <=? 12)
              && (1 <=? n3) && (n3 <=? 31))%bool eqn:E'.
    + destruct (mk_date n1 n2 n3) as [f'|] eqn:D; [|discriminate].
      simpl. intros H. injection H as <-. intros [<-|[]].
      rewrite (mk_date_year _ _ _ _ D).
      repeat (apply andb_true_iff in E'; destruct E' as [E' ?]).
      repeat match goal with
             | H : (_ <=? _) = true |- _ => apply Z.leb_le in H
             end.
      lia.
    + intros H. injection H as <-. intros [].
Qed.

Lemma fecha_numerica_anio cs f : forall indices,
  In f (fecha_numerica cs indices) -> 1900 <= year_of f <= 2100.
Proof.
  induction indices as [|i indices IH]; [intros []|].
  cbn [fecha_numerica].
  destruct (Re.group i cs) as [g1|]; [|exact IH].
  destruct (Re.group (i + 1) cs) as [g2|]; [|exact IH].
  destruct (Re.group (i + 2) cs) as [g3|]; [|exact IH].
  destruct (truthy g1 && truthy g2 && truthy g3)%bool; [|exact IH].
  destruct (intentar_numerica g1 g2 g3) as [fs|] eqn:N; [|exact IH].
  apply (intentar_numerica_anio _ _ _ _ _ N).
Qed.

Lemma fecha_dateutil_anio parse_date s f :
  fecha_dateutil parse_date s = Some f -> 1900 <= year_of f <= 2100.
Proof.
  unfold fecha_dateutil. destruct (parse_date s) as [dt|]; [|discriminate].
  destruct ((1900 <=? year_of (dt_date dt))
            && (year_of (dt_date dt) <=? 2100))%bool eqn:E; [|discriminate].
  intros H. injection H as <-.
  apply andb_true_iff in E. destruct E as [E1 E2].
  apply Z.leb_le in E1, E2. lia.
Qed.

Lemma fechas_encontradas_anio parse_date texto f :
  In f (fechas_encontradas parse_date texto false) ->
  1900 <= year_of f <= 2100.
Proof.
  unfold fechas_encontradas. cbn [app].
  rewrite !in_app_iff. intros [H|[H|H]].
  - unfold estrategia_texto in H. apply in_flat_map in H.
    destruct H as [m [_ H]]. apply (fecha_de_texto_anio _ _ H).
  - unfold estrategia_numerica in H. apply in_flat_map in H.
    destruct H as [m [_ H]]. apply (fecha_numerica_anio _ _ _ H).
  - apply in_flat_map in H. destruct H as [m [_ H]].
    destruct (fecha_dateutil parse_date (fst m)) as [f'|] eqn:D;
      [|contradiction].
    destruct H as [<-|[]]. apply (fecha_dateutil_anio _ _ _ D).
Qed.

Lemma insertar_creciente x l :
  StronglySorted Z.lt l -> StronglySorted Z.lt (insertar x l).
Proof.
  induction 1 as [|y l Hs IH Hy]; simpl.
  - constructor; constructor.
  - destruct (x <? y) eqn:E1.
    + apply Z.ltb_lt in E1. constructor; [constructor; assumption|].
      constructor; [exact E1|].
      eapply Forall_impl; [|exact Hy]. intros z Hz. lia.
    + destruct (x =? y) eqn:E2; [constructor; assumption|].
      apply Z.ltb_ge in E1. apply Z.eqb_neq in E2.
      constructor; [exact IH|].
      apply Forall_forall. intros z Hz. apply In_insertar in Hz.
      destruct Hz as [->|Hz]; [lia|].
      rewrite Forall_forall in Hy. apply Hy, Hz.
Qed.

Lemma sorted_set_creciente l : StronglySorted Z.lt (sorted_set l).
Proof.
  induction l as [|x l IH]; simpl; [constructor|].
  apply insertar_creciente, IH.
Qed.

Lemma seleccionar_fecha_In hoy fechas f :
  seleccionar_fecha hoy fechas = Some f -> In f fechas.
Proof.
  intros H. pose proof (seleccionar_fecha_spec hoy fechas) as S.
  rewrite H in S. apply S.
Qed.

(** X11.  The candidate dates of a text come out strictly increasing, in
    either context. Without banking context every candidate, and so the date
    selected by [extraer_fecha_mejorada], is of a year from 1900 to 2100.
    With banking context the year is not checked: "fecha: 5 de mayo de 1850"
    gives a date of 1850. *)
Theorem extraer_todas_fechas_texto_forma
    (parse_date : str -> option datetime) (texto : str) :
  (forall contexto_bancario,
     StronglySorted Z.lt
       (extraer_todas_fechas_texto parse_date texto contexto_bancario))
  /\ (forall f,
        In f (extraer_todas_fechas_texto parse_date texto false) ->
        1900 <= year_of f <= 2100)
  /\ (forall hoy f,
        extraer_fecha_mejorada parse_date hoy texto false = Some f ->
        1900 <= year_of f <= 2100)
  /\ (forall hoy,
        exists f,
          extraer_fecha_mejorada sin_dateutil hoy
            (L1 "fecha: 5 de mayo de 1850") true = Some f
          /\ year_of f = 1850).
Proof.
  split; [|split; [|split]].
  - intros b. apply sorted_set_creciente.
  - intros f H. unfold extraer_todas_fechas_texto in H.
    apply (proj1 (In_sorted_set _ _)) in H.
    apply (fechas_encontradas_anio _ _ _ H).
  - intros hoy f H. unfold extraer_fecha_mejorada in H.
    apply seleccionar_fecha_In in H.
    unfold extraer_todas_fechas_texto in H.
    apply (proj1 (In_sorted_set _ _)) in H.
    apply (fechas_encontradas_anio _ _ _ H).
  - intros hoy. exists 675458. split; vm_compute; reflexivity.
Qed.

(* ================================================================== *)
(** * Reading back a date written in digits *)
(* ================================================================== *)

Lemma clase_digito c :
  is_digit c = true -> is_word c = true /\ sep_fecha c = false.
Proof.
  intros H.
  assert (F : forall_ascii
                (fun c => implb (is_digit c)
                            (is_word c && negb (sep_fecha c))) = true)
    by (vm_compute; reflexivity).
  pose proof (forall_ascii_spec _ F c) as P. cbv beta in P.
  rewrite H in P. simpl in P. apply andb_true_iff in P.
  destruct P as [P1 P2]. apply negb_true_iff in P2. tauto.
Qed.

(** One step of a greedy repetition. *)
Lemma rep_greedy_si {A : Type} p lo hi prev c s'
    (k : option ascii -> str -> option A) :
  p c = true -> Re.hi_allows hi = true ->
  Re.rep_greedy p lo hi prev (c :: s') k
  = match Re.rep_greedy p (pred lo) (Re.hi_pred hi) (Some c) s' k with
    | Some r => Some r
    | None => match lo with O => k prev (c :: s') | S _ => None end
    end.
Proof. intros H1 H2. cbn [Re.rep_greedy]. rewrite H1, H2. reflexivity. Qed.

Lemma rep_greedy_no {A : Type} p lo hi prev c s'
    (k : option ascii -> str -> option A) :
  (p c && Re.hi_allows hi)%bool = false ->
  Re.rep_greedy p lo hi prev (c :: s') k
  = match lo with O => k prev (c :: s') | S _ => None end.
Proof. intros H. cbn [Re.rep_greedy]. rewrite H. reflexivity. Qed.

Lemma rep_greedy_fin {A : Type} p lo hi prev
    (k : option ascii -> str -> option A) :
  Re.rep_greedy p lo hi prev [] k
  = match lo with O => k prev [] | S _ => None end.
Proof. reflexivity. Qed.

Lemma finditer_loop_si r prev s n cs :
  Re.match_at r prev s = Some (S n, cs) ->
  Re.finditer_loop r prev s 0
  = (firstn (S n) s, cs)
    :: match s with
       | [] => []
       | c :: s' => Re.finditer_loop r (Some c) s' n
       end.
Proof.
  intros H. destruct s as [|c s']; cbn [Re.finditer_loop]; rewrite H;
    reflexivity.
Qed.

Lemma finditer_loop_salta r s : forall prev n,
  (List.length s <= n)%nat ->
  (forall p, Re.match_at r p [] = None) ->
  Re.finditer_loop r prev s n = [].
Proof.
  induction s as [|c s IH]; intros prev n H E.
  - destruct n; cbn [Re.finditer_loop]; [rewrite E|]; reflexivity.
  - destruct n as [|n]; [simpl in H; lia|].
    cbn [Re.finditer_loop]. apply IH; [simpl in H; lia|exact E].
Qed.

Lemma match_at_numeric_nil p : Re.match_at RE_DATE_NUMERIC p [] = None.
Proof.
  unfold Re.match_at, RE_DATE_NUMERIC. cbn.
  destruct (Re.word_opt p); reflexivity.
Qed.

Section Numerica.

Variables a1 a2 b1 b2 c1 c2 c3 c4 sep : ascii.
Hypothesis Ha1 : is_digit a1 = true.
Hypothesis Ha2 : is_digit a2 = true.
Hypothesis Hb1 : is_digit b1 = true.
Hypothesis Hb2 : is_digit b2 = true.
Hypothesis Hc1 : is_digit c1 = true.
Hypothesis Hc2 : is_digit c2 = true.
Hypothesis Hc3 : is_digit c3 = true.
Hypothesis Hc4 : is_digit c4 = true.
Hypothesis Hsep : sep_fecha sep = true.
Hypothesis Hsepd : is_digit sep = false.

Let s := [a1; a2; sep; b1; b2; sep; c1; c2; c3; c4].

Ltac paso :=
  first
    [ rewrite rep_greedy_si by (first [assumption | reflexivity])
    | rewrite rep_greedy_no
        by (cbn [Re.hi_allows Re.hi_pred pred];
            first [ rewrite andb_false_r; reflexivity
                  | match goal with
                    | H : ?p ?c = false |- (?p ?c && _)%bool = false =>
                        rewrite H; reflexivity
                    end ])
    | rewrite rep_greedy_fin ];
  cbn [Re.hi_allows Re.hi_pred pred].

Lemma match_at_dmY :
  Re.match_at RE_DATE_NUMERIC None s
  = Some (10%nat,
          [(3%nat, [c1; c2; c3; c4]); (2%nat, [b1; b2]); (1%nat, [a1; a2])]).
Proof.
  destruct (clase_digito a1 Ha1) as [Wa1 Sa1].
  destruct (clase_digito a2 Ha2) as [Wa2 Sa2].
  destruct (clase_digito b1 Hb1) as [Wb1 Sb1].
  destruct (clase_digito b2 Hb2) as [Wb2 Sb2].
  destruct (clase_digito c1 Hc1) as [Wc1 Sc1].
  destruct (clase_digito c2 Hc2) as [Wc2 Sc2].
  destruct (clase_digito c3 Hc3) as [Wc3 Sc3].
  destruct (clase_digito c4 Hc4) as [Wc4 Sc4].
  unfold Re.match_at, RE_DATE_NUMERIC, Re.cat, Re.rep, Re.plus, s.
  cbn [Re.run]. cbn [hd_error Re.word_opt]. rewrite Wa1. cbn [xorb].
  repeat paso.
  cbn [hd_error Re.word_opt xorb]. rewrite Wc4. cbn [xorb].
  cbn [List.length Nat.sub firstn]. reflexivity.
Qed.

Lemma finditer_dmY :
  Re.finditer RE_DATE_NUMERIC s
  = [(s, [(3%nat, [c1; c2; c3; c4]); (2%nat, [b1; b2]); (1%nat, [a1; a2])])].
Proof.
  unfold Re.finditer. rewrite (finditer_loop_si _ _ _ _ _ match_at_dmY).
  unfold s. cbn [firstn].
  rewrite finditer_loop_salta; [reflexivity|simpl; lia|].
  apply match_at_numeric_nil.
Qed.

End Numerica.

(** ** Digits *)

Lemma code_digit n : Z.of_N (code (digit n)) = 48 + n mod 10.
Proof.
  unfold digit, code, chr.
  assert (H : 0 <= n mod 10 < 10) by (apply Z.mod_pos_bound; lia).
  rewrite N_ascii_embedding by lia. lia.
Qed.

Lemma is_digit_digit n : is_digit (digit n) = true.
Proof.
  unfold is_digit, between. pose proof (code_digit n) as C.
  assert (H : 0 <= n mod 10 < 10) by (apply Z.mod_pos_bound; lia).
  apply andb_true_iff. split; apply N.leb_le; lia.
Qed.

Lemma int_of_digits_2 a : 0 <= a <= 99 ->
  int_of_digits [digit (a / 10); digit a] = a.
Proof.
  intros H. unfold int_of_digits. cbn [fold_left].
  rewrite !code_digit. Z.div_mod_to_equations. lia.
Qed.

Lemma int_of_digits_4 a : 0 <= a <= 9999 ->
  int_of_digits [digit (a / 1000); digit (a / 100); digit (a / 10); digit a]
  = a.
Proof.
  intros H. unfold int_of_digits. cbn [fold_left].
  rewrite !code_digit. Z.div_mod_to_equations. lia.
Qed.

(** ** Texts the cleaner leaves alone *)

Lemma all3_ajeno (cond : option ascii -> ascii -> option ascii -> bool) s :
  (forall p c n, ajeno_ch c = true -> cond p c n = false) ->
  Forall (fun c => ajeno_ch c = true) s ->
  forall prev, all3 (fun p c n => negb (cond p c n)) prev s = true.
Proof.
  intros H F. induction F as [|c s Hc F IH]; intros prev; [reflexivity|].
  cbn [all3]. rewrite (H _ _ _ Hc), IH. reflexivity.
Qed.

Lemma ajeno_ch_spec c :
  ajeno_ch c = true ->
  no_barra c = true /\ no_bracket c = true /\ ch_eqb c "l" = false
  /\ ch_eqb c "O" = false /\ ch_eqb c "o" = false.
Proof.
  intros H.
  assert (F : forall_ascii
                (fun c => implb (ajeno_ch c)
                            (no_barra c && no_bracket c
                             && negb (ch_eqb c "l") && negb (ch_eqb c "O")
                             && negb (ch_eqb c "o"))) = true)
    by (vm_compute; reflexivity).
  pose proof (forall_ascii_spec _ F c) as P. cbv beta in P.
  rewrite H in P. cbn [implb] in P.
  repeat (apply andb_true_iff in P; destruct P as [P ?]).
  repeat match goal with
         | H : negb _ = true |- _ => apply negb_true_iff in H
         end.
  tauto.
Qed.

Lemma limpiar_texto_fecha_ajeno s :
  Forall (fun c => ajeno_ch c = true) s -> limpiar_texto_fecha s = s.
Proof.
  intros F. rewrite limpiar_texto_fecha_pasos.
  assert (E : pasos_limpiar s = s).
  { apply pasos_limpiar_fijo.
    - eapply Forall_impl; [|exact F]. intros c Hc.
      apply ajeno_ch_spec in Hc. tauto.
    - apply all3_ajeno; [|exact F]. intros p c n Hc.
      apply ajeno_ch_spec in Hc. unfold l_aislada.
      destruct Hc as (_ & _ & -> & _). reflexivity.
    - apply all3_ajeno; [|exact F]. intros p c n Hc.
      apply ajeno_ch_spec in Hc. unfold entre_digitos.
      destruct Hc as (_ & _ & _ & -> & _). reflexivity.
    - apply all3_ajeno; [|exact F]. intros p c n Hc.
      apply ajeno_ch_spec in Hc. unfold entre_digitos.
      destruct Hc as (_ & _ & _ & _ & ->). reflexivity. }
  rewrite E. clear E.
  induction F as [|c s Hc F IH]; [reflexivity|].
  cbn [filter]. apply ajeno_ch_spec in Hc. destruct Hc as (_ & -> & _).
  rewrite IH. reflexivity.
Qed.

Lemma sin_match_finditer r s : forall prev,
  sin_match r prev s -> Re.finditer_loop r prev s 0 = [].
Proof.
  induction s as [|c s IH]; intros prev H; cbn [sin_match] in H;
    destruct H as [H1 H2]; cbn [Re.finditer_loop]; rewrite H1;
    [reflexivity|]. apply IH, H2.
Qed.

Lemma finditer_fail q r s :
  must_fail q r = true -> Forall (fun c => q c = true) s ->
  Re.finditer r s = [].
Proof.
  intros M F. apply sin_match_finditer. apply (sin_match_fail q); assumption.
Qed.

Lemma flat_map_nil {A B : Type} (f : A -> list B) l :
  (forall x, f x = []) -> flat_map f l = [].
Proof.
  intros H. induction l as [|x l IH]; [reflexivity|].
  simpl. rewrite H, IH. reflexivity.
Qed.

Lemma sep_clases sep :
  In sep ["/"; "-"; "."; " "; "\"]%char ->
  sep_fecha sep = true /\ is_digit sep = false /\ ajeno_ch sep = true.
Proof.
  intros [<-|[<-|[<-|[<-|[<-|[]]]]]]; vm_compute; repeat split; reflexivity.
Qed.

Lemma ajeno_digito c : is_digit c = true -> ajeno_ch c = true.
Proof.
  intros H.
  assert (F : forall_ascii (fun c => implb (is_digit c) (ajeno_ch c)) = true)
    by (vm_compute; reflexivity).
  pose proof (forall_ascii_spec _ F c) as P. cbv beta in P.
  rewrite H in P. exact P.
Qed.

Lemma must_fail_cifras :
  must_fail cifra_o_sep RE_DATE_TEXTO = true
  /\ must_fail cifra_o_sep RE_DATE_BANCARIA_CONTEXTO = true.
Proof. split; vm_compute; reflexivity. Qed.

(** X12.  A date of the years 1900 to 2100 written in digits as day, month
    and year (two, two and four digits) with one of the separators "/", "-",
    ".", space and backslash is read back: the numeric pass over the cleaned
    text finds that date and no other, the date is among the candidates
    whatever dateutil answers, and it is the date selected when dateutil
    finds nothing. *)
Theorem extraer_fecha_dia_mes_anio
    (sep : ascii) (y m d f : Z) (contexto_bancario : bool) :
  In sep ["/"; "-"; "."; " "; "\"]%char ->
  1900 <= y <= 2100 -> mk_date y m d = Some f ->
  let texto := strftime_dmY sep y m d in
  estrategia_numerica (limpiar_texto_fecha texto) = [f]
  /\ (forall parse_date,
        In f (extraer_todas_fechas_texto parse_date texto contexto_bancario))
  /\ (forall hoy,
        extraer_fecha_mejorada sin_dateutil hoy texto contexto_bancario
        = Some f).
Proof.
  intros Hsep Hy Hf texto.
  destruct (sep_clases sep Hsep) as (S1 & S2 & S3).
  assert (R : 1 <= m <= 12 /\ 1 <= d <= 31).
  { unfold mk_date in Hf.
    destruct ((1 <=? y) && (y <=? 9999) && (1 <=? m) && (m <=? 12)
              && (1 <=? d) && (d <=? days_in_month y m))%bool eqn:E;
      [|discriminate].
    repeat (apply andb_true_iff in E; destruct E as [E ?]).
    repeat match goal with
           | H : (_ <=? _) = true |- _ => apply Z.leb_le in H
           end.
    assert (days_in_month y m <= 31).
    { unfold days_in_month.
      destruct ((m =? 2) && is_leap y)%bool; [lia|].
      assert (M : m = 1 \/ m = 2 \/ m = 3 \/ m = 4 \/ m = 5 \/ m = 6
                  \/ m = 7 \/ m = 8 \/ m = 9 \/ m = 10 \/ m = 11 \/ m = 12)
        by lia.
      destruct M as [M|[M|[M|[M|[M|[M|[M|[M|[M|[M|[M|M]]]]]]]]]]];
        rewrite M; vm_compute; discriminate. }
    lia. }
  assert (A : Forall (fun c => ajeno_ch c = true) texto).
  { unfold texto, strftime_dmY.
    repeat constructor; try (apply ajeno_digito, is_digit_digit); exact S3. }
  assert (L : limpiar_texto_fecha texto = texto)
    by (apply limpiar_texto_fecha_ajeno; exact A).
  assert (N : estrategia_numerica texto = [f]).
  { unfold estrategia_numerica, texto, strftime_dmY.
    rewrite finditer_dmY
      by (try apply is_digit_digit; assumption).
    cbn [flat_map fecha_numerica Re.group Nat.eqb Nat.add snd truthy andb app].
    unfold intentar_numerica.
    rewrite !int_of_digits_2, int_of_digits_4 by lia.
    unfold ajustar_anio.
    replace (y <? 100) with false by (symmetry; apply Z.ltb_ge; lia).
    replace ((1 <=? d) && (d <=? 31) && (1 <=? m) && (m <=? 12)
             && (1900 <=? y) && (y <=? 2100))%bool with true.
    - rewrite Hf. reflexivity.
    - symmetry. repeat (apply andb_true_iff; split); apply Z.leb_le; lia. }
  assert (Q : Forall (fun c => cifra_o_sep c = true) texto).
  { unfold texto, strftime_dmY, cifra_o_sep.
    repeat constructor; try (rewrite is_digit_digit; reflexivity);
      rewrite S1; apply orb_true_r. }
  assert (T : estrategia_texto texto = []).
  { unfold estrategia_texto.
    rewrite (finditer_fail cifra_o_sep _ _ (proj1 must_fail_cifras) Q).
    reflexivity. }
  assert (B : Re.finditer RE_DATE_BANCARIA_CONTEXTO texto = [])
    by (apply (finditer_fail cifra_o_sep _ _ (proj2 must_fail_cifras) Q)).
  rewrite L. split; [exact N|]. split.
  - intros parse_date. unfold extraer_todas_fechas_texto.
    apply In_sorted_set. unfold fechas_encontradas. rewrite L, N.
    rewrite !in_app_iff. right. right. left. left. reflexivity.
  - intros hoy. unfold extraer_fecha_mejorada, extraer_todas_fechas_texto,
      fechas_encontradas.
    rewrite L, N, T, B.
    rewrite (flat_map_nil (fun m0 => opt_list (fecha_dateutil sin_dateutil
                                                  (fst m0))))
      by reflexivity.
    destruct contexto_bancario; reflexivity.
Qed.

Lemma extraer_fecha_dia_mes_anio_witness :
  extraer_fecha_mejorada sin_dateutil ej_hoy (L1 "07-05-2024") false
  = Some 739013.
Proof.
  apply (extraer_fecha_dia_mes_anio "-" 2024 5 7 739013 false).
  - right. left. reflexivity.
  - lia.
  - vm_compute. reflexivity.
Defined.

(* ================================================================== *)
(** * The range and the case-blindness of the classifiers *)
(* ================================================================== *)

Lemma max_key_In rest : forall best,
  In (max_key best rest) (fst best :: map fst rest).
Proof.
  induction rest as [|kv rest IH]; intros best; [left; reflexivity|].
  cbn [max_key]. specialize (IH (if snd best <? snd kv then kv else best)).
  destruct (snd best <? snd kv); simpl in *; tauto.
Qed.

Lemma clasificar_con_In tabla n t :
  In (clasificar_con tabla n t) (L1 "otro" :: map fst tabla).
Proof.
  unfold clasificar_con, scores_de.
  destruct tabla as [|kv tabla]; [left; reflexivity|].
  cbn [map fst snd].
  match goal with
  | |- context [if ?b then _ else _] => destruct b
  end; [left; reflexivity|].
  right.
  match goal with
  | |- In (max_key ?b ?r) _ => pose proof (max_key_In r b) as H
  end.
  cbn [fst] in H. rewrite map_map in H. cbn [fst] in H. exact H.
Qed.

Lemma lower_ch_idem c : lower_ch (lower_ch c) = lower_ch c.
Proof.
  assert (F : forall_ascii
                (fun c => ch_eqb (lower_ch (lower_ch c)) (lower_ch c)) = true)
    by (vm_compute; reflexivity).
  apply Ascii.eqb_eq. apply (forall_ascii_spec _ F c).
Qed.

Lemma lower_idem s : lower (lower s) = lower s.
Proof.
  unfold lower. rewrite map_map. apply map_ext. apply lower_ch_idem.
Qed.

Lemma lower_app a b : lower (a ++ b) = lower a ++ lower b.
Proof. apply map_app. Qed.

Lemma paso_keyword_lower n n' t score kw :
  lower n' = lower n ->
  paso_keyword n' t score kw = paso_keyword n t score kw.
Proof. intros E. unfold paso_keyword. rewrite E. reflexivity. Qed.

Lemma score_tipo_lower n n' t kws :
  lower n' = lower n -> score_tipo n' t kws = score_tipo n t kws.
Proof.
  intros E. unfold score_tipo. generalize 0.
  induction kws as [|kw kws IH]; intros z; [reflexivity|].
  cbn [fold_left]. rewrite (paso_keyword_lower n n' t z kw E). apply IH.
Qed.

Lemma clasificar_con_lower tabla n n' t t' :
  lower n' = lower n -> lower t' = lower t ->
  clasificar_con tabla n' t' = clasificar_con tabla n t.
Proof.
  intros En Et.
  assert (T : texto_completo_de n' t' = texto_completo_de n t).
  { unfold texto_completo_de. rewrite !lower_app, En, Et. reflexivity. }
  unfold clasificar_con, scores_de. rewrite T.
  assert (M : map (fun kv : str * list str =>
                     (fst kv, score_tipo n' (texto_completo_de n t) (snd kv)))
                tabla
              = map (fun kv : str * list str =>
                       (fst kv, score_tipo n (texto_completo_de n t) (snd kv)))
                  tabla).
  { apply map_ext. intros kv. rewrite (score_tipo_lower n n' _ _ En).
    reflexivity. }
  rewrite M. reflexivity.
Qed.

(** X13.  [clasificar_documento_robusto] answers "otro" or a type of
    [DOC_KEYWORDS]; it does not see letter case, neither in the file name
    nor in the text; and with an empty name and an empty text it answers
    "otro". *)
Theorem clasificar_documento_robusto_forma (nombre_archivo texto_ocr : str) :
  In (clasificar_documento_robusto nombre_archivo texto_ocr) TIPOS
  /\ (forall nombre' texto',
        lower nombre' = lower nombre_archivo ->
        lower texto' = lower texto_ocr ->
        clasificar_documento_robusto nombre' texto'
        = clasificar_documento_robusto nombre_archivo texto_ocr)
  /\ clasificar_documento_robusto (lower nombre_archivo) (lower texto_ocr)
     = clasificar_documento_robusto nombre_archivo texto_ocr
  /\ clasificar_documento_robusto [] [] = L1 "otro".
Proof.
  split; [apply clasificar_con_In|]. split; [|split].
  - intros n' t' En Et. apply clasificar_con_lower; assumption.
  - apply clasificar_con_lower; apply lower_idem.
  - vm_compute. reflexivity.
Qed.

(** ** The old classifier *)

Lemma fold_mejor rest : forall (kv : str * Z),
  let best := fold_left (fun b x => if snd b <? snd x then x else b)
                rest kv in
  In best (kv :: rest) /\ forall y, In y (kv :: rest) -> snd y <= snd best.
Proof.
  induction rest as [|x rest IH]; intros kv.
  - simpl. split; [left; reflexivity|]. intros y [<-|[]]. lia.
  - cbn [fold_left].
    destruct (IH (if snd kv <? snd x then x else kv)) as [H1 H2].
    split.
    + destruct (snd kv <? snd x); simpl in *; tauto.
    + intros y Hy.
      destruct (snd kv <? snd x) eqn:E;
        [apply Z.ltb_lt in E|apply Z.ltb_ge in E].
      * destruct Hy as [<-|[<-|Hy]].
        -- specialize (H2 x (or_introl eq_refl)). lia.
        -- apply H2. left. reflexivity.
        -- apply H2. right. exact Hy.
      * destruct Hy as [<-|[<-|Hy]].
        -- apply H2. left. reflexivity.
        -- specialize (H2 kv (or_introl eq_refl)). lia.
        -- apply H2. right. exact Hy.
Qed.

Lemma filter_length_0 {A : Type} (f : A -> bool) l :
  Z.of_nat (List.length (filter f l)) <= 0 ->
  forall x, In x l -> f x = false.
Proof.
  intros H x Hx. destruct (f x) eqn:E; [|reflexivity].
  assert (Hin : In x (filter f l)) by (apply filter_In; split; assumption).
  destruct (filter f l); [contradiction|]. simpl in H. lia.
Qed.

Lemma filter_nada {A : Type} (f : A -> bool) l :
  (forall x, In x l -> f x = false) -> filter f l = [].
Proof.
  induction l as [|x l IH]; intros H; [reflexivity|].
  simpl. rewrite (H x (or_introl eq_refl)). apply IH.
  intros y Hy. apply H. right. exact Hy.
Qed.

(** X14.  [clasificar_texto_keywords_old] answers "otro" or a type of
    [DOC_KEYWORDS]; it answers "otro" exactly when no keyword of any type
    occurs in the lower-cased text, a missing text counting as empty; and it
    does not see letter case. *)
Theorem clasificar_texto_keywords_old_forma (texto : option str) :
  let t := lower (or_str texto []) in
  let r := clasificar_texto_keywords_old texto in
  In r TIPOS
  /\ (r = L1 "otro" <->
      forall kv k, In kv DOC_KEYWORDS -> In k (snd kv) -> contains t k = false)
  /\ (forall texto',
        lower texto' = t -> clasificar_texto_keywords_old (Some texto') = r).
Proof.
  intros t r. unfold r, clasificar_texto_keywords_old. fold t.
  set (sc := fun kv : str * list str =>
               (fst kv, Z.of_nat (List.length
                                    (filter (fun k => contains t k) (snd kv))))).
  destruct (map sc DOC_KEYWORDS) as [|kv rest] eqn:M.
  { apply map_eq_nil in M. vm_compute in M. discriminate. }
  pose proof (fold_mejor rest kv) as [B1 B2]. cbv zeta in B1, B2.
  set (best := fold_left (fun b x => if snd b <? snd x then x else b)
                 rest kv) in *.
  rewrite <- M in B1, B2.
  apply in_map_iff in B1. destruct B1 as [kb [Eb Hb]].
  split; [|split].
  - destruct (0 <? snd best); [|left; reflexivity].
    right. apply in_map_iff. exists kb. split; [|exact Hb].
    rewrite <- Eb. reflexivity.
  - split.
    + intros E kv0 k Hkv Hk.
      assert (Z0 : snd best <= 0).
      { destruct (0 <? snd best) eqn:P; [|apply Z.ltb_ge in P; exact P].
        exfalso. rewrite <- Eb in E. cbn [sc fst] in E.
        pose proof doc_keywords_no_otro as D. rewrite forallb_forall in D.
        specialize (D kb Hb). rewrite E, str_eqb_refl in D. discriminate. }
      assert (Zk : snd (sc kv0) <= snd best)
        by (apply B2; apply in_map; exact Hkv).
      cbn [sc snd] in Zk.
      apply (filter_length_0 (fun k => contains t k) (snd kv0)); [lia|exact Hk].
    + intros H.
      assert (Z0 : snd best = 0).
      { rewrite <- Eb. cbn [sc snd].
        rewrite (filter_nada (fun k => contains t k) (snd kb));
          [reflexivity|].
        intros k Hk. apply (H kb k Hb Hk). }
      rewrite Z0. reflexivity.
  - intros texto' E. cbn [or_str].
    assert (T : lower (if truthy texto' then texto' else []) = t).
    { destruct texto'; exact E. }
    rewrite T. fold sc. rewrite M. reflexivity.
Qed.

(* ================================================================== *)
(** * The number read on a page *)
(* ================================================================== *)

Section Capturas.
Context {A : Type}.

Lemma hi_admite_pred hi n :
  Re.hi_allows hi = true -> hi_admite (Re.hi_pred hi) n ->
  hi_admite hi (S n).
Proof.
  destruct hi as [[|h]|]; simpl; try discriminate; intros _ H; [lia|exact I].
Qed.

Lemma hi_admite_0 hi : hi_admite hi 0.
Proof. destruct hi; simpl; [lia|exact I]. Qed.

(** What a greedy repetition has consumed when the match succeeds. *)
Lemma rep_greedy_inv p s : forall lo hi prev
    (k : option ascii -> str -> option A) x,
  Re.rep_greedy p lo hi prev s k = Some x ->
  exists w s' prev',
    s = w ++ s' /\ Forall (fun c => p c = true) w
    /\ (lo <= List.length w)%nat /\ hi_admite hi (List.length w)
    /\ k prev' s' = Some x.
Proof.
  induction s as [|c s IH]; intros lo hi prev k x H.
  - cbn [Re.rep_greedy] in H. destruct lo; [|discriminate].
    exists [], [], prev. repeat split; [constructor|lia|apply hi_admite_0|exact H].
  - cbn [Re.rep_greedy] in H.
    assert (Stop : match lo with O => k prev (c :: s) | S _ => None end
                   = Some x ->
                   exists w s' prev',
                     c :: s = w ++ s' /\ Forall (fun c => p c = true) w
                     /\ (lo <= List.length w)%nat
                     /\ hi_admite hi (List.length w)
                     /\ k prev' s' = Some x).
    { intros E. destruct lo; [|discriminate].
      exists [], (c :: s), prev.
      repeat split; [constructor|lia|apply hi_admite_0|exact E]. }
    destruct (p c && Re.hi_allows hi)%bool eqn:E; [|apply Stop, H].
    apply andb_true_iff in E. destruct E as [Pc Ha].
    destruct (Re.rep_greedy p (pred lo) (Re.hi_pred hi) (Some c) s k)
      as [y|] eqn:R; [|apply Stop, H].
    injection H as ->.
    apply IH in R. destruct R as (w & s' & prev' & E1 & E2 & E3 & E4 & E5).
    exists (c :: w), s', prev'. subst s.
    split; [reflexivity|]. split; [constructor; assumption|].
    split; [simpl; lia|]. split; [|exact E5].
    apply hi_admite_pred; assumption.
Qed.

Lemma rep_lazy_inv p s : forall lo hi prev
    (k : option ascii -> str -> option A) x,
  Re.rep_lazy p lo hi prev s k = Some x ->
  exists w s' prev',
    s = w ++ s' /\ Forall (fun c => p c = true) w
    /\ (lo <= List.length w)%nat /\ hi_admite hi (List.length w)
    /\ k prev' s' = Some x.
Proof.
  induction s as [|c s IH]; intros lo hi prev k x H.
  - destruct lo; cbn [Re.rep_lazy] in H; [|discriminate].
    destruct (k prev []) as [y|] eqn:K; [|discriminate].
    injection H as ->. exists [], [], prev.
    repeat split; [constructor|lia|apply hi_admite_0|exact K].
  - assert (More : (if (p c && Re.hi_allows hi)%bool
                    then Re.rep_lazy p (pred lo) (Re.hi_pred hi) (Some c) s k
                    else None) = Some x ->
                   exists w s' prev',
                     c :: s = w ++ s' /\ Forall (fun c => p c = true) w
                     /\ (lo <= List.length w)%nat
                     /\ hi_admite hi (List.length w)
                     /\ k prev' s' = Some x).
    { destruct (p c && Re.hi_allows hi)%bool eqn:E; [|discriminate].
      apply andb_true_iff in E. destruct E as [Pc Ha]. intros R.
      apply IH in R. destruct R as (w & s' & prev' & E1 & E2 & E3 & E4 & E5).
      exists (c :: w), s', prev'. subst s.
      split; [reflexivity|]. split; [constructor; assumption|].
      split; [simpl; lia|]. split; [|exact E5].
      apply hi_admite_pred; assumption. }
    destruct lo; cbn [Re.rep_lazy] in H; [|apply More, H].
    destruct (k prev (c :: s)) as [y|] eqn:K; [|apply More, H].
    injection H as ->. exists [], (c :: s), prev.
    repeat split; [constructor|lia|apply hi_admite_0|exact K].
Qed.

Lemma firstn_app_resta (w s' : str) :
  firstn (List.length (w ++ s') - List.length s') (w ++ s') = w.
Proof.
  rewrite length_app.
  replace (List.length w + List.length s' - List.length s')%nat
    with (List.length w) by lia.
  rewrite firstn_app, Nat.sub_diag, firstn_all. simpl. apply app_nil_r.
Qed.

(** The groups of a successful match are as their patterns say. *)
Lemma run_caps_ok i P r : forall prev s cs
    (k : option ascii -> str -> Re.caps -> option A) x,
  grupos_ok i P r -> caps_ok i P cs ->
  Re.run r prev s cs k = Some x ->
  exists prev' s' cs', caps_ok i P cs' /\ k prev' s' cs' = Some x.
Proof.
  induction r as [|p|a IHa b IHb|a IHa b IHb|lo hi g p|j a IHa| |p|p];
    intros prev s cs k x G C H; cbn [Re.run] in H.
  - eauto.
  - destruct s as [|c s]; [discriminate|].
    destruct (p c); [eauto|discriminate].
  - destruct G as [Ga Gb].
    apply (IHa _ _ _ _ _ Ga C) in H.
    destruct H as (prev1 & s1 & cs1 & C1 & H).
    apply (IHb _ _ _ _ _ Gb C1) in H. exact H.
  - destruct G as [Ga Gb].
    destruct (Re.run a prev s cs k) as [y|] eqn:R.
    + injection H as ->. apply (IHa _ _ _ _ _ Ga C R).
    + apply (IHb _ _ _ _ _ Gb C H).
  - destruct g.
    + apply rep_greedy_inv in H. destruct H as (w & s' & prev' & _ & _ & _ & _ & H).
      eauto.
    + apply rep_lazy_inv in H. destruct H as (w & s' & prev' & _ & _ & _ & _ & H).
      eauto.
  - cbn [grupos_ok] in G. destruct (Nat.eqb i j) eqn:E.
    + destruct a as [|?|? ?|? ?|lo hi g p|? ?| |?|?]; try contradiction.
      cbn [Re.run] in H.
      assert (R : exists w s' prev',
                s = w ++ s' /\ Forall (fun c => p c = true) w
                /\ (lo <= List.length w)%nat /\ hi_admite hi (List.length w)
                /\ k prev' s'
                     ((j, firstn (List.length s - List.length s') s) :: cs)
                   = Some x).
      { destruct g; [apply rep_greedy_inv in H|apply rep_lazy_inv in H];
          exact H. }
      destruct R as (w & s' & prev' & E1 & E2 & E3 & E4 & E5).
      exists prev', s', ((j, firstn (List.length s - List.length s') s) :: cs).
      split; [|exact E5].
      intros g0 Hg. cbn [Re.group] in Hg. rewrite E in Hg.
      injection Hg as <-. subst s. rewrite firstn_app_resta.
      apply G; assumption.
    + apply (IHa _ _ _ _ _ G C) in H.
      destruct H as (prev1 & s1 & cs1 & C1 & H).
      exists prev1, s1, ((j, firstn (List.length s - List.length s1) s) :: cs1).
      split; [|exact H].
      intros g0 Hg. cbn [Re.group] in Hg. rewrite E in Hg. apply C1, Hg.
  - destruct (xorb (Re.word_opt prev) (Re.word_opt (hd_error s)));
      [eauto|discriminate].
  - destruct prev as [c|]; [|discriminate].
    destruct (p c); [eauto|discriminate].
  - destruct s as [|c s]; [discriminate|].
    destruct (p c); [eauto|discriminate].
Qed.

End Capturas.

Lemma match_at_caps_ok i P r prev s n cs :
  grupos_ok i P r -> Re.match_at r prev s = Some (n, cs) -> caps_ok i P cs.
Proof.
  intros G H. unfold Re.match_at in H.
  apply (run_caps_ok i P r _ _ _ _ _ G) in H.
  - destruct H as (prev' & s' & cs' & C & H). injection H as _ <-. exact C.
  - intros g Hg. discriminate.
Qed.

Lemma finditer_loop_caps_ok i P r s : forall prev skip m cs,
  grupos_ok i P r ->
  In (m, cs) (Re.finditer_loop r prev s skip) -> caps_ok i P cs.
Proof.
  induction s as [|c s IH]; intros prev skip m cs G H.
  - destruct skip; cbn [Re.finditer_loop] in H; [|contradiction].
    destruct (Re.match_at r prev []) as [[[|n] cs0]|] eqn:M;
      try contradiction;
      destruct H as [H|[]]; injection H as _ <-;
      apply (match_at_caps_ok i P r _ _ _ _ G M).
  - destruct skip as [|skip]; cbn [Re.finditer_loop] in H;
      [|apply (IH _ _ _ _ G H)].
    destruct (Re.match_at r prev (c :: s)) as [[[|n] cs0]|] eqn:M.
    + destruct H as [H|H]; [|apply (IH _ _ _ _ G H)].
      injection H as _ <-. apply (match_at_caps_ok i P r _ _ _ _ G M).
    + destruct H as [H|H]; [|apply (IH _ _ _ _ G H)].
      injection H as _ <-. apply (match_at_caps_ok i P r _ _ _ _ G M).
    + apply (IH _ _ _ _ G H).
Qed.

Lemma search_caps_ok i P r s m cs :
  grupos_ok i P r -> Re.search r s = Some (m, cs) -> caps_ok i P cs.
Proof.
  intros G H. unfold Re.search, Re.finditer in H.
  destruct (Re.finditer_loop r None s 0) as [|x l] eqn:F; [discriminate|].
  injection H as ->.
  apply (finditer_loop_caps_ok i P r s None 0%nat m cs G).
  rewrite F. left. reflexivity.
Qed.

Lemma grupos_ok_nit :
  grupos_ok 1 es_numero_id RE_NIT /\ grupos_ok 1 es_numero_id RE_CEDULA.
Proof.
  split; cbn; repeat (match goal with |- _ /\ _ => split end);
    try exact I; intros w F L H; (split; [split; assumption|exact F]).
Qed.

(** X15.  The tax or identity number that [extraer_info_por_pagina] reads on
    a page with [RE_NIT] or [RE_CEDULA], when it reads one, is a run of six
    to twelve digits. *)
Theorem nit_o_cedula_de_digitos (texto g : str) :
  nit_o_cedula_de texto = Some g ->
  (6 <= List.length g <= 12)%nat /\ Forall (fun c => is_digit c = true) g.
Proof.
  unfold nit_o_cedula_de. destruct grupos_ok_nit as [G1 G2].
  destruct (Re.search RE_NIT texto) as [[m cs]|] eqn:S1.
  - intros H. apply (search_caps_ok 1 es_numero_id _ _ _ _ G1 S1). exact H.
  - destruct (Re.search RE_CEDULA texto) as [[m cs]|] eqn:S2; [|discriminate].
    intros H. apply (search_caps_ok 1 es_numero_id _ _ _ _ G2 S2). exact H.
Qed.

Lemma nit_o_cedula_de_digitos_witness :
  (6 <= List.length (L1 "900123456") <= 12)%nat.
Proof.
  apply (nit_o_cedula_de_digitos (L1 "NIT. 900123456-7") (L1 "900123456")).
  vm_compute. reflexivity.
Defined.

(* ================================================================== *)
(** * What a document holds of its pages *)
(* ================================================================== *)

(** An induction principle for the grouping loop: a relation between runs
    of pages and open documents that holds when a document is opened and
    is kept when it is extended holds of every document emitted. *)
Section AgruparInv.

Variable np_mean : list float -> float.
Variable Rc : list pagina_info -> actual -> Prop.
Variable Rd : list pagina_info -> documento -> Prop.
Hypothesis Rc_abrir : forall p, Rc [p] (abrir p).
Hypothesis Rc_extender : forall run cur p,
  Rc run cur -> tipo_de p = a_tipo_detectado cur ->
  Rc (run ++ [p]) (extender cur p).
Hypothesis Rd_cerrar : forall run cur, Rc run cur -> Rd run (cerrar np_mean cur).

Lemma agrupar_loop_inv ps : forall docs cur rs rc,
  Forall2 Rd rs docs -> Rc rc cur ->
  exists docs' cur' rs' rc',
    agrupar_loop np_mean docs (Some cur) ps = (docs', Some cur')
    /\ Forall2 Rd rs' docs' /\ Rc rc' cur'
    /\ List.concat rs' ++ rc' = List.concat rs ++ rc ++ ps.
Proof.
  induction ps as [|p ps IH]; intros docs cur rs rc HF HR.
  - exists docs, cur, rs, rc. rewrite app_nil_r. repeat split; assumption.
  - simpl agrupar_loop.
    destruct (str_eqb (tipo_de p) (a_tipo_detectado cur)) eqn:E.
    + apply str_eqb_eq in E.
      destruct (IH docs (extender cur p) rs (rc ++ [p]) HF
                  (Rc_extender _ _ _ HR E))
        as (docs' & cur' & rs' & rc' & H1 & H2 & H3 & H4).
      exists docs', cur', rs', rc'. repeat split; try assumption.
      rewrite H4, <- app_assoc. reflexivity.
    + destruct (IH (docs ++ [cerrar np_mean cur]) (abrir p) (rs ++ [rc]) [p])
        as (docs' & cur' & rs' & rc' & H1 & H2 & H3 & H4).
      * apply Forall2_app; [exact HF|].
        constructor; [apply Rd_cerrar; exact HR|constructor].
      * apply Rc_abrir.
      * exists docs', cur', rs', rc'. repeat split; try assumption.
        rewrite H4, concat_app. simpl. rewrite app_nil_r, <- app_assoc.
        reflexivity.
Qed.

Lemma agrupar_inv paginas_info :
  exists runs,
    List.concat runs = paginas_info
    /\ Forall2 Rd runs (agrupar_paginas_en_documentos np_mean paginas_info).
Proof.
  destruct paginas_info as [|p ps].
  - exists []. split; [reflexivity|constructor].
  - simpl agrupar_paginas_en_documentos.
    destruct (agrupar_loop_inv ps [] (abrir p) [] [p])
      as (docs' & cur' & rs' & rc' & H1 & H2 & H3 & H4).
    + constructor.
    + apply Rc_abrir.
    + rewrite H1. simpl in H4. exists (rs' ++ [rc']). split.
      * rewrite concat_app. simpl. rewrite app_nil_r. exact H4.
      * apply Forall2_app; [exact H2|].
        constructor; [apply Rd_cerrar; exact H3|constructor].
Qed.

End AgruparInv.

Lemma unir_textos_snoc l x :
  l <> [] ->
  unir_textos (l ++ [x]) = unir_textos l ++ [chr 10; chr 10] ++ x.
Proof.
  induction l as [|y l IH]; intros H; [contradiction H; reflexivity|].
  destruct l as [|z l]; [reflexivity|].
  change (unir_textos ((y :: z :: l) ++ [x]))
    with (y ++ [chr 10; chr 10] ++ unir_textos ((z :: l) ++ [x])).
  rewrite IH by discriminate.
  change (unir_textos (y :: z :: l))
    with (y ++ [chr 10; chr 10] ++ unir_textos (z :: l)).
  rewrite <- !app_assoc. reflexivity.
Qed.

Lemma find_snoc {A : Type} (f : A -> bool) l x :
  find f (l ++ [x])
  = match find f l with
    | Some y => Some y
    | None => if f x then Some x else None
    end.
Proof.
  induction l as [|y l IH]; simpl; [reflexivity|].
  destruct (f y); [reflexivity|exact IH].
Qed.

Lemma primero_con_valor_snoc l x :
  l <> [] ->
  primero_con_valor (l ++ [x])
  = if (negb (truthy_opt (primero_con_valor l)) && truthy_opt x)%bool
    then x else primero_con_valor l.
Proof.
  intros H. unfold primero_con_valor. rewrite find_snoc.
  destruct (find truthy_opt l) as [y|] eqn:F.
  - apply find_some in F. destruct F as [_ F]. rewrite F. reflexivity.
  - assert (Hh : truthy_opt (hd None l) = false).
    { destruct l as [|z l]; [contradiction H; reflexivity|].
      simpl in F |- *. destruct (truthy_opt z); [discriminate|reflexivity]. }
    rewrite Hh. simpl negb. rewrite andb_true_l.
    destruct (truthy_opt x); [reflexivity|].
    destruct l; [contradiction H; reflexivity|reflexivity].
Qed.

Lemma contenido_abrir p : contenido_actual [p] (abrir p).
Proof.
  unfold contenido_actual, abrir, primero_con_valor. simpl.
  repeat split.
  - rewrite orb_false_r. reflexivity.
  - destruct (truthy_opt (p_nit_o_cedula p)); reflexivity.
  - destruct (truthy_opt (p_fecha_documento p)); reflexivity.
Qed.

Lemma contenido_extender run cur p :
  contenido_actual run cur -> tipo_de p = a_tipo_detectado cur ->
  contenido_actual (run ++ [p]) (extender cur p).
Proof.
  destruct run as [|q run]; [intros []|].
  intros (H1 & H2 & H3 & H4 & H5 & H6 & H7 & H8) _.
  unfold contenido_actual. cbn [app extender a_archivo a_ruta_archivo
    a_tipo_detectado a_paginas a_texto a_firma_manuscrita a_nit_o_cedula
    a_fecha_documento].
  split; [exact H1|]. split; [exact H2|]. split; [exact H3|].
  split; [rewrite H4; change (q :: run ++ [p]) with ((q :: run) ++ [p]);
          rewrite map_app; reflexivity|].
  change (q :: run ++ [p]) with ((q :: run) ++ [p]).
  rewrite !map_app. cbn [map].
  split; [rewrite unir_textos_snoc by discriminate; rewrite H5; reflexivity|].
  split; [rewrite existsb_app, H6; simpl; rewrite orb_false_r; reflexivity|].
  rewrite !primero_con_valor_snoc by discriminate.
  rewrite H7, H8. split; reflexivity.
Qed.

Lemma contenido_cerrar np_mean run cur :
  contenido_actual run cur -> contenido_de run (cerrar np_mean cur).
Proof. destruct run; [intros []|]. intros H. exact H. Qed.

Lemma agrupar_contenido
    (np_mean : list float -> float) (paginas_info : list pagina_info) :
  exists runs : list (list pagina_info),
    List.concat runs = paginas_info
    /\ Forall2 contenido_de runs
         (agrupar_paginas_en_documentos np_mean paginas_info).
Proof.
  apply (agrupar_inv np_mean contenido_actual contenido_de).
  - apply contenido_abrir.
  - apply contenido_extender.
  - apply contenido_cerrar.
Qed.

(** X16.  The documents emitted by [agrupar_paginas_en_documentos]
    correspond in order to a division of the pages into consecutive runs,
    and each document holds of its run: the file name and the path of the
    first page, the type of that page, the page numbers in order, the texts
    joined by an empty line, a signature when some page has one, and as
    number and as date the first value of a page that is neither missing nor
    empty (the value of the first page when there is none). *)
Theorem agrupar_paginas_en_documentos_contenido
    (np_mean : list float -> float) (paginas_info : list pagina_info) :
  exists runs : list (list pagina_info),
    List.concat runs = paginas_info
    /\ Forall2 contenido_de runs
         (agrupar_paginas_en_documentos np_mean paginas_info).
Proof. apply agrupar_contenido. Qed.

(** ** The pages and documents of one PDF *)

Lemma paginas_desde_numeros parse_date hoy nombre path ls : forall i,
  map p_pagina (paginas_desde parse_date hoy nombre path (Z.of_nat i) ls)
  = map Z.of_nat (seq i (List.length ls)).
Proof.
  induction ls as [|l ls IH]; intros i; [reflexivity|].
  cbn [paginas_desde map List.length seq info_pagina p_pagina].
  f_equal. rewrite <- IH. f_equal. f_equal. lia.
Qed.

Lemma tipos_truthy : forallb truthy TIPOS = true.
Proof. vm_compute. reflexivity. Qed.

Lemma info_pagina_forma parse_date hoy nombre path i l :
  let p := info_pagina parse_date hoy nombre path i l in
  p_archivo p = nombre /\ p_ruta_archivo p = path
  /\ In (tipo_de p) TIPOS
  /\ forall g, p_nit_o_cedula p = Some g -> es_numero_id g.
Proof.
  intros p. unfold p, info_pagina.
  cbn [p_archivo p_ruta_archivo p_nit_o_cedula].
  split; [reflexivity|]. split; [reflexivity|]. split.
  - unfold tipo_de. cbn [p_tipo_detectado or_str].
    pose proof (clasificar_con_In DOC_KEYWORDS nombre (l_texto l)) as H.
    unfold clasificar_pagina, clasificar_documento_robusto.
    destruct (truthy (clasificar_con DOC_KEYWORDS nombre (l_texto l)));
      [exact H|left; reflexivity].
  - intros g H. unfold nit_o_cedula_de in H. destruct grupos_ok_nit as [G1 G2].
    destruct (Re.search RE_NIT (l_texto l)) as [[m cs]|] eqn:S1.
    + apply (search_caps_ok 1 es_numero_id _ _ _ _ G1 S1). exact H.
    + destruct (Re.search RE_CEDULA (l_texto l)) as [[m cs]|] eqn:S2;
        [|discriminate].
      apply (search_caps_ok 1 es_numero_id _ _ _ _ G2 S2). exact H.
Qed.

Lemma paginas_desde_forma parse_date hoy nombre path ls : forall i p,
  In p (paginas_desde parse_date hoy nombre path i ls) ->
  p_archivo p = nombre /\ p_ruta_archivo p = path
  /\ In (tipo_de p) TIPOS
  /\ forall g, p_nit_o_cedula p = Some g -> es_numero_id g.
Proof.
  induction ls as [|l ls IH]; intros i p H; [contradiction|].
  cbn [paginas_desde] in H. destruct H as [<-|H].
  - apply info_pagina_forma.
  - apply (IH _ _ H).
Qed.

Lemma primero_con_valor_In l :
  l <> [] -> In (primero_con_valor l) l.
Proof.
  intros H. unfold primero_con_valor.
  destruct (find truthy_opt l) as [x|] eqn:F.
  - apply find_some in F. apply F.
  - destruct l; [contradiction H; reflexivity|left; reflexivity].
Qed.

Lemma concat_paginas runs : forall docs,
  Forall2 contenido_de runs docs ->
  List.concat (map paginas docs) = map p_pagina (List.concat runs).
Proof.
  induction runs as [|r runs IH]; intros docs H; inversion H; subst;
    [reflexivity|].
  simpl. rewrite map_app, IH by assumption. f_equal.
  match goal with
  | H : contenido_de r _ |- _ =>
      destruct r; [contradiction|]; destruct H as (_ & _ & _ & -> & _)
  end.
  reflexivity.
Qed.

(** X17.  The documents made of the pages of one PDF divide its pages 1,
    ..., n in order; each carries the name and the path of the PDF, at least
    one page, "otro" or a type of [DOC_KEYWORDS], and as number, when it has
    one, six to twelve digits. *)
Theorem documentos_de_un_pdf
    (parse_date : str -> option datetime) (hoy : Z)
    (np_mean : list float -> float)
    (nombre_archivo path_pdf : str) (lecturas : list lectura) :
  let paginas_info :=
    extraer_info_por_pagina parse_date hoy nombre_archivo path_pdf lecturas in
  let docs := agrupar_paginas_en_documentos np_mean paginas_info in
  List.concat (map paginas docs)
  = map Z.of_nat (seq 1 (List.length lecturas))
  /\ Forall (fun d =>
              archivo d = nombre_archivo /\ ruta_archivo d = path_pdf
              /\ paginas d <> []
              /\ In (tipo_detectado d) TIPOS
              /\ forall g, nit_o_cedula d = Some g ->
                   (6 <= List.length g <= 12)%nat
                   /\ Forall (fun c => is_digit c = true) g) docs.
Proof.
  intros paginas_info docs.
  destruct (agrupar_contenido np_mean paginas_info)
    as [runs [Ec F]].
  fold docs in F. split.
  - rewrite (concat_paginas _ _ F), Ec. unfold paginas_info.
    apply (paginas_desde_numeros parse_date hoy nombre_archivo path_pdf
             lecturas 1).
  - assert (P : forall p, In p (List.concat runs) ->
                  p_archivo p = nombre_archivo /\ p_ruta_archivo p = path_pdf
                  /\ In (tipo_de p) TIPOS
                  /\ forall g, p_nit_o_cedula p = Some g -> es_numero_id g).
    { rewrite Ec. intros p Hp. unfold paginas_info in Hp.
      apply (paginas_desde_forma _ _ _ _ _ _ _ Hp). }
    clear Ec. revert P. induction F as [|run d runs docs Hd F IH]; intros P;
      constructor.
    + destruct run as [|p run]; [contradiction|].
      destruct Hd as (H1 & H2 & H3 & H4 & _ & _ & H7 & _).
      destruct (P p) as (P1 & P2 & P3 & _); [simpl; left; reflexivity|].
      rewrite H1, H2, H3, H4. split; [exact P1|]. split; [exact P2|].
      split; [discriminate|]. split; [exact P3|].
      intros g Hg. rewrite H7 in Hg.
      pose proof (primero_con_valor_In (map p_nit_o_cedula (p :: run))
                    ltac:(discriminate)) as Hin.
      rewrite Hg in Hin. apply in_map_iff in Hin.
      destruct Hin as [q [Eq Hq]].
      destruct (P q) as (_ & _ & _ & P4);
        [change (List.concat ((p :: run) :: runs))
           with ((p :: run) ++ List.concat runs);
         apply in_or_app; left; exact Hq|].
      apply P4. exact Eq.
    + apply IH. intros p Hp. apply P.
      change (List.concat (run :: runs)) with (run ++ List.concat runs).
      apply in_or_app. right. exact Hp.
Qed.

(* ================================================================== *)
(** * States, files and documents of the checklist *)
(* ================================================================== *)

Lemma tras_evaluar_refl parse_date hoy d : tras_evaluar parse_date hoy d d.
Proof. unfold tras_evaluar, salvo_fecha, fecha_redetectada. tauto. Qed.

Lemma resolver_fecha_salvo_fecha parse_date hoy it doc :
  tras_evaluar parse_date hoy doc (snd (resolver_fecha parse_date hoy it doc)).
Proof.
  unfold resolver_fecha.
  destruct (match fecha_documento doc with
            | Some s =>
                if truthy s
                then obtener_fecha_date parse_date (Some (FStr s))
                else None
            | None => None
            end); [apply tras_evaluar_refl|].
  match goal with
  | |- context [extraer_fecha_mejorada parse_date hoy (texto doc) ?b] =>
      destruct (extraer_fecha_mejorada parse_date hoy (texto doc) b)
        as [f|] eqn:E; [|apply tras_evaluar_refl];
      split; [unfold salvo_fecha; simpl; tauto|];
      right; exists b, f; split; [exact E|reflexivity]
  end.
Qed.

Section EvaluarMas.

Variable parse_date : str -> option datetime.
Variable hoy : Z.
Variable it : item.
Variable archivo_inferido : option (list str).
Variable fecha_recepcion_dt : option fecha_obj.

Let loop := evaluar_loop parse_date hoy it archivo_inferido fecha_recepcion_dt.
Let eval_doc := evaluar_doc parse_date hoy it archivo_inferido fecha_recepcion_dt.

Lemma evaluar_loop_filtrados docs : forall acc,
  r_archivos (fst (loop docs acc))
  = r_archivos acc
    ++ map (fun d => (archivo d, paginas d))
         (filter (aceptado it archivo_inferido) docs).
Proof.
  induction docs as [|d docs IH]; intros acc.
  - simpl. rewrite app_nil_r. reflexivity.
  - unfold loop in *. simpl.
    destruct (aceptado it archivo_inferido d).
    + destruct (evaluar_doc parse_date hoy it archivo_inferido
                  fecha_recepcion_dt d) as [[e obs] doc'].
      match goal with
      | |- context [evaluar_loop _ _ _ _ _ docs ?a] =>
          pose proof (IH a) as E;
          destruct (evaluar_loop parse_date hoy it archivo_inferido
                      fecha_recepcion_dt docs a) as [r rest]
      end.
      simpl in *. rewrite E, <- app_assoc. reflexivity.
    + pose proof (IH acc) as E.
      destruct (evaluar_loop parse_date hoy it archivo_inferido
                  fecha_recepcion_dt docs acc) as [r rest].
      exact E.
Qed.

Lemma evaluar_doc_salvo_fecha doc :
  tras_evaluar parse_date hoy doc (snd (eval_doc doc)).
Proof.
  unfold eval_doc, evaluar_doc, etapa_vigencia.
  destruct (vigencia_de it) as [vig|].
  - pose proof (resolver_fecha_salvo_fecha parse_date hoy it doc) as R.
    destruct (resolver_fecha parse_date hoy it doc) as [[fd obs] doc'].
    simpl in R. destruct fd as [f|].
    + destruct (comparar_vigencia parse_date fecha_recepcion_dt f vig).
      simpl. exact R.
    + simpl. exact R.
  - simpl. apply tras_evaluar_refl.
Qed.

Lemma evaluar_loop_salvo_fecha docs : forall acc,
  Forall2 (tras_evaluar parse_date hoy) docs (snd (loop docs acc)).
Proof.
  induction docs as [|d docs IH]; intros acc; [constructor|].
  unfold loop in *. simpl.
  destruct (aceptado it archivo_inferido d).
  - pose proof (evaluar_doc_salvo_fecha d) as D. unfold eval_doc in D.
    destruct (evaluar_doc parse_date hoy it archivo_inferido
                fecha_recepcion_dt d) as [[e obs] doc'].
    match goal with
    | |- context [evaluar_loop _ _ _ _ _ docs ?a] =>
        pose proof (IH a) as E;
        destruct (evaluar_loop parse_date hoy it archivo_inferido
                    fecha_recepcion_dt docs a) as [r rest]
    end.
    simpl in *. constructor; assumption.
  - pose proof (IH acc) as E.
    destruct (evaluar_loop parse_date hoy it archivo_inferido
                fecha_recepcion_dt docs acc) as [r rest].
    simpl in *. constructor; [apply tras_evaluar_refl|exact E].
Qed.

(** Among documents of which one is accepted there is a last one. *)
Lemma ultimo_aceptado docs :
  filter (aceptado it archivo_inferido) docs <> [] ->
  exists pre d post,
    docs = pre ++ d :: post /\ aceptado it archivo_inferido d = true
    /\ forall x, In x post -> aceptado it archivo_inferido x = false.
Proof.
  induction docs as [|d docs IH]; intros H; [contradiction H; reflexivity|].
  destruct (filter (aceptado it archivo_inferido) docs) as [|y ys] eqn:F.
  - simpl in H. rewrite F in H.
    destruct (aceptado it archivo_inferido d) eqn:A;
      [|contradiction H; reflexivity].
    exists [], d, docs. split; [reflexivity|]. split; [exact A|].
    intros x Hx. destruct (aceptado it archivo_inferido x) eqn:Ax;
      [|reflexivity].
    assert (Hin : In x (filter (aceptado it archivo_inferido) docs))
      by (apply filter_In; split; assumption).
    rewrite F in Hin. contradiction.
  - destruct IH as (pre & d' & post & E & A & P); [discriminate|].
    exists (d :: pre), d', post. rewrite E. split; [reflexivity|].
    split; assumption.
Qed.

(** The observations of the last accepted document close the list. *)
Lemma evaluar_loop_ultimo_obs pre : forall d post acc,
  aceptado it archivo_inferido d = true ->
  (forall x, In x post -> aceptado it archivo_inferido x = false) ->
  exists l,
    r_observaciones (fst (loop (pre ++ d :: post) acc))
    = l ++ snd (fst (eval_doc d)).
Proof.
  induction pre as [|x pre IH]; intros d post acc Hd Hpost.
  - unfold loop, eval_doc in *. simpl. rewrite Hd.
    destruct (evaluar_doc parse_date hoy it archivo_inferido
                fecha_recepcion_dt d) as [[e obs] doc'].
    match goal with
    | |- context [evaluar_loop _ _ _ _ _ post ?a] =>
        pose proof (evaluar_loop_no_aceptados parse_date hoy it
                      archivo_inferido fecha_recepcion_dt post a Hpost) as E;
        destruct (evaluar_loop parse_date hoy it archivo_inferido
                    fecha_recepcion_dt post a) as [r rest]
    end.
    simpl in *. subst r. simpl. exists (r_observaciones acc). reflexivity.
  - unfold loop, eval_doc in *. simpl.
    destruct (aceptado it archivo_inferido x).
    + destruct (evaluar_doc parse_date hoy it archivo_inferido
                  fecha_recepcion_dt x) as [[e obs] doc'].
      match goal with
      | |- context [evaluar_loop _ _ _ _ _ (pre ++ d :: post) ?a] =>
          pose proof (IH d post a Hd Hpost) as E;
          destruct (evaluar_loop parse_date hoy it archivo_inferido
                      fecha_recepcion_dt (pre ++ d :: post) a) as [r rest]
      end.
      exact E.
    + pose proof (IH d post acc Hd Hpost) as E.
      destruct (evaluar_loop parse_date hoy it archivo_inferido
                  fecha_recepcion_dt (pre ++ d :: post) acc) as [r rest].
      exact E.
Qed.

(** Why an accepted document is left in need of review, or Missing. *)
Lemma evaluar_doc_explicado d :
  let e := fst (fst (eval_doc d)) in
  let obs := snd (fst (eval_doc d)) in
  (e = Revision -> obs <> [])
  /\ (e = Falta ->
      exists rec lim exp vig, In (ObsVencido rec lim exp vig) obs /\ lim < rec).
Proof.
  unfold eval_doc, evaluar_doc.
  set (obs0 := if es_inferido it archivo_inferido then [ObsInferido] else []).
  assert (V : let e := fst (fst (etapa_vigencia parse_date hoy it d
                                   fecha_recepcion_dt)) in
              let obs := snd (fst (etapa_vigencia parse_date hoy it d
                                     fecha_recepcion_dt)) in
              (e = Revision -> obs <> [])
              /\ (e = Falta ->
                  exists rec lim exp vig,
                    In (ObsVencido rec lim exp vig) obs /\ lim < rec)).
  { unfold etapa_vigencia. destruct (vigencia_de it) as [vig|].
    - destruct (resolver_fecha parse_date hoy it d) as [[fd obs] doc'].
      destruct fd as [f|].
      + unfold comparar_vigencia.
        destruct (obtener_fecha_date parse_date fecha_recepcion_dt) as [r|].
        * destruct (fecha_limite_habiles (combine_min f) vig) as [lim|e|].
          -- destruct (r <=? dt_date lim) eqn:L; simpl.
             ++ split; intros X; discriminate X.
             ++ apply Z.leb_gt in L. split; [intros X; discriminate X|].
                intros _. exists r, (dt_date lim), f, vig.
                split; [|exact L]. apply in_or_app. right. left. reflexivity.
          -- simpl. split; [|intros X; discriminate X].
             intros _ X. apply app_eq_nil in X. destruct X as [_ X].
             discriminate X.
          -- simpl. split; [|intros X; discriminate X].
             intros _ X. apply app_eq_nil in X. destruct X as [_ X].
             discriminate X.
        * simpl. split; [|intros X; discriminate X].
          intros _ X. apply app_eq_nil in X. destruct X as [_ X].
          discriminate X.
      + simpl. split; [|intros X; discriminate X].
        intros _ X. apply app_eq_nil in X. destruct X as [_ X].
        discriminate X.
    - simpl. split; intros X; discriminate X. }
  destruct (etapa_vigencia parse_date hoy it d fecha_recepcion_dt)
    as [[e obs] doc'].
  cbv zeta in V. cbn [fst snd] in V |- *. destruct V as [V1 V2].
  unfold override_firma, override_confianza.
  destruct (conf_baja doc').
  - cbn [fst snd]. destruct (requiere_firma it).
    + destruct (negb (firma_manuscrita doc')); cbn [fst snd estado_eqb].
      * split; [|intros X; discriminate X].
        intros _ X. apply app_eq_nil in X. destruct X as [_ X].
        discriminate X.
      * split; [|intros X; discriminate X].
        intros _ X. apply app_eq_nil in X. destruct X as [_ X].
        discriminate X.
    + cbn [fst snd]. split; [|intros X; discriminate X].
      intros _ X. apply app_eq_nil in X. destruct X as [_ X].
      discriminate X.
  - destruct (requiere_firma it).
    + destruct (negb (firma_manuscrita doc')); cbn [fst snd].
      * split.
        -- intros _ X. apply app_eq_nil in X. destruct X as [_ X].
           discriminate X.
        -- intros X. destruct e; try discriminate X.
           destruct (V2 eq_refl) as (rec & lim & exp & vig & Hin & Hl).
           exists rec, lim, exp, vig. split; [|exact Hl].
           apply in_or_app. left. apply in_or_app. right. exact Hin.
      * split.
        -- intros X Y. apply app_eq_nil in Y. destruct Y as [_ Y].
           apply (V1 X Y).
        -- intros X.
           destruct (V2 X) as (rec & lim & exp & vig & Hin & Hl).
           exists rec, lim, exp, vig. split; [|exact Hl].
           apply in_or_app. right. exact Hin.
    + cbn [fst snd]. split.
      * intros X Y. apply app_eq_nil in Y. destruct Y as [_ Y].
        apply (V1 X Y).
      * intros X.
        destruct (V2 X) as (rec & lim & exp & vig & Hin & Hl).
        exists rec, lim, exp, vig. split; [|exact Hl].
        apply in_or_app. right. exact Hin.
Qed.

End EvaluarMas.

Lemma evaluar_item_aceptados
    (parse_date : str -> option datetime) (hoy : Z) (it : item)
    (docs : list documento) (fecha_recepcion_dt : option fecha_obj)
    (peticionario_tipo : str) (archivo_inferido : option (list str)) :
  no_aplica it peticionario_tipo = None ->
  let r := fst (evaluar_item parse_date hoy it docs fecha_recepcion_dt
                  peticionario_tipo archivo_inferido) in
  let aceptados := filter (aceptado it archivo_inferido) docs in
  r_archivos r = map (fun d => (archivo d, paginas d)) aceptados
  /\ (aceptados = [] ->
      r_estado r = (if requerido it then Falta else NA)
      /\ r_observaciones r = []).
Proof.
  intros Hg r aceptados. unfold r, evaluar_item. rewrite Hg.
  pose proof (evaluar_loop_filtrados parse_date hoy it archivo_inferido
                fecha_recepcion_dt docs (Build_resultado Falta [] [])) as F.
  pose proof (evaluar_loop_no_aceptados parse_date hoy it archivo_inferido
                fecha_recepcion_dt docs (Build_resultado Falta [] [])) as N.
  destruct (evaluar_loop parse_date hoy it archivo_inferido
              fecha_recepcion_dt docs (Build_resultado Falta [] []))
    as [r0 rest].
  simpl in F, N. fold aceptados in F. split.
  - destruct (r_archivos r0) eqn:A; simpl; [exact F|].
    rewrite A. exact F.
  - intros E. rewrite E in F. simpl in F. rewrite F. simpl.
    rewrite N.
    + simpl. destruct (requerido it); split; reflexivity.
    + intros x Hx. destruct (aceptado it archivo_inferido x) eqn:Ax;
        [|reflexivity].
      assert (Hin : In x aceptados) by (apply filter_In; split; assumption).
      rewrite E in Hin. contradiction.
Qed.

(** X18.  For an item that applies to the petitioner, the files reported by
    [evaluar_item] are the documents that meet the acceptance threshold, all
    of them and in their order, each with its pages. When no document meets
    it the item is Missing if it is required and N/A if it is not, with no
    observation. *)
Theorem evaluar_item_archivos
    (parse_date : str -> option datetime) (hoy : Z) (it : item)
    (docs : list documento) (fecha_recepcion_dt : option fecha_obj)
    (peticionario_tipo : str) (archivo_inferido : option (list str)) :
  no_aplica it peticionario_tipo = None ->
  let r := fst (evaluar_item parse_date hoy it docs fecha_recepcion_dt
                  peticionario_tipo archivo_inferido) in
  let aceptados := filter (aceptado it archivo_inferido) docs in
  r_archivos r = map (fun d => (archivo d, paginas d)) aceptados
  /\ (aceptados = [] ->
      r_estado r = (if requerido it then Falta else NA)
      /\ r_observaciones r = []).
Proof. apply evaluar_item_aceptados. Qed.

Lemma evaluar_item_archivos_witness :
  r_archivos (fst (evaluar_item sin_dateutil ej_hoy ej_rut
                     [ej_doc_rut_claro; ej_doc_camara_vencido;
                      ej_doc_rut_borroso]
                     (Some (FDate 739700)) (L1 "persona_juridica") None))
  = [(L1 "a.pdf", [1]); (L1 "b.pdf", [1])].
Proof.
  etransitivity.
  - apply (evaluar_item_archivos sin_dateutil ej_hoy ej_rut).
    vm_compute. reflexivity.
  - vm_compute. reflexivity.
Defined.

Lemma conf_baja_salvo_fecha d d' :
  salvo_fecha d d' -> conf_baja d' = conf_baja d.
Proof.
  unfold salvo_fecha, conf_baja. intros (_ & _ & _ & Ht & Hc & _).
  rewrite Ht, Hc. reflexivity.
Qed.

(** X19.  [evaluar_item] answers Complete only when the last document that
    meets the acceptance threshold is not of low confidence, is signed if
    the item requires a signature and, for an item with a validity window,
    has a date, the reception date being known and on or before the limit
    counted from that date. *)
Theorem evaluar_item_completo
    (parse_date : str -> option datetime) (hoy : Z) (it : item)
    (docs : list documento) (fecha_recepcion_dt : option fecha_obj)
    (peticionario_tipo : str) (archivo_inferido : option (list str)) :
  r_estado (fst (evaluar_item parse_date hoy it docs fecha_recepcion_dt
                   peticionario_tipo archivo_inferido)) = C ->
  exists pre d post,
    docs = pre ++ d :: post
    /\ aceptado it archivo_inferido d = true
    /\ (forall x, In x post -> aceptado it archivo_inferido x = false)
    /\ conf_baja d = false
    /\ (requiere_firma it = true -> firma_manuscrita d = true)
    /\ (forall v, vigencia_de it = Some v ->
          exists f r limite,
            fst (fst (resolver_fecha parse_date hoy it d)) = Some f
            /\ obtener_fecha_date parse_date fecha_recepcion_dt = Some r
            /\ fecha_limite_habiles (combine_min f) v = Done limite
            /\ r <= dt_date limite).
Proof.
  intros HC.
  destruct (no_aplica it peticionario_tipo) as [o|] eqn:Hg.
  { unfold evaluar_item in HC. rewrite Hg in HC. discriminate. }
  destruct (evaluar_item_aceptados parse_date hoy it docs fecha_recepcion_dt
              peticionario_tipo archivo_inferido Hg) as [_ HN].
  destruct (filter (aceptado it archivo_inferido) docs) as [|y ys] eqn:F.
  { destruct (HN eq_refl) as [E _]. rewrite E in HC.
    destruct (requerido it); discriminate. }
  clear HN.
  destruct (ultimo_aceptado it archivo_inferido docs) as (pre & d & post & E & A & P);
    [rewrite F; discriminate|].
  exists pre, d, post. split; [exact E|]. split; [exact A|].
  split; [exact P|].
  subst docs.
  assert (U : r_estado (fst (evaluar_item parse_date hoy it
                               (pre ++ d :: post) fecha_recepcion_dt
                               peticionario_tipo archivo_inferido))
              = fst (fst (evaluar_doc parse_date hoy it archivo_inferido
                            fecha_recepcion_dt d))).
  { unfold evaluar_item. rewrite Hg.
    pose proof (evaluar_loop_ultimo parse_date hoy it archivo_inferido
                  fecha_recepcion_dt pre d post
                  (Build_resultado Falta [] []) A P) as [E1 E2].
    destruct (evaluar_loop parse_date hoy it archivo_inferido
                fecha_recepcion_dt (pre ++ d :: post)
                (Build_resultado Falta [] [])) as [r0 rest].
    simpl in E1, E2. destruct (r_archivos r0); [contradiction|exact E1]. }
  rewrite U in HC. clear U F y ys.
  unfold evaluar_doc in HC.
  pose proof (resolver_fecha_salvo_fecha parse_date hoy it d) as [R _].
  unfold etapa_vigencia in HC.
  destruct (vigencia_de it) as [vig|] eqn:V.
  - destruct (resolver_fecha parse_date hoy it d) as [[fd obs] doc'] eqn:RF.
    simpl in R.
    assert (K : forall e obs1,
      fst (override_firma it doc'
             (override_confianza doc'
                (e, (if es_inferido it archivo_inferido
                     then [ObsInferido] else []) ++ obs1))) = C ->
      e = C /\ conf_baja d = false
      /\ (requiere_firma it = true -> firma_manuscrita d = true)).
    { intros e obs1 H. unfold override_firma, override_confianza in H.
      rewrite (conf_baja_salvo_fecha d doc' R) in H.
      destruct R as (_ & _ & _ & _ & _ & _ & _ & Rf). rewrite Rf in H.
      destruct (conf_baja d).
      - destruct (requiere_firma it); [|discriminate].
        destruct (negb (firma_manuscrita d)); discriminate.
      - destruct (requiere_firma it).
        + destruct (firma_manuscrita d); simpl in H.
          * split; [exact H|]. split; reflexivity.
          * destruct e; discriminate.
        + simpl in H. split; [exact H|]. split; [reflexivity|].
          intros X. discriminate X. }
    destruct fd as [f|].
    + destruct (comparar_vigencia parse_date fecha_recepcion_dt f vig)
        as [e obs'] eqn:CV.
      simpl in HC. apply K in HC. destruct HC as (-> & K2 & K3).
      split; [exact K2|]. split; [exact K3|].
      intros v Hv. injection Hv as <-.
      unfold comparar_vigencia in CV.
      destruct (obtener_fecha_date parse_date fecha_recepcion_dt)
        as [r|] eqn:OR; [|discriminate].
      destruct (fecha_limite_habiles (combine_min f) vig) as [limite|e|]
        eqn:FL; try discriminate.
      destruct (r <=? dt_date limite) eqn:L; [|discriminate].
      apply Z.leb_le in L.
      exists f, r, limite.
      split; [reflexivity|]. split; [reflexivity|].
      split; [exact FL|exact L].
    + simpl in HC. apply K in HC. destruct HC as (HC & _). discriminate.
  - simpl in HC.
    assert (R0 : salvo_fecha d d) by (unfold salvo_fecha; tauto).
    unfold override_firma, override_confianza in HC.
    destruct (conf_baja d).
    + destruct (requiere_firma it); [|discriminate].
      destruct (negb (firma_manuscrita d)); discriminate.
    + split; [reflexivity|]. split; [|intros v Hv; discriminate Hv].
      destruct (requiere_firma it); [|intros X; discriminate X].
      destruct (firma_manuscrita d); [reflexivity|discriminate HC].
Qed.

Lemma evaluar_item_completo_witness :
  exists pre d post,
    [ej_doc_rut_claro] = pre ++ d :: post /\ conf_baja d = false.
Proof.
  destruct (evaluar_item_completo sin_dateutil ej_hoy ej_rut
              [ej_doc_rut_claro] (Some (FDate 739700))
              (L1 "persona_juridica") None)
    as (pre & d & post & E & _ & _ & K & _).
  - vm_compute. reflexivity.
  - exists pre, d, post. split; assumption.
Defined.

Lemma Forall2_refl {A : Type} (R : A -> A -> Prop) l :
  (forall x, R x x) -> Forall2 R l l.
Proof. intros H. induction l; constructor; auto. Qed.

Lemma Forall2_trans {A : Type} (R : A -> A -> Prop) :
  (forall x y z, R x y -> R y z -> R x z) ->
  forall l1 l2 l3, Forall2 R l1 l2 -> Forall2 R l2 l3 -> Forall2 R l1 l3.
Proof.
  intros T l1 l2 l3 H. revert l3.
  induction H as [|x y l1 l2 Hxy H IH]; intros l3 H3;
    inversion H3; subst; constructor; eauto.
Qed.

Lemma tras_evaluar_trans parse_date hoy x y z :
  tras_evaluar parse_date hoy x y -> tras_evaluar parse_date hoy y z ->
  tras_evaluar parse_date hoy x z.
Proof.
  unfold tras_evaluar, salvo_fecha, fecha_redetectada.
  intros [(A1 & A2 & A3 & A4 & A5 & A6 & A7 & A8) F1]
         [(B1 & B2 & B3 & B4 & B5 & B6 & B7 & B8) F2].
  split; [repeat split; congruence|].
  destruct F2 as [F2|(b & f & F2 & F2')].
  - destruct F1 as [F1|(b & f & F1 & F1')].
    + left. congruence.
    + right. exists b, f. split; congruence.
  - right. exists b, f. rewrite A4 in F2. split; assumption.
Qed.

Lemma evaluar_item_tras_evaluar
    (parse_date : str -> option datetime) (hoy : Z) (it : item)
    (docs : list documento) (fecha_recepcion_dt : option fecha_obj)
    (peticionario_tipo : str) (archivo_inferido : option (list str)) :
  Forall2 (tras_evaluar parse_date hoy) docs
    (snd (evaluar_item parse_date hoy it docs fecha_recepcion_dt
            peticionario_tipo archivo_inferido)).
Proof.
  unfold evaluar_item.
  destruct (no_aplica it peticionario_tipo).
  - simpl. apply Forall2_refl. apply tras_evaluar_refl.
  - pose proof (evaluar_loop_salvo_fecha parse_date hoy it archivo_inferido
                  fecha_recepcion_dt docs (Build_resultado Falta [] [])) as E.
    destruct (evaluar_loop parse_date hoy it archivo_inferido
                fecha_recepcion_dt docs (Build_resultado Falta [] []))
      as [r rest].
    simpl in E. destruct (r_archivos r); exact E.
Qed.

(** ** The whole checklist *)

Section ChecklistProps.

Variable parse_date : str -> option datetime.
Variable hoy : Z.
Variable ahora : datetime.

Lemma filas_loop_ids items : forall docs tipo pt fr allowed,
  map ItemID (fst (filas_loop parse_date hoy items docs tipo pt fr allowed))
  = map item_id items.
Proof.
  induction items as [|it items IH]; intros docs tipo pt fr allowed;
    [reflexivity|].
  simpl.
  destruct (evaluar_item parse_date hoy it docs (Some fr) pt allowed)
    as [r docs'].
  specialize (IH docs' tipo pt fr allowed).
  destruct (filas_loop parse_date hoy items docs' tipo pt fr allowed)
    as [filas docs''].
  simpl in *. rewrite IH. reflexivity.
Qed.

Lemma filas_loop_documentos items : forall docs tipo pt fr allowed,
  Forall2 (tras_evaluar parse_date hoy) docs
    (snd (filas_loop parse_date hoy items docs tipo pt fr allowed)).
Proof.
  induction items as [|it items IH]; intros docs tipo pt fr allowed.
  - simpl. apply Forall2_refl. apply tras_evaluar_refl.
  - simpl.
    pose proof (evaluar_item_tras_evaluar parse_date hoy it docs (Some fr) pt
                  allowed) as E.
    destruct (evaluar_item parse_date hoy it docs (Some fr) pt allowed)
      as [r docs'].
    specialize (IH docs' tipo pt fr allowed).
    destruct (filas_loop parse_date hoy items docs' tipo pt fr allowed)
      as [filas docs''].
    simpl in *.
    eapply Forall2_trans; [apply tras_evaluar_trans|exact E|exact IH].
Qed.

Lemma fecha_recepcion_de_ahora fr :
  (forall dt, fr <> FDatetime dt) ->
  fecha_recepcion_de parse_date ahora fr = FDatetime ahora.
Proof.
  intros H. destruct fr as [d|dt|s|]; try reflexivity.
  contradiction (H dt). reflexivity.
Qed.

End ChecklistProps.

(** X20.  [generar_checklist] takes a reception date that is a [datetime] as
    it is. For any other value, a string or a [date], the test
    [isinstance(fecha_recepcion_str, (datetime, datetime.date))] raises
    TypeError, [datetime.date] being a method of the class imported, and the
    checklist is the one of the current time: the value given is not read.
    *)
Theorem generar_checklist_fecha_recepcion
    (parse_date : str -> option datetime) (hoy : Z) (ahora : datetime)
    (docs : list documento) (tipo_devolucion peticionario_tipo : str)
    (allowed_item_ids : option (list str)) :
  (forall dt,
     fecha_recepcion_de parse_date ahora (FDatetime dt) = FDatetime dt)
  /\ (forall fr,
        (forall dt, fr <> FDatetime dt) ->
        isinstance fr [ClsDatetime; MetodoDate] = Raise TypeError
        /\ generar_checklist parse_date hoy ahora docs tipo_devolucion fr
             peticionario_tipo allowed_item_ids
           = generar_checklist parse_date hoy ahora docs tipo_devolucion
               (FDatetime ahora) peticionario_tipo allowed_item_ids).
Proof.
  split; [reflexivity|].
  intros fr H. split.
  - destruct fr as [d|dt|s|]; try reflexivity.
    contradiction (H dt). reflexivity.
  - unfold generar_checklist.
    rewrite (fecha_recepcion_de_ahora parse_date ahora fr H). reflexivity.
Qed.

Lemma generar_checklist_fecha_recepcion_witness :
  generar_checklist sin_dateutil ej_hoy (combine_min 739700)
    [ej_doc_camara_vencido] (L1 "misional") (FStr (L1 "15/02/2025"))
    (L1 "persona_juridica") None
  = generar_checklist sin_dateutil ej_hoy (combine_min 739700)
      [ej_doc_camara_vencido] (L1 "misional") (FDatetime (combine_min 739700))
      (L1 "persona_juridica") None.
Proof.
  apply (generar_checklist_fecha_recepcion sin_dateutil ej_hoy
           (combine_min 739700)).
  intros dt. discriminate.
Defined.

Lemma distintos_NoDup l : distintos l = true -> NoDup l.
Proof.
  induction l as [|x l IH]; simpl; intros H; constructor.
  - apply andb_true_iff in H. destruct H as [H _].
    apply negb_true_iff in H. intros Hin.
    assert (E : existsb (str_eqb x) l = true).
    { apply existsb_exists. exists x. split; [exact Hin|apply str_eqb_refl]. }
    congruence.
  - apply IH. apply andb_true_iff in H. apply H.
Qed.

Lemma checklist_ids_NoDup tipo : NoDup (map item_id (checklist_de tipo)).
Proof.
  unfold checklist_de. destruct (str_eqb tipo (L1 "misional"));
    apply distintos_NoDup; vm_compute; reflexivity.
Qed.

Lemma NoDup_map_filter {A B : Type} (f : A -> B) (p : A -> bool) l :
  NoDup (map f l) -> NoDup (map f (filter p l)).
Proof.
  induction l as [|x l IH]; simpl; intros H; [constructor|].
  inversion H as [|? ? Hx Hn]; subst.
  destruct (p x); [|apply IH; exact Hn].
  simpl. constructor; [|apply IH; exact Hn].
  intros Hin. apply Hx. apply in_map_iff in Hin.
  destruct Hin as [y [E Hy]]. apply filter_In in Hy.
  apply in_map_iff. exists y. tauto.
Qed.

(** X21.  With the ids inferred from a file name, when there are some, the
    checklist has one row for each of them and no other, and every item of
    it is evaluated as an inferred one, with the lower threshold; without
    allowed ids it has one row for every item of the catalog, in the order
    of the catalog. *)
Theorem generar_checklist_inferidos
    (parse_date : str -> option datetime) (hoy : Z) (ahora : datetime)
    (docs : list documento) (nombre_archivo tipo_devolucion : str)
    (fecha_recepcion_str : fecha_obj) (peticionario_tipo : str) :
  let ids := inferir_items_desde_nombre nombre_archivo tipo_devolucion in
  let filas allowed :=
    fst (generar_checklist parse_date hoy ahora docs tipo_devolucion
           fecha_recepcion_str peticionario_tipo allowed) in
  (ids <> [] ->
   Permutation (map ItemID (filas (Some ids))) ids
   /\ Forall (fun it => es_inferido it (Some ids) = true)
        (items_de tipo_devolucion (Some ids)))
  /\ map ItemID (filas None) = map item_id (checklist_de tipo_devolucion).
Proof.
  intros ids filas. unfold filas, generar_checklist.
  rewrite !filas_loop_ids. split; [|reflexivity].
  intros Hne.
  destruct (inferir_items_caracter nombre_archivo tipo_devolucion)
    as [Hc Hin]. fold ids in Hc, Hin.
  unfold items_de. destruct ids as [|i0 ids0] eqn:I; [congruence|].
  rewrite <- I in *. split.
  - apply NoDup_Permutation.
    + apply NoDup_map_filter. apply checklist_ids_NoDup.
    + apply creciente_NoDup. exact Hc.
    + intros x. rewrite in_map_iff. split.
      * intros [it [E H]]. apply filter_In in H. destruct H as [_ H].
        apply existsb_exists in H. destruct H as [y [Hy Ey]].
        apply str_eqb_eq in Ey. congruence.
      * intros Hx. destruct (proj1 (Hin x) Hx) as (_ & it & Hit & E & _).
        exists it. split; [exact E|]. apply filter_In.
        split; [exact Hit|]. apply existsb_exists. exists x.
        split; [exact Hx|]. rewrite E. apply str_eqb_refl.
  - apply Forall_forall. intros it H. apply filter_In in H.
    unfold es_inferido. apply H.
Qed.

Lemma generar_checklist_inferidos_witness :
  Permutation
    (map ItemID
       (fst (generar_checklist sin_dateutil ej_hoy (combine_min 739700) []
               (L1 "misional") (FStr (L1 "15/02/2025"))
               (L1 "persona_juridica")
               (Some (inferir_items_desde_nombre
                        (L1 "RUT y camara de comercio.pdf")
                        (L1 "misional"))))))
    (inferir_items_desde_nombre (L1 "RUT y camara de comercio.pdf")
       (L1 "misional")).
Proof.
  apply (generar_checklist_inferidos sin_dateutil ej_hoy (combine_min 739700)
           [] (L1 "RUT y camara de comercio.pdf") (L1 "misional")).
  vm_compute. discriminate.
Defined.

(** X22.  The documents come out of [evaluar_item], and out of the whole of
    [generar_checklist], as many as they went in, in the same order and
    unchanged but for [fecha_documento], which is the one they had or the
    ISO text of a date found in their own text. *)
Theorem generar_checklist_documentos
    (parse_date : str -> option datetime) (hoy : Z) (ahora : datetime)
    (docs : list documento) (tipo_devolucion : str)
    (fecha_recepcion_str : fecha_obj) (peticionario_tipo : str)
    (allowed_item_ids : option (list str)) :
  (forall it fecha_recepcion_dt,
     Forall2 (tras_evaluar parse_date hoy) docs
       (snd (evaluar_item parse_date hoy it docs fecha_recepcion_dt
               peticionario_tipo allowed_item_ids)))
  /\ Forall2 (tras_evaluar parse_date hoy) docs
       (snd (generar_checklist parse_date hoy ahora docs tipo_devolucion
               fecha_recepcion_str peticionario_tipo allowed_item_ids)).
Proof.
  split.
  - intros it fr. apply evaluar_item_tras_evaluar.
  - unfold generar_checklist. apply filas_loop_documentos.
Qed.

(** X23.  No state without its reason. An item in need of review carries an
    observation; an item that is Missing although a document was accepted
    for it carries the observation of an expiry, with a limit before the
    reception date; and an item that is N/A names no file and, when it
    carries no observation, is not required. *)
Theorem evaluar_item_estados_explicados
    (parse_date : str -> option datetime) (hoy : Z) (it : item)
    (docs : list documento) (fecha_recepcion_dt : option fecha_obj)
    (peticionario_tipo : str) (archivo_inferido : option (list str)) :
  let r := fst (evaluar_item parse_date hoy it docs fecha_recepcion_dt
                  peticionario_tipo archivo_inferido) in
  (r_estado r = Revision -> r_observaciones r <> [])
  /\ (r_estado r = Falta -> r_archivos r <> [] ->
      exists rec lim exp vig,
        In (ObsVencido rec lim exp vig) (r_observaciones r) /\ lim < rec)
  /\ (r_estado r = NA ->
      r_archivos r = []
      /\ (r_observaciones r = [] -> requerido it = false)).
Proof.
  intros r. unfold r. clear r.
  destruct (no_aplica it peticionario_tipo) as [o|] eqn:Hg.
  { unfold evaluar_item. rewrite Hg. simpl.
    split; [intros X; discriminate X|].
    split; [intros X; discriminate X|].
    intros _. split; [reflexivity|intros X; discriminate X]. }
  destruct (evaluar_item_aceptados parse_date hoy it docs fecha_recepcion_dt
              peticionario_tipo archivo_inferido Hg) as [HA HN].
  cbv zeta in HA, HN.
  destruct (filter (aceptado it archivo_inferido) docs) as [|y ys] eqn:F.
  { destruct (HN eq_refl) as [E1 E2]. rewrite E1, E2, HA.
    split; [destruct (requerido it); intros X; discriminate X|].
    split; [intros _ X; contradiction X; reflexivity|].
    intros X. split; [reflexivity|]. intros _.
    destruct (requerido it); [discriminate X|reflexivity]. }
  clear HN.
  destruct (ultimo_aceptado it archivo_inferido docs)
    as (pre & d & post & E & A & P); [rewrite F; discriminate|].
  subst docs.
  assert (U : let r := fst (evaluar_item parse_date hoy it
                              (pre ++ d :: post) fecha_recepcion_dt
                              peticionario_tipo archivo_inferido) in
              r_estado r
              = fst (fst (evaluar_doc parse_date hoy it archivo_inferido
                            fecha_recepcion_dt d))
              /\ exists l,
                   r_observaciones r
                   = l ++ snd (fst (evaluar_doc parse_date hoy it
                                      archivo_inferido fecha_recepcion_dt d))).
  { unfold evaluar_item. rewrite Hg.
    pose proof (evaluar_loop_ultimo parse_date hoy it archivo_inferido
                  fecha_recepcion_dt pre d post
                  (Build_resultado Falta [] []) A P) as [E1 E2].
    pose proof (evaluar_loop_ultimo_obs parse_date hoy it archivo_inferido
                  fecha_recepcion_dt pre d post
                  (Build_resultado Falta [] []) A P) as E3.
    destruct (evaluar_loop parse_date hoy it archivo_inferido
                fecha_recepcion_dt (pre ++ d :: post)
                (Build_resultado Falta [] [])) as [r0 rest].
    simpl in E1, E2, E3.
    destruct (r_archivos r0); [contradiction|]. simpl. split; assumption. }
  cbv zeta in U. destruct U as [U1 [l U2]].
  rewrite U1, U2, HA.
  destruct (evaluar_doc_explicado parse_date hoy it archivo_inferido
              fecha_recepcion_dt d) as [X1 X2].
  cbv zeta in X1, X2.
  split; [|split].
  - intros H Y. apply app_eq_nil in Y. destruct Y as [_ Y].
    apply (X1 H Y).
  - intros H _. destruct (X2 H) as (rec & lim & exp & vig & Hin & Hl).
    exists rec, lim, exp, vig. split; [|exact Hl].
    apply in_or_app. right. exact Hin.
  - intros H. exfalso.
    assert (N : fst (fst (evaluar_doc parse_date hoy it archivo_inferido
                            fecha_recepcion_dt d)) <> NA).
    { clear. unfold evaluar_doc, etapa_vigencia.
      destruct (vigencia_de it) as [vig|].
      - destruct (resolver_fecha parse_date hoy it d) as [[fd obs] doc'].
        destruct fd as [f|].
        + unfold comparar_vigencia.
          destruct (obtener_fecha_date parse_date fecha_recepcion_dt);
            [destruct (fecha_limite_habiles (combine_min f) vig);
             [destruct (_ <=? _)|..]|];
            cbn [fst snd]; unfold override_firma, override_confianza;
            destruct (conf_baja doc'), (requiere_firma it),
              (negb (firma_manuscrita doc')); discriminate.
        + cbn [fst snd]; unfold override_firma, override_confianza;
            destruct (conf_baja doc'), (requiere_firma it),
              (negb (firma_manuscrita doc')); discriminate.
      - cbn [fst snd]; unfold override_firma, override_confianza;
          destruct (conf_baja d), (requiere_firma it),
            (negb (firma_manuscrita d)); discriminate. }
    contradiction.
Qed.

Lemma evaluar_item_estados_explicados_witness :
  r_observaciones
    (fst (evaluar_item sin_dateutil ej_hoy ej_rut [ej_doc_rut_borroso]
            (Some (FDate 739700)) (L1 "persona_juridica") None)) <> []
  /\ exists rec lim exp vig,
       In (ObsVencido rec lim exp vig)
         (r_observaciones
            (fst (evaluar_item sin_dateutil ej_hoy ej_camara
                    [ej_doc "c.pdf"
                       "Camara de Comercio: certificado de existencia, 15 de enero de 2025"
                       95%float]
                    (Some (FDate 739700)) (L1 "persona_juridica") None)))
       /\ lim < rec.
Proof.
  split.
  - apply (proj1 (evaluar_item_estados_explicados sin_dateutil ej_hoy ej_rut
                    [ej_doc_rut_borroso] (Some (FDate 739700))
                    (L1 "persona_juridica") None)).
    vm_compute. reflexivity.
  - apply (proj1 (proj2 (evaluar_item_estados_explicados sin_dateutil ej_hoy
                           ej_camara
                           [ej_doc "c.pdf"
                              "Camara de Comercio: certificado de existencia, 15 de enero de 2025"
                              95%float]
                           (Some (FDate 739700)) (L1 "persona_juridica")
                           None))).
    + vm_compute. reflexivity.
    + vm_compute. discriminate.
Defined.

(* ================================================================== *)
(** * The report of a folder *)
(* ================================================================== *)

Lemma documentos_pdf_archivo parse_date hoy np_mean nombre path lecturas :
  Forall (fun d => archivo d = nombre)
    (agrupar_paginas_en_documentos np_mean
       (extraer_info_por_pagina parse_date hoy nombre path lecturas)).
Proof.
  destruct (agrupar_contenido np_mean
              (extraer_info_por_pagina parse_date hoy nombre path lecturas))
    as [runs [Ec F]].
  assert (P : forall p, In p (List.concat runs) -> p_archivo p = nombre).
  { rewrite Ec. intros p Hp.
    apply (paginas_desde_forma _ _ _ _ _ _ _ Hp). }
  clear Ec. revert P. induction F as [|run d runs docs Hd F IH]; intros P;
    constructor.
  - destruct run as [|p run]; [contradiction|].
    destruct Hd as (H1 & _). rewrite H1. apply P. simpl. left. reflexivity.
  - apply IH. intros p Hp. apply P.
    change (List.concat (run :: runs)) with (run ++ List.concat runs).
    apply in_or_app. right. exact Hp.
Qed.

Lemma tras_evaluar_archivo parse_date hoy n docs : forall docs',
  Forall2 (tras_evaluar parse_date hoy) docs docs' ->
  Forall (fun d => archivo d = n) docs ->
  Forall (fun d => archivo d = n) docs'.
Proof.
  induction docs as [|d docs IH]; intros docs' F A; inversion F; subst;
    constructor.
  - inversion A; subst.
    match goal with
    | H : tras_evaluar _ _ d _ |- _ => destruct H as [(E & _) _]
    end.
    congruence.
  - inversion A; subst. apply IH; assumption.
Qed.

Lemma evaluar_item_archivos_de parse_date hoy it docs fr pt allowed n :
  Forall (fun d => archivo d = n) docs ->
  Forall (fun a => fst a = n)
    (r_archivos (fst (evaluar_item parse_date hoy it docs fr pt allowed))).
Proof.
  intros A. destruct (no_aplica it pt) as [o|] eqn:Hg.
  - unfold evaluar_item. rewrite Hg. simpl. constructor.
  - destruct (evaluar_item_aceptados parse_date hoy it docs fr pt allowed Hg)
      as [E _].
    cbv zeta in E. rewrite E. apply Forall_forall. intros a Ha.
    apply in_map_iff in Ha. destruct Ha as [d [<- Hd]].
    apply filter_In in Hd. destruct Hd as [Hd _].
    rewrite Forall_forall in A. apply (A d Hd).
Qed.

Lemma filas_loop_archivos parse_date hoy n items :
  forall docs tipo pt fr allowed,
  Forall (fun d => archivo d = n) docs ->
  Forall (fun f => Forall (fun a => fst a = n) (ArchivosFuente f))
    (fst (filas_loop parse_date hoy items docs tipo pt fr allowed)).
Proof.
  induction items as [|it items IH]; intros docs tipo pt fr allowed A;
    [constructor|].
  simpl.
  pose proof (evaluar_item_archivos_de parse_date hoy it docs (Some fr) pt
                allowed n A) as E1.
  pose proof (evaluar_item_tras_evaluar parse_date hoy it docs (Some fr) pt
                allowed) as E2.
  destruct (evaluar_item parse_date hoy it docs (Some fr) pt allowed)
    as [r docs'].
  simpl in E1, E2.
  pose proof (tras_evaluar_archivo parse_date hoy n docs docs' E2 A) as A'.
  specialize (IH docs' tipo pt fr allowed A').
  destruct (filas_loop parse_date hoy items docs' tipo pt fr allowed)
    as [filas docs''].
  simpl in *. constructor; assumption.
Qed.

Lemma checklist_de_no_vacio tipo : checklist_de tipo <> [].
Proof.
  unfold checklist_de. destruct (str_eqb tipo (L1 "misional")); discriminate.
Qed.

Lemma items_de_inferidos_no_vacio nombre tipo :
  let ids := inferir_items_desde_nombre nombre tipo in
  items_de tipo (match ids with [] => None | _ :: _ => Some ids end) <> [].
Proof.
  intros ids.
  destruct (inferir_items_caracter nombre tipo) as [_ Hin]. fold ids in Hin.
  destruct ids as [|i0 ids0] eqn:I.
  - apply checklist_de_no_vacio.
  - unfold items_de.
    destruct (proj1 (Hin i0) (or_introl eq_refl)) as (_ & it & Hit & E & _).
    intros F.
    assert (X : In it (filter (fun it => existsb (str_eqb (item_id it))
                                           (i0 :: ids0))
                         (checklist_de tipo))).
    { apply filter_In. split; [exact Hit|]. apply existsb_exists.
      exists i0. split; [left; reflexivity|]. rewrite E.
      apply str_eqb_refl. }
    rewrite F in X. contradiction.
Qed.

Section CarpetaProps.

Variable parse_date : str -> option datetime.
Variable parse_recepcion : str -> option datetime.
Variable np_mean : list float -> float.

Lemma filas_de_archivo_forma e s tipo pt :
  let b := filas_de_archivo parse_date parse_recepcion np_mean e s tipo pt in
  b <> [] /\ Forall (fila_de_archivo (e_fname e)) b.
Proof.
  intros b. unfold b, filas_de_archivo. clear b.
  destruct (parse_recepcion s) as [dt|];
    [|split; [discriminate|constructor; [reflexivity|constructor]]].
  destruct (e_lecturas e) as [lecturas|];
    [|split; [discriminate|constructor; [reflexivity|constructor]]].
  cbv zeta.
  set (docs := agrupar_paginas_en_documentos np_mean _).
  set (allowed := match inferir_items_desde_nombre (e_fname e) tipo with
                  | [] => None
                  | _ :: _ => Some _
                  end).
  set (filas := map (fun f => FilaChecklist f (e_fname e) (e_fname e) allowed)
                  _).
  assert (N : filas <> []).
  { unfold filas. intros M. apply map_eq_nil in M.
    assert (L : map ItemID
                  (fst (generar_checklist parse_date (e_hoy e) (e_ahora e)
                          docs tipo (FStr s) pt allowed)) = [])
      by (rewrite M; reflexivity).
    unfold generar_checklist in L. rewrite filas_loop_ids in L.
    apply map_eq_nil in L.
    exact (items_de_inferidos_no_vacio (e_fname e) tipo L). }
  assert (F : Forall (fila_de_archivo (e_fname e)) filas).
  { unfold filas. apply Forall_forall. intros r Hr. apply in_map_iff in Hr.
    destruct Hr as [f [<- Hf]]. cbn [fila_de_archivo].
    split; [reflexivity|]. split; [reflexivity|].
    unfold generar_checklist in Hf.
    pose proof (filas_loop_archivos parse_date (e_hoy e) (e_fname e)
                  (items_de tipo allowed) docs tipo pt
                  (fecha_recepcion_de parse_date (e_ahora e) (FStr s))
                  allowed
                  (documentos_pdf_archivo parse_date (e_hoy e) np_mean
                     (e_fname e) (e_full_path e) lecturas)) as A.
    rewrite Forall_forall in A. apply (A f Hf). }
  destruct (e_hash_sha256 e); [split; assumption|]. split.
  - intros M. apply app_eq_nil in M. destruct M as [_ M]. discriminate M.
  - apply Forall_app. split; [exact F|].
    constructor; [reflexivity|constructor].
Qed.

Lemma filas_de_archivo_fecha e s s' tipo pt :
  parse_recepcion s <> None -> parse_recepcion s' <> None ->
  filas_de_archivo parse_date parse_recepcion np_mean e s' tipo pt
  = filas_de_archivo parse_date parse_recepcion np_mean e s tipo pt.
Proof.
  intros H H'. unfold filas_de_archivo.
  destruct (parse_recepcion s); [|contradiction H; reflexivity].
  destruct (parse_recepcion s'); [|contradiction H'; reflexivity].
  destruct (e_lecturas e); [|reflexivity].
  cbv zeta. unfold generar_checklist.
  rewrite !(fecha_recepcion_de_ahora parse_date (e_ahora e) (FStr _))
    by (intros dt; discriminate).
  reflexivity.
Qed.

End CarpetaProps.

(** X24.  The sheet "Checklist" of a folder run. There is none exactly when
    the folder has no file whose name ends in ".pdf", whatever the case of
    the letters. Otherwise its rows are, in the order of the files, one
    non-empty block per PDF, and the rows of a block carry the name of their
    PDF and cite no other file. When the reception date cannot be parsed
    every PDF gets the one row "ERROR"; when it can be parsed its value
    changes no row. *)
Theorem procesar_carpeta_informe
    (parse_date parse_recepcion : str -> option datetime)
    (np_mean : list float -> float) (listdir : list entrada)
    (fecha_recepcion_str tipo_devolucion peticionario_tipo : str) :
  let pdf_files :=
    filter (fun e => endswith (lower (e_fname e)) (L1 ".pdf")) listdir in
  let informe s :=
    procesar_carpeta parse_date parse_recepcion np_mean listdir s
      tipo_devolucion peticionario_tipo in
  (informe fecha_recepcion_str = None <-> pdf_files = [])
  /\ (forall filas,
        informe fecha_recepcion_str = Some filas ->
        exists bloques,
          filas = List.concat bloques
          /\ Forall2 (fun e b => b <> []
                                 /\ Forall (fila_de_archivo (e_fname e)) b)
               pdf_files bloques)
  /\ (parse_recepcion fecha_recepcion_str = None ->
      pdf_files <> [] ->
      informe fecha_recepcion_str
      = Some (map (fun e => FilaError tipo_devolucion peticionario_tipo
                              (e_fname e)) pdf_files))
  /\ (forall s',
        parse_recepcion fecha_recepcion_str <> None ->
        parse_recepcion s' <> None ->
        informe s' = informe fecha_recepcion_str).
Proof.
  intros pdf_files informe. unfold informe, procesar_carpeta.
  fold pdf_files. clearbody pdf_files. clear informe.
  split; [|split; [|split]].
  - destruct pdf_files; split; intros H; try discriminate; reflexivity.
  - intros filas H.
    exists (map (fun e => filas_de_archivo parse_date parse_recepcion np_mean
                            e fecha_recepcion_str tipo_devolucion
                            peticionario_tipo) pdf_files).
    split.
    + rewrite <- flat_map_concat_map.
      destruct pdf_files; [discriminate|]. injection H as <-. reflexivity.
    + clear H. induction pdf_files as [|e l IH]; constructor.
      * apply filas_de_archivo_forma.
      * exact IH.
  - intros N H.
    assert (E : flat_map
                  (fun e => filas_de_archivo parse_date parse_recepcion
                              np_mean e fecha_recepcion_str tipo_devolucion
                              peticionario_tipo) pdf_files
                = map (fun e => FilaError tipo_devolucion peticionario_tipo
                                  (e_fname e)) pdf_files).
    { clear H. induction pdf_files as [|e l IH]; [reflexivity|].
      cbn [flat_map map]. rewrite IH. unfold filas_de_archivo at 1.
      rewrite N. reflexivity. }
    destruct pdf_files; [contradiction H; reflexivity|].
    rewrite E. reflexivity.
  - intros s' H H'.
    assert (E : flat_map
                  (fun e => filas_de_archivo parse_date parse_recepcion
                              np_mean e s' tipo_devolucion peticionario_tipo)
                  pdf_files
                = flat_map
                    (fun e => filas_de_archivo parse_date parse_recepcion
                                np_mean e fecha_recepcion_str tipo_devolucion
                                peticionario_tipo) pdf_files).
    { apply flat_map_ext. intros e.
      apply (filas_de_archivo_fecha parse_date parse_recepcion np_mean e
               fecha_recepcion_str s' tipo_devolucion peticionario_tipo
               H H'). }
    destruct pdf_files; [reflexivity|]. rewrite E. reflexivity.
Qed.
